(** * memory-mcp: a shallow embedding of the persistent memory store

    Source: [src/memory-mcp/src/memory_mcp/store.py], [schema.py] and
    [lifecycle.py].  The typed part of the development models the JSON
    document that [MemoryStore._load] returns as records, Python dicts as
    association lists (insertion order is scan order), and every operation
    as a function on the persisted world (the main file plus the backup
    files), following [_read_modify_write].  The migration functions, whose
    claims concern deep copies and aliasing, are modelled over an explicit
    heap of mutable dict objects in module [Migration].

    Numbers: Python floats are modelled as rationals [Q]; [math.exp] is a
    parameter of the search model.  [round(x, n)] is modelled by
    [py_round] on the exact rational, which can differ from Python's
    rounding of the float at an exact decimal tie; statements about a
    rounded value use [rounded_to], which leaves the tie open.  Timestamps are the instants the ISO
    strings denote, in microseconds ([Z]); [None] stands for a null or
    unparseable timestamp.  Strings are ASCII Rocq strings. *)

From Stdlib Require Import List String Ascii ZArith QArith Qround Qminmax Qabs Bool Lia Lqa Sorted DecimalString.
Import ListNotations.

Local Open Scope Z_scope.
Local Open Scope string_scope.
Local Open Scope list_scope.
Local Open Scope bool_scope.

Set Warnings "-register-all".

(* ------------------------------------------------------------------ *)
(** ** Python string helpers (ASCII) *)

Module PyStr.

Local Open Scope nat_scope.

(** [str.lower] on ASCII characters. *)
Definition lower_ascii (c : ascii) : ascii :=
  let n := nat_of_ascii c in
  if (65 <=? n) && (n <=? 90) then ascii_of_nat (n + 32) else c.

Fixpoint lower (s : string) : string :=
  match s with
  | EmptyString => EmptyString
  | String c t => String (lower_ascii c) (lower t)
  end.

(** [needle in hay]. *)
Fixpoint contains (needle hay : string) : bool :=
  String.prefix needle hay ||
  match hay with
  | EmptyString => false
  | String _ t => contains needle t
  end.

(** [str.isspace] on ASCII: space, \t \n \v \f \r and \x1c..\x1f. *)
Definition is_space (c : ascii) : bool :=
  let n := nat_of_ascii c in
  (n =? 32) || ((9 <=? n) && (n <=? 13)) || ((28 <=? n) && (n <=? 31)).

(** [str.split()]: maximal runs of non-whitespace characters. *)
Fixpoint split_aux (s : string) (cur : string) : list string :=
  match s with
  | EmptyString => if String.eqb cur "" then [] else [cur]
  | String c t =>
      if is_space c then
        (if String.eqb cur "" then [] else [cur]) ++ split_aux t ""
      else split_aux t (cur ++ String c EmptyString)%string
  end.

Definition split (s : string) : list string := split_aux s "".

(** The character class [[a-z0-9]]. *)
Definition is_word_char (c : ascii) : bool :=
  let n := nat_of_ascii c in
  ((97 <=? n) && (n <=? 122)) || ((48 <=? n) && (n <=? 57)).

(** [re.findall(r"[a-z0-9]+", s)]. *)
Fixpoint findall_aux (s : string) (cur : string) : list string :=
  match s with
  | EmptyString => if String.eqb cur "" then [] else [cur]
  | String c t =>
      if is_word_char c then findall_aux t (cur ++ String c EmptyString)%string
      else (if String.eqb cur "" then [] else [cur]) ++ findall_aux t ""
  end.

Definition findall_words (s : string) : list string := findall_aux s "".

(** Python's string ordering (code point lexicographic). *)
Definition str_le (a b : string) : bool :=
  match String.compare a b with Gt => false | _ => true end.

(** [sorted(l)] on strings: an insertion sort; sorting is a function of
    the multiset of its input, so any correct sort gives this result. *)
Fixpoint insert_sorted (x : string) (l : list string) : list string :=
  match l with
  | [] => [x]
  | y :: ys => if str_le x y then x :: y :: ys else y :: insert_sorted x ys
  end.

Fixpoint sorted (l : list string) : list string :=
  match l with
  | [] => []
  | x :: xs => insert_sorted x (sorted xs)
  end.

(** [list(set(l))] up to order: one copy of each element. *)
Definition to_set (l : list string) : list string := nodup string_dec l.

Definition set_mem (x : string) (s : list string) : bool :=
  existsb (String.eqb x) s.

Definition set_inter (a b : list string) : list string :=
  filter (fun x => set_mem x b) a.

Definition set_eqb (a b : list string) : bool :=
  forallb (fun x => set_mem x b) a && forallb (fun x => set_mem x a) b.

End PyStr.

(* ------------------------------------------------------------------ *)
(** ** Python dicts as association lists *)

Module Dict.
Section Dict.
Context {V : Type}.

Definition t := list (string * V).

(** [d.get(k)] *)
Fixpoint get (k : string) (d : t) : option V :=
  match d with
  | [] => None
  | (k', v) :: r => if String.eqb k k' then Some v else get k r
  end.

Definition get_default (k : string) (d : t) (dflt : V) : V :=
  match get k d with Some v => v | None => dflt end.

Definition has (k : string) (d : t) : bool :=
  match get k d with Some _ => true | None => false end.

(** [d[k] = v]: in place when [k] is present, appended otherwise. *)
Fixpoint set (k : string) (v : V) (d : t) : t :=
  match d with
  | [] => [(k, v)]
  | (k', v') :: r => if String.eqb k k' then (k', v) :: r else (k', v') :: set k v r
  end.

(** [d.pop(k)] *)
Fixpoint pop (k : string) (d : t) : option (V * t) :=
  match d with
  | [] => None
  | (k', v) :: r =>
      if String.eqb k k' then Some (v, r)
      else match pop k r with
           | Some (x, r') => Some (x, (k', v) :: r')
           | None => None
           end
  end.

End Dict.
End Dict.

Arguments Dict.t : clear implicits.

(* ------------------------------------------------------------------ *)
(** ** The record model ([schema.py]) *)

Definition SCHEMA_VERSION : string := "1.2".

Definition VALID_CATEGORIES : list string :=
  ["user"; "assistant"; "project"; "relationships"; "tools"; "learnings"].

Definition VALID_RELATIONS : list string :=
  ["supersedes"; "elaborates"; "contradicts"; "related-to"; "depends-on"].

Definition DEFAULT_IMPORTANCE : Z := 5.
Definition MIN_IMPORTANCE : Z := 1.
Definition MAX_IMPORTANCE : Z := 10.

(** Timestamps: the instant an ISO string denotes, in microseconds. *)
Definition timestamp := Z.

Record Source := mkSource { src_type : string; src_detail : option string }.

Record Link := mkLink { target : string; relation : string }.

Record MemoryEntry := mkEntry {
  value : string;
  created_at : option timestamp;
  updated_at : option timestamp;
  tags : list string;
  confidence : option Q;
  importance : Z;
  source : Source;
  access_count : Z;
  last_accessed : option timestamp;
  status : string;
  links : list Link
}.

Definition Category := Dict.t MemoryEntry.
Definition Memories := Dict.t Category.

Record Document := mkDoc {
  schema_version : string;
  session_count : Z;
  memories : Memories
}.

(** Field updates used by the operations ([entry[f] = x]). *)
Definition set_links (e : MemoryEntry) (l : list Link) : MemoryEntry :=
  mkEntry (value e) (created_at e) (updated_at e) (tags e) (confidence e)
    (importance e) (source e) (access_count e) (last_accessed e) (status e) l.

Definition set_memories (d : Document) (m : Memories) : Document :=
  mkDoc (schema_version d) (session_count d) m.

(** All [(category, key, entry)] triples in scan order. *)
Definition entries_of (m : Memories) : list (string * string * MemoryEntry) :=
  flat_map (fun '(c, es) => map (fun '(k, e) => (c, k, e)) es) m.

(** [memories.get(c, {}).get(k)] *)
Definition lookup_entry (d : Document) (c k : string) : option MemoryEntry :=
  Dict.get k (Dict.get_default c (memories d) []).

(* ------------------------------------------------------------------ *)
(** ** The persisted world and [_read_modify_write] *)

Inductive PyError := ValueError | KeyError.

(** Backup files, by suffix ([".backup.json"], ...). *)
Definition Files := Dict.t Document.

Record World := mkWorld { disk : Document; files : Files }.

(** A mutator sees the loaded document and the file system; it returns a
    result or raises, together with the mutated document and files. *)
Definition Mutator (A : Type) :=
  Document -> Files -> (PyError + A) * Document * Files.

(** Lock, load, apply mutator, save.  An exception escapes before
    [_save]; files written by the mutator stay written. *)
Definition _read_modify_write {A} (mutator : Mutator A) (w : World)
  : (PyError + A) * World :=
  match mutator (disk w) (files w) with
  | (inl err, _, fs') => (inl err, mkWorld (disk w) fs')
  | (inr r, data', fs') => (inr r, mkWorld data' fs')
  end.

Definition _validate_category (category : string) : bool :=
  existsb (String.eqb category) VALID_CATEGORIES.

(* ------------------------------------------------------------------ *)
(** ** [forget] *)

Definition BACKUP_SUFFIX : string := ".backup.json".

(** [_remove_incoming_links]: [entry["links"]] is rewritten only when it
    is non-empty. *)
Definition _remove_incoming_links (m : Memories) (target_ref : string) : Memories :=
  map (fun '(c, es) =>
         (c, map (fun '(k, e) =>
                    (k, match links e with
                        | [] => e
                        | ls => set_links e
                                  (filter (fun lk => negb (String.eqb (target lk) target_ref)) ls)
                        end)) es)) m.

Record ForgetResult := mkForgetResult { removed : MemoryEntry; backup_path : string }.

Definition forget (category key : string) (w : World) : (PyError + ForgetResult) * World :=
  if negb (_validate_category category) then (inl ValueError, w) else
  let target_ref := (category ++ "." ++ key)%string in
  _read_modify_write (fun data fs =>
    let mems := memories data in
    let cat_entries := Dict.get_default category mems [] in
    match Dict.pop key cat_entries with
    | None => (inl KeyError, data, fs)
    | Some (removed, cat_entries') =>
        let mems1 := Dict.set category cat_entries' mems in
        let mems2 := _remove_incoming_links mems1 target_ref in
        let data' := set_memories data mems2 in
        let fs' := Dict.set BACKUP_SUFFIX data' fs in
        (inr (mkForgetResult removed BACKUP_SUFFIX), data', fs')
    end) w.

(* ------------------------------------------------------------------ *)
(** ** Dedup helpers *)

Definition MIN_TAG_OVERLAP_FOR_CANDIDATE : nat := 2.
Definition STRONG_TAG_OVERLAP_THRESHOLD : nat := 3.
Definition MIN_WORD_LENGTH : nat := 3.
Definition HIGH_VALUE_SIMILARITY_RATIO : Q := 3 # 5.
Definition MIN_SIGNIFICANT_WORDS_FOR_VALUE_MATCH : nat := 3.

Definition STOP_WORDS : list string :=
  ["the"; "a"; "an"; "is"; "are"; "was"; "were"; "be"; "been"; "being";
   "have"; "has"; "had"; "do"; "does"; "did"; "will"; "would"; "could";
   "should"; "may"; "might"; "shall"; "can"; "and"; "but"; "or"; "not";
   "no"; "so"; "if"; "for"; "to"; "of"; "in"; "on"; "at"; "by"; "with";
   "from"; "as"; "into"; "that"; "this"; "it"; "its"].

Definition Qlt_bool (x y : Q) : bool := negb (Qle_bool y x).

(** Python's [round(x, n)] (round half to even), on the rational value. *)
Definition py_round (x : Q) (n : Z) : Q :=
  let scale := inject_Z (10 ^ n) in
  let y := (x * scale)%Q in
  let f := Qfloor y in
  let r := (y - inject_Z f)%Q in
  let z := if Qlt_bool r (1 # 2) then f
           else if Qlt_bool (1 # 2) r then f + 1
           else if Z.even f then f else f + 1 in
  (inject_Z z / scale)%Q.

(** [y] is [x] rounded to [n] decimals: a multiple of [10^-n] at most
    half a unit of the [n]-th decimal away from [x]. Python rounds the
    binary float that stands for [x], so at an exact decimal tie either
    neighbour can come out; the relation leaves that choice open. *)
Definition rounded_to (n : Z) (x y : Q) : Prop :=
  exists z : Z, y = (inject_Z z / inject_Z (10 ^ n))%Q /\
    (Qabs (x * inject_Z (10 ^ n) - inject_Z z) <= 1 # 2)%Q.

Definition _extract_significant_words (text : string) : list string :=
  PyStr.to_set
    (filter (fun w => (MIN_WORD_LENGTH <=? String.length w)%nat
                      && negb (PyStr.set_mem w STOP_WORDS))
       (PyStr.findall_words (PyStr.lower text))).

Definition _tag_overlap_count (tags_a tags_b : list string) : nat :=
  let set_a := PyStr.to_set (map PyStr.lower tags_a) in
  let set_b := PyStr.to_set (map PyStr.lower tags_b) in
  List.length (PyStr.set_inter set_a set_b).

Definition _value_similarity_ratio (new_words existing_words : list string) : Q :=
  match new_words with
  | [] => 0%Q
  | _ => (inject_Z (Z.of_nat (List.length (PyStr.set_inter new_words existing_words)))
          / inject_Z (Z.of_nat (List.length new_words)))%Q
  end.

(** The two parts of [match_reason]. *)
Inductive Reason := TagOverlapReason (n : nat) | ValueSimilarityReason (q : Q).

Record Candidate := mkCandidate {
  cand_category : string;
  cand_key : string;
  cand_value : string;
  cand_tags : list string;
  match_reason : list Reason;
  tag_overlap : nat;
  value_similarity : Q        (* [round(similarity, 2)] *)
}.

Definition _find_dedup_candidates (new_key new_value : string) (new_tags : list string)
    (entries : Category) (category : string) : list Candidate :=
  let new_words := _extract_significant_words new_value in
  flat_map (fun '(existing_key, entry) =>
    if String.eqb existing_key new_key then [] else
    let existing_tags := tags entry in
    let tag_overlap := _tag_overlap_count new_tags existing_tags in
    let r1 := if (MIN_TAG_OVERLAP_FOR_CANDIDATE <=? tag_overlap)%nat
              then [TagOverlapReason tag_overlap] else [] in
    let existing_words := _extract_significant_words (value entry) in
    let similarity := _value_similarity_ratio new_words existing_words in
    let has_enough_words :=
      (MIN_SIGNIFICANT_WORDS_FOR_VALUE_MATCH <=? List.length new_words)%nat in
    let r2 := if has_enough_words && Qle_bool HIGH_VALUE_SIMILARITY_RATIO similarity
              then [ValueSimilarityReason similarity] else [] in
    match r1 ++ r2 with
    | [] => []
    | reasons => [mkCandidate category existing_key (value entry) existing_tags
                    reasons tag_overlap (py_round similarity 2)]
    end) entries.

Definition _recommend_action (candidates : list Candidate) (new_value : string) : string :=
  let new_words := _extract_significant_words new_value in
  if existsb (fun c =>
        let existing_words := _extract_significant_words (cand_value c) in
        let has_substance :=
          (MIN_SIGNIFICANT_WORDS_FOR_VALUE_MATCH <=? List.length new_words)%nat in
        has_substance && PyStr.set_eqb new_words existing_words) candidates
  then "NOOP"
  else if existsb (fun c =>
        (STRONG_TAG_OVERLAP_THRESHOLD <=? tag_overlap c)%nat
        || Qle_bool HIGH_VALUE_SIMILARITY_RATIO (value_similarity c)) candidates
  then "UPDATE"
  else "ADD".

(* ------------------------------------------------------------------ *)
(** ** [remember] *)

Definition _clamp_importance (v : Z) : Z := Z.max MIN_IMPORTANCE (Z.min MAX_IMPORTANCE v).

Definition AUTO_LINK_TAG_OVERLAP_THRESHOLD : nat := 2.
Definition MAX_AUTO_LINKS_PER_REMEMBER : nat := 3.
Definition AUTO_LINK_RELATION : string := "related-to".

(** The loop of [_find_auto_links], with its [break] at the cap. *)
Fixpoint auto_links_loop (category new_key : string) (new_tag_set : list string)
    (es : Category) (acc : list Link) : list Link :=
  match es with
  | [] => acc
  | (existing_key, entry) :: rest =>
      if String.eqb existing_key new_key
      then auto_links_loop category new_key new_tag_set rest acc else
      let existing_tags := PyStr.to_set (map PyStr.lower (tags entry)) in
      let overlap := List.length (PyStr.set_inter new_tag_set existing_tags) in
      if (AUTO_LINK_TAG_OVERLAP_THRESHOLD <=? overlap)%nat then
        let acc' := acc ++ [mkLink (category ++ "." ++ existing_key) AUTO_LINK_RELATION] in
        if (MAX_AUTO_LINKS_PER_REMEMBER <=? List.length acc')%nat then acc'
        else auto_links_loop category new_key new_tag_set rest acc'
      else auto_links_loop category new_key new_tag_set rest acc
  end.

Definition _find_auto_links (category new_key : string) (new_tags : list string)
    (cat_entries : Category) : list Link :=
  match new_tags with
  | [] => []
  | _ => auto_links_loop category new_key
           (PyStr.to_set (map PyStr.lower new_tags)) cat_entries []
  end.

(** [_find_candidates]: read-only scan of the loaded document. *)
Definition _find_candidates (data : Document) (category key value : string)
    (tags : list string) (broad : bool) : list Candidate :=
  let mems := memories data in
  let cat_entries := Dict.get_default category mems [] in
  if Dict.has key cat_entries then [] else
  if broad then
    flat_map (fun cat_name =>
      _find_dedup_candidates key value tags (Dict.get_default cat_name mems []) cat_name)
      VALID_CATEGORIES
  else _find_dedup_candidates key value tags cat_entries category.

Inductive RememberResult :=
  | Candidates (candidates : list Candidate) (recommendation : string)
  | Written (action : string) (entry : MemoryEntry).

(** The UPDATE branch of [_do_remember] on [existing]. *)
Definition update_existing (existing : MemoryEntry) (value0 : string)
    (now : timestamp) (tags0 : list string) (importance0 : Z)
    (confidence0 : option Q) : MemoryEntry :=
  mkEntry value0 (created_at existing) (Some now)
    (match tags0 with
     | [] => tags existing
     | _ => PyStr.sorted (PyStr.to_set (tags existing ++ tags0))
     end)
    (match confidence0 with Some c => Some c | None => confidence existing end)
    importance0 (source existing) (access_count existing)
    (last_accessed existing) (status existing) (links existing).

Definition _do_remember (category key value0 : string) (tags0 : list string)
    (importance0 : Z) (source_type : string) (confidence0 : option Q)
    (now : timestamp) (w : World) : (PyError + RememberResult) * World :=
  _read_modify_write (fun data fs =>
    let mems0 := memories data in
    (* [memories.setdefault(category, {})] *)
    let mems := if Dict.has category mems0 then mems0 else Dict.set category [] mems0 in
    let cat_entries := Dict.get_default category mems [] in
    match Dict.get key cat_entries with
    | Some existing =>
        let e := update_existing existing value0 now tags0 importance0 confidence0 in
        let data' := set_memories data (Dict.set category (Dict.set key e cat_entries) mems) in
        (inr (Written "UPDATE" e), data', fs)
    | None =>
        let entry := mkEntry value0 (Some now) (Some now) tags0 confidence0 importance0
                       (mkSource source_type None) 0 None "active" [] in
        let cat1 := Dict.set key entry cat_entries in
        let auto_links := _find_auto_links category key tags0 cat1 in
        let entry' := match auto_links with [] => entry | _ => set_links entry auto_links end in
        let cat2 := Dict.set key entry' cat1 in
        let data' := set_memories data (Dict.set category cat2 mems) in
        (inr (Written "ADD" entry'), data', fs)
    end) w.

(** [remember]; [tags=None] is the empty list. *)
Definition remember (category key value0 : string) (tags0 : list string)
    (importance0 : Z) (source_type : string) (confidence0 : option Q)
    (force broad : bool) (now : timestamp) (w : World)
    : (PyError + RememberResult) * World :=
  if negb (_validate_category category) then (inl ValueError, w) else
  let importance1 := _clamp_importance importance0 in
  let resolved_tags := match tags0 with [] => [] | _ => PyStr.sorted tags0 end in
  let candidates :=
    if force then [] else _find_candidates (disk w) category key value0 resolved_tags broad in
  match candidates with
  | _ :: _ => (inr (Candidates candidates (_recommend_action candidates value0)), w)
  | [] => _do_remember category key value0 resolved_tags importance1 source_type
            confidence0 now w
  end.

(* ------------------------------------------------------------------ *)
(** ** [session_start], [recall], [add_link], [remove_link] *)

Definition session_start (w : World) : (PyError + (list (string * nat) * nat)) * World :=
  _read_modify_write (fun data fs =>
    let data' := mkDoc (schema_version data) (session_count data + 1) (memories data) in
    let counts := map (fun c => (c, List.length (Dict.get_default c (memories data) [])))
                      VALID_CATEGORIES in
    (inr (counts, fold_right (fun '(_, n) acc => (n + acc)%nat) 0%nat counts), data', fs)) w.

(** Access tracking: [access_count += 1], [last_accessed = now]. *)
Definition touch (now : timestamp) (e : MemoryEntry) : MemoryEntry :=
  mkEntry (value e) (created_at e) (updated_at e) (tags e) (confidence e)
    (importance e) (source e) (access_count e + 1) (Some now) (status e) (links e).

Definition recall (category : string) (key : option string) (now : timestamp) (w : World)
  : (PyError + Category) * World :=
  if negb (_validate_category category) then (inl ValueError, w) else
  _read_modify_write (fun data fs =>
    let mems := memories data in
    let cat_entries := Dict.get_default category mems [] in
    match key with
    | Some k =>
        match Dict.get k cat_entries with
        | None => (inl KeyError, data, fs)
        | Some e =>
            let e' := touch now e in
            (inr [(k, e')],
             set_memories data (Dict.set category (Dict.set k e' cat_entries) mems), fs)
        end
    | None =>
        let cat' := map (fun '(k, e) => (k, touch now e)) cat_entries in
        let mems' := if Dict.has category mems then Dict.set category cat' mems else mems in
        (inr cat', set_memories data mems', fs)
    end) w.

Inductive AddLinkResult := LinkCreated | LinkDuplicate.

Definition add_link (source_category source_key target_category target_key relation0 : string)
    (w : World) : (PyError + AddLinkResult) * World :=
  if negb (_validate_category source_category) then (inl ValueError, w) else
  if negb (_validate_category target_category) then (inl ValueError, w) else
  if negb (existsb (String.eqb relation0) VALID_RELATIONS) then (inl ValueError, w) else
  let target_ref := (target_category ++ "." ++ target_key)%string in
  _read_modify_write (fun data fs =>
    let mems := memories data in
    let src_entries := Dict.get_default source_category mems [] in
    match Dict.get source_key src_entries with
    | None => (inl KeyError, data, fs)
    | Some source_entry =>
        let tgt_entries := Dict.get_default target_category mems [] in
        if negb (Dict.has target_key tgt_entries) then (inl KeyError, data, fs) else
        if existsb (fun l => String.eqb (target l) target_ref && String.eqb (relation l) relation0)
                   (links source_entry)
        then (inr LinkDuplicate, data, fs)
        else
          let e' := set_links source_entry (links source_entry ++ [mkLink target_ref relation0]) in
          (inr LinkCreated,
           set_memories data (Dict.set source_category (Dict.set source_key e' src_entries) mems),
           fs)
    end) w.

(** [remove_link]: the filtered list is assigned to the loaded entry
    before the "no link" check raises; the raise discards the load. *)
Definition remove_link (source_category source_key target_category target_key : string)
    (w : World) : (PyError + unit) * World :=
  if negb (_validate_category source_category) then (inl ValueError, w) else
  if negb (_validate_category target_category) then (inl ValueError, w) else
  let target_ref := (target_category ++ "." ++ target_key)%string in
  _read_modify_write (fun data fs =>
    let mems := memories data in
    let src_entries := Dict.get_default source_category mems [] in
    match Dict.get source_key src_entries with
    | None => (inl KeyError, data, fs)
    | Some source_entry =>
        let ls := links source_entry in
        let ls' := filter (fun lk => negb (String.eqb (target lk) target_ref)) ls in
        let data' := set_memories data
             (Dict.set source_category (Dict.set source_key (set_links source_entry ls') src_entries) mems) in
        if Nat.eqb (List.length ls') (List.length ls) then (inl KeyError, data', fs)
        else (inr tt, data', fs)
    end) w.

(* ------------------------------------------------------------------ *)
(** ** [search] *)

Record Signals := mkSignals {
  text_match : Q; tag_match : Q; importance_signal : Q; recency : Q
}.

Definition RECENCY_DECAY_DAYS : Q := 30.
Definition MICROSECONDS_PER_DAY : Z := 86400 * 1000000.

Definition _compute_text_match_score (key : string) (entry : MemoryEntry)
    (query_lower : string) : Q :=
  if String.eqb (PyStr.lower key) query_lower then 1%Q
  else if PyStr.contains query_lower (PyStr.lower key) then (7 # 10)%Q
  else if PyStr.contains query_lower (PyStr.lower (value entry)) then (1 # 2)%Q
  else if existsb (fun tg => PyStr.contains query_lower (PyStr.lower tg)) (tags entry)
  then (1 # 2)%Q
  else 0%Q.

Definition _compute_tag_match_score (entry : MemoryEntry) (query_terms : list string) : Q :=
  match query_terms with
  | [] => 0%Q
  | _ =>
    let tags_lower := PyStr.to_set (map PyStr.lower (tags entry)) in
    match tags_lower with
    | [] => 0%Q
    | _ =>
      let matching := List.length (filter (fun term =>
                        existsb (fun tg => PyStr.contains term tg) tags_lower) query_terms) in
      Qmin (inject_Z (Z.of_nat matching)
            / inject_Z (Z.max (Z.of_nat (List.length query_terms)) 1)) 1
    end
  end.

Definition _compute_importance_score (entry : MemoryEntry) : Q :=
  (inject_Z (importance entry) / inject_Z MAX_IMPORTANCE)%Q.

(** [math.exp] is the parameter [exp]. *)
Definition _compute_recency_score (exp : Q -> Q) (entry : MemoryEntry) (now : timestamp) : Q :=
  match last_accessed entry with
  | None => 0%Q
  | Some accessed =>
      let days_since := (inject_Z (now - accessed) / inject_Z MICROSECONDS_PER_DAY)%Q in
      exp (- (days_since / RECENCY_DECAY_DAYS))%Q
  end.

(** [SEARCH_WEIGHTS] applied to the signals. *)
Definition _compute_search_score (s : Signals) : Q :=
  ((2 # 5) * text_match s + (1 # 5) * tag_match s
   + (1 # 4) * importance_signal s + (3 # 20) * recency s)%Q.

Definition _find_match_reasons (key : string) (entry : MemoryEntry) (query_lower : string)
  : list string :=
  (if PyStr.contains query_lower (PyStr.lower key) then ["key"] else [])
  ++ (if PyStr.contains query_lower (PyStr.lower (value entry)) then ["value"] else [])
  ++ (if existsb (fun tg => PyStr.contains query_lower (PyStr.lower tg)) (tags entry)
      then ["tag"] else []).

Record SearchResult := mkSearchResult {
  res_category : string;
  res_key : string;
  res_entry : MemoryEntry;      (* [dict(entry)] after access tracking *)
  score : Q;                    (* [round(score, 4)] *)
  res_signals : Signals;        (* each signal [round(v, 4)] *)
  res_match_reason : list string
}.

Definition signals_of (exp : Q -> Q) (now_dt : timestamp) (query_lower : string)
    (query_terms : list string) (key : string) (entry : MemoryEntry) : Signals :=
  mkSignals (_compute_text_match_score key entry query_lower)
            (_compute_tag_match_score entry query_terms)
            (_compute_importance_score entry)
            (_compute_recency_score exp entry now_dt).

Definition round_signals (s : Signals) : Signals :=
  mkSignals (py_round (text_match s) 4) (py_round (tag_match s) 4)
            (py_round (importance_signal s) 4) (py_round (recency s) 4).

(** The inner loop over one category: signals first, access tracking
    after; returns the mutated entries and the results in scan order. *)
Fixpoint search_entries (exp : Q -> Q) (now_str now_dt : timestamp)
    (query_lower : string) (query_terms : list string) (cat_name : string)
    (es : Category) : Category * list SearchResult :=
  match es with
  | [] => ([], [])
  | (entry_key, entry) :: rest =>
      let '(rest', rs) := search_entries exp now_str now_dt query_lower query_terms cat_name rest in
      match _find_match_reasons entry_key entry query_lower with
      | [] => ((entry_key, entry) :: rest', rs)
      | reasons =>
          let signals := signals_of exp now_dt query_lower query_terms entry_key entry in
          let sc := _compute_search_score signals in
          let entry' := touch now_str entry in
          ((entry_key, entry') :: rest',
           mkSearchResult cat_name entry_key entry' (py_round sc 4)
                          (round_signals signals) reasons :: rs)
      end
  end.

Fixpoint search_categories (exp : Q -> Q) (now_str now_dt : timestamp)
    (query_lower : string) (query_terms : list string) (cats : Memories)
  : Memories * list SearchResult :=
  match cats with
  | [] => ([], [])
  | (cat_name, es) :: rest =>
      let '(es', rs1) := search_entries exp now_str now_dt query_lower query_terms cat_name es in
      let '(rest', rs2) := search_categories exp now_str now_dt query_lower query_terms rest in
      ((cat_name, es') :: rest', rs1 ++ rs2)
  end.

(** [results.sort(key=score, reverse=True)]: a stable descending sort;
    an element goes before the first one whose score is not greater. *)
Fixpoint insert_desc (x : SearchResult) (l : list SearchResult) : list SearchResult :=
  match l with
  | [] => [x]
  | y :: ys => if Qle_bool (score y) (score x) then x :: y :: ys else y :: insert_desc x ys
  end.

Fixpoint sort_desc (l : list SearchResult) : list SearchResult :=
  match l with
  | [] => []
  | x :: xs => insert_desc x (sort_desc xs)
  end.

(** The scan of [search]'s mutator: the mutated memories and the
    unsorted results. *)
Definition search_scan (exp : Q -> Q) (query : string) (category : option string)
    (now_str now_dt : timestamp) (mems : Memories) : Memories * list SearchResult :=
  let query_lower := PyStr.lower query in
  let query_terms := filter (fun t => negb (String.eqb t "")) (PyStr.split query_lower) in
  match category with
  | Some c =>
      let '(es', rs) := search_entries exp now_str now_dt query_lower query_terms c
                          (Dict.get_default c mems []) in
      ((if Dict.has c mems then Dict.set c es' mems else mems), rs)
  | None => search_categories exp now_str now_dt query_lower query_terms mems
  end.

Definition search (exp : Q -> Q) (query : string) (category : option string)
    (now_str now_dt : timestamp) (w : World) : (PyError + list SearchResult) * World :=
  if match category with Some c => negb (_validate_category c) | None => false end
  then (inl ValueError, w) else
  _read_modify_write (fun data fs =>
    let '(mems', rs) := search_scan exp query category now_str now_dt (memories data) in
    (inr (sort_desc rs), set_memories data mems', fs)) w.

(* ------------------------------------------------------------------ *)
(** ** The operation surface *)

Inductive Op :=
  | OpSessionStart
  | OpRemember (category key value0 : string) (tags0 : list string) (importance0 : Z)
      (source_type : string) (confidence0 : option Q) (force broad : bool)
  | OpForget (category key : string)
  | OpRecall (category : string) (key : option string)
  | OpSearch (query : string) (category : option string)
  | OpAddLink (source_category source_key target_category target_key relation0 : string)
  | OpRemoveLink (source_category source_key target_category target_key : string).

(** Whether the call raised, and the world after it. *)
Definition outcome {A} (r : (PyError + A) * World) : option PyError * World :=
  match r with
  | (inl e, w) => (Some e, w)
  | (inr _, w) => (None, w)
  end.

(** One call; [now] is [_now_utc()] and [now_dt] is [datetime.now(UTC)]. *)
Definition exec (exp : Q -> Q) (now now_dt : timestamp) (op : Op) (w : World)
  : option PyError * World :=
  match op with
  | OpSessionStart => outcome (session_start w)
  | OpRemember c k v tg imp st conf force broad =>
      outcome (remember c k v tg imp st conf force broad now w)
  | OpForget c k => outcome (forget c k w)
  | OpRecall c k => outcome (recall c k now w)
  | OpSearch q c => outcome (search exp q c now now_dt w)
  | OpAddLink sc sk tc tk rel => outcome (add_link sc sk tc tk rel w)
  | OpRemoveLink sc sk tc tk => outcome (remove_link sc sk tc tk w)
  end.

(* ------------------------------------------------------------------ *)
(** ** Lifecycle analysis: [_check_staleness] ([lifecycle.py]) *)

Module Lifecycle.

Definition STALENESS_DAYS_THRESHOLD : Q := 7.

(** [_days_since]: [timedelta.total_seconds() / 86400]. *)
Definition _days_since (dt now : timestamp) : Q :=
  (inject_Z (now - dt) / inject_Z MICROSECONDS_PER_DAY)%Q.

Record StaleFinding := mkStale {
  st_category : string;
  st_key : string;
  st_created_at : option timestamp;
  days_old : Q                 (* [round(days_old, 1)] *)
}.

(** [created_at] holds [_parse_timestamp(entry.get("created_at"))]. *)
Definition _check_staleness (category key : string) (entry : MemoryEntry) (now : timestamp)
  : option StaleFinding :=
  if (0 <? access_count entry)%Z then None else
  match created_at entry with
  | None => None
  | Some t =>
      let d := _days_since t now in
      if Qlt_bool d STALENESS_DAYS_THRESHOLD then None
      else Some (mkStale category key (created_at entry) (py_round d 1))
  end.

Definition LOW_IMPORTANCE_CEILING : Z := 3.
Definition HIGH_ACCESS_THRESHOLD : Z := 5.
Definition HIGH_CONFIDENCE_FLOOR : Q := 8 # 10.
Definition LOW_CONFIDENCE_CEILING : Q := 3 # 10.
Definition CONFIDENCE_REDUCTION_STEP : Q := 15 # 100.
Definition USER_STATED_MINIMUM_CONFIDENCE : Q := 9 # 10.

(** The [reason] of a finding is formatted from its other fields and is
    left out of the records. *)
Record ArchivalFinding := mkArchival {
  ar_category : string;
  ar_key : string;
  ar_importance : Z
}.

Definition _check_archival_candidate (category key : string) (entry : MemoryEntry)
  : option ArchivalFinding :=
  if negb (String.eqb (status entry) "active") then None else
  if (LOW_IMPORTANCE_CEILING <? importance entry)%Z then None else
  if (0 <? access_count entry)%Z then None else
  Some (mkArchival category key (importance entry)).

Record ConfidenceUpdate := mkConfUpdate {
  cu_category : string;
  cu_key : string;
  current_confidence : Q;
  proposed_confidence : Q;
  cu_reason : string
}.

(** [source] is always a dict in the typed model, so [source_type] is its
    ["type"]. *)
Definition _check_confidence_adjustments (category key : string) (entry : MemoryEntry)
    (now : timestamp) : list ConfidenceUpdate :=
  match confidence entry with
  | None => []
  | Some conf =>
      let access_count0 := access_count entry in
      let source_type := src_type (source entry) in
      (if (HIGH_ACCESS_THRESHOLD <=? access_count0)%Z && Qlt_bool conf HIGH_CONFIDENCE_FLOOR
       then [mkConfUpdate category key conf HIGH_CONFIDENCE_FLOOR "frequently accessed"]
       else [])
      ++ (if (access_count0 =? 0)%Z && Qlt_bool LOW_CONFIDENCE_CEILING conf then
            match created_at entry with
            | None => []
            | Some t =>
                let days_old := _days_since t now in
                if Qle_bool STALENESS_DAYS_THRESHOLD days_old then
                  let reduced := py_round (conf - CONFIDENCE_REDUCTION_STEP) 2 in
                  [mkConfUpdate category key conf (Qmax reduced 0) "never accessed"]
                else []
            end
          else [])
      ++ (if String.eqb source_type "user-stated"
             && Qlt_bool conf USER_STATED_MINIMUM_CONFIDENCE
          then [mkConfUpdate category key conf USER_STATED_MINIMUM_CONFIDENCE "user-stated fact"]
          else [])
  end.

Record Summary := mkSummary {
  total_entries : nat;
  active : nat;
  archived : nat;
  stale_count : nat;
  archival_candidate_count : nat;
  confidence_update_count : nat
}.

Record Analysis := mkAnalysis {
  stale_entries : list StaleFinding;
  archival_candidates : list ArchivalFinding;
  confidence_updates : list ConfidenceUpdate;
  summary : Summary
}.

(** The state of [analyze]'s loop: the three lists and the three counters. *)
Record AnalyzeAcc := mkAcc {
  acc_stale : list StaleFinding;
  acc_archival : list ArchivalFinding;
  acc_conf : list ConfidenceUpdate;
  acc_total : nat;
  acc_active : nat;
  acc_archived : nat
}.

(** The body of the inner loop, on one entry. *)
Definition analyze_entry (now : timestamp) (cat_name key : string) (entry : MemoryEntry)
    (acc : AnalyzeAcc) : AnalyzeAcc :=
  let entry_status := status entry in
  mkAcc
    (acc_stale acc ++ match _check_staleness cat_name key entry now with
                      | Some s => [s] | None => [] end)
    (acc_archival acc ++ match _check_archival_candidate cat_name key entry with
                         | Some a => [a] | None => [] end)
    (acc_conf acc ++ _check_confidence_adjustments cat_name key entry now)
    (S (acc_total acc))
    (if String.eqb entry_status "active" then S (acc_active acc) else acc_active acc)
    (if String.eqb entry_status "active" then acc_archived acc
     else if String.eqb entry_status "archived" then S (acc_archived acc)
     else acc_archived acc).

(** [analyze(data, session_count)]; [now] is [datetime.now(UTC)]. *)
Definition analyze (data : Document) (session_count0 : Z) (now : timestamp) : Analysis :=
  let memories0 := memories data in
  let acc :=
    fold_left (fun acc cat_name =>
      fold_left (fun acc '(key, entry) => analyze_entry now cat_name key entry acc)
        (Dict.get_default cat_name memories0 []) acc)
      VALID_CATEGORIES (mkAcc [] [] [] 0 0 0) in
  mkAnalysis (acc_stale acc) (acc_archival acc) (acc_conf acc)
    (mkSummary (acc_total acc) (acc_active acc) (acc_archived acc)
       (List.length (acc_stale acc)) (List.length (acc_archival acc))
       (List.length (acc_conf acc))).

End Lifecycle.

(* ------------------------------------------------------------------ *)
(** ** Read-only views: [connections], [about_me], [about_us], [export] *)

(** [s.split(".", 1)] *)
Fixpoint split_dot_once (s : string) : list string :=
  match s with
  | EmptyString => [""]
  | String c t =>
      if Ascii.eqb c "." then [""; t]
      else match split_dot_once t with
           | x :: r => String c x :: r
           | [] => [String c EmptyString]
           end
  end.

Record Outgoing := mkOutgoing { out_target : string; out_relation : string; out_summary : string }.

Record Incoming := mkIncoming { in_source : string; in_relation : string; in_summary : string }.

Definition _find_incoming_links (m : Memories) (target_ref : string) : list Incoming :=
  flat_map (fun '(cat_name, entries) =>
    flat_map (fun '(entry_key, entry) =>
      flat_map (fun lk =>
        if String.eqb (target lk) target_ref
        then [mkIncoming (cat_name ++ "." ++ entry_key)%string (relation lk) (value entry)]
        else []) (links entry)) entries) m.

(** The outgoing loop of [connections]; the tuple unpacking of
    [target.split(".", 1)] raises [ValueError] on a target without a dot. *)
Fixpoint connections_outgoing (m : Memories) (ls : list Link) : PyError + list Outgoing :=
  match ls with
  | [] => inr []
  | lk :: rest =>
      match split_dot_once (target lk) with
      | [tgt_cat; tgt_key] =>
          let summary := match Dict.get tgt_key (Dict.get_default tgt_cat m []) with
                         | Some tgt_entry => value tgt_entry
                         | None => ""
                         end in
          match connections_outgoing m rest with
          | inl err => inl err
          | inr out => inr (mkOutgoing (target lk) (relation lk) summary :: out)
          end
      | _ => inl ValueError
      end
  end.

(** [connections] loads without the lock and never saves. *)
Definition connections (category key : string) (data : Document)
  : PyError + (list Outgoing * list Incoming) :=
  if negb (_validate_category category) then inl ValueError else
  let target_ref := (category ++ "." ++ key)%string in
  let mems := memories data in
  let cat_entries := Dict.get_default category mems [] in
  match Dict.get key cat_entries with
  | None => inl KeyError
  | Some entry =>
      match connections_outgoing mems (links entry) with
      | inl err => inl err
      | inr outgoing => inr (outgoing, _find_incoming_links mems target_ref)
      end
  end.

Definition NEWLINE : string := String (ascii_of_nat 10) EmptyString.

(** [sep.join(parts)] *)
Definition py_join (sep : string) (parts : list string) : string := String.concat sep parts.

Definition entry_line (key : string) (entry : MemoryEntry) : string :=
  ("- **" ++ key ++ "**: " ++ value entry)%string.

(** One block of [about_me]/[about_us]: a header and one line per entry,
    after an empty separator line when [sep] holds. *)
Definition profile_block (sep : bool) (header : string) (es : Category) : list string :=
  match es with
  | [] => []
  | _ => (if sep then [""] else []) ++ header :: map (fun '(k, e) => entry_line k e) es
  end.

(** [{k: v for k, v in entries.items() if tag in v.get("tags", [])}] *)
Definition tagged_entries (tag : string) (es : Category) : Category :=
  filter (fun '(_, e) => PyStr.set_mem tag (tags e)) es.

(** The [lines] that [about_me] collects. *)
Definition about_me_lines (data : Document) : list string :=
  let mems := memories data in
  let user_entries := Dict.get_default "user" mems [] in
  let user_facing := tagged_entries "user-facing" (Dict.get_default "relationships" mems []) in
  let user_prefs := tagged_entries "user-preference" (Dict.get_default "tools" mems []) in
  profile_block false "## User Profile" user_entries
  ++ profile_block true "## Relationship Context" user_facing
  ++ profile_block true "## Tool Preferences" user_prefs.

Definition about_me (data : Document) : string :=
  match about_me_lines data with
  | [] => "No user profile data found."
  | lines => py_join NEWLINE lines
  end.

(** The [lines] that [about_us] collects. *)
Definition about_us_lines (data : Document) : list string :=
  let mems := memories data in
  let rel_entries := Dict.get_default "relationships" mems [] in
  let assistant_entries := Dict.get_default "assistant" mems [] in
  profile_block false "## Our Relationship" rel_entries
  ++ profile_block true "## Assistant Identity" assistant_entries.

Definition about_us (data : Document) : string :=
  match about_us_lines data with
  | [] => "No relationship data found."
  | lines => py_join NEWLINE lines
  end.

(** [str(n)] on a Python int. *)
Definition py_str_int (n : Z) : string := NilZero.string_of_int (Z.to_int n).

Definition markdown_line (key : string) (entry : MemoryEntry) : string :=
  let tags_str := py_join ", " (tags entry) in
  let tag_suffix := if String.eqb tags_str "" then "" else (" [" ++ tags_str ++ "]")%string in
  ("- **" ++ key ++ "**: " ++ value entry ++ tag_suffix)%string.

(** The [lines] of [_format_as_markdown]. *)
Definition markdown_lines (data : Document) : list string :=
  let header := [("# Memory Export (schema " ++ schema_version data ++ ")")%string;
                 ("Session count: " ++ py_str_int (session_count data))%string; ""] in
  let body := flat_map (fun '(cat_name, entries) =>
                match entries with
                | [] => []
                | _ => ("## " ++ cat_name)%string :: map (fun '(k, e) => markdown_line k e) entries ++ [""]
                end) (memories data) in
  header ++ body.

Definition _format_as_markdown (data : Document) : string :=
  py_join NEWLINE (markdown_lines data).

(* ------------------------------------------------------------------ *)
(** ** Migrations over a heap of mutable dicts ([schema.py]) *)

Module Migration.

(** Immutable JSON values held in dict fields. *)
Inductive jval :=
  | JNull | JBool (b : bool) | JNum (q : Q) | JStr (s : string)
  | JList (l : list jval) | JObj (fs : list (string * jval)).

Definition loc := nat.

(** Mutable objects: an entry dict, or the top-level document dict whose
    ["memories"] (when present) maps categories to keys to entry dicts. *)
Inductive Obj :=
  | OEntry (fs : list (string * jval))
  | ODoc (fs : list (string * jval)) (mems : option (list (string * list (string * loc)))).

Definition Heap := list Obj.

Fixpoint heap_set (h : Heap) (l : loc) (o : Obj) : Heap :=
  match h, l with
  | [], _ => []
  | _ :: r, O => o :: r
  | x :: r, S l' => x :: heap_set r l' o
  end.

(** [d.setdefault(k, v)] on a dict's fields. *)
Definition setdefault (k : string) (v : jval) (fs : list (string * jval)) :=
  if Dict.has k fs then fs else fs ++ [(k, v)].

(** [copy.deepcopy]: entry objects are copied once each, through the memo
    of already copied locations. *)
Fixpoint memo_get (l : loc) (memo : list (loc * loc)) : option loc :=
  match memo with
  | [] => None
  | (a, b) :: r => if Nat.eqb a l then Some b else memo_get l r
  end.

Definition copy_entry (l : loc) (memo : list (loc * loc)) (h : Heap)
  : option (loc * list (loc * loc) * Heap) :=
  match memo_get l memo with
  | Some l' => Some (l', memo, h)
  | None =>
      match nth_error h l with
      | Some (OEntry fs) => Some (List.length h, (l, List.length h) :: memo, h ++ [OEntry fs])
      | _ => None
      end
  end.

Fixpoint copy_entries (es : list (string * loc)) (memo : list (loc * loc)) (h : Heap)
  : option (list (string * loc) * list (loc * loc) * Heap) :=
  match es with
  | [] => Some ([], memo, h)
  | (k, l) :: rest =>
      match copy_entry l memo h with
      | None => None
      | Some (l', memo1, h1) =>
          match copy_entries rest memo1 h1 with
          | None => None
          | Some (rest', memo2, h2) => Some ((k, l') :: rest', memo2, h2)
          end
      end
  end.

Fixpoint copy_mems (cats : list (string * list (string * loc))) (memo : list (loc * loc))
    (h : Heap) : option (list (string * list (string * loc)) * list (loc * loc) * Heap) :=
  match cats with
  | [] => Some ([], memo, h)
  | (c, es) :: rest =>
      match copy_entries es memo h with
      | None => None
      | Some (es', memo1, h1) =>
          match copy_mems rest memo1 h1 with
          | None => None
          | Some (rest', memo2, h2) => Some ((c, es') :: rest', memo2, h2)
          end
      end
  end.

Definition deepcopy (l : loc) (h : Heap) : option (loc * Heap) :=
  match nth_error h l with
  | Some (ODoc fs None) => Some (List.length h, h ++ [ODoc fs None])
  | Some (ODoc fs (Some cats)) =>
      match copy_mems cats [] h with
      | None => None
      | Some (cats', _, h1) => Some (List.length h1, h1 ++ [ODoc fs (Some cats')])
      end
  | _ => None
  end.

(** [for _, entries in memories.items(): for _, entry in entries.items(): f(entry)] *)
Fixpoint update_entries (f : list (string * jval) -> list (string * jval))
    (es : list (string * loc)) (h : Heap) : option Heap :=
  match es with
  | [] => Some h
  | (_, l) :: rest =>
      match nth_error h l with
      | Some (OEntry fs) => update_entries f rest (heap_set h l (OEntry (f fs)))
      | _ => None
      end
  end.

Fixpoint update_mems (f : list (string * jval) -> list (string * jval))
    (cats : list (string * list (string * loc))) (h : Heap) : option Heap :=
  match cats with
  | [] => Some h
  | (_, es) :: rest =>
      match update_entries f es h with
      | None => None
      | Some h1 => update_mems f rest h1
      end
  end.

Definition DEFAULT_IMPORTANCE_J : jval := JNum 5.

Definition v1_1_entry_defaults (fs : list (string * jval)) : list (string * jval) :=
  setdefault "status" (JStr "active")
    (setdefault "last_accessed" JNull
      (setdefault "access_count" (JNum 0)
        (setdefault "source" (JObj [("type", JStr "session"); ("detail", JNull)])
          (setdefault "importance" DEFAULT_IMPORTANCE_J fs)))).

Definition v1_2_entry_defaults (fs : list (string * jval)) : list (string * jval) :=
  setdefault "links" (JList []) fs.

Definition migrate_v1_0_to_v1_1 (l : loc) (h : Heap) : option (loc * Heap) :=
  match deepcopy l h with
  | None => None
  | Some (r, h1) =>
      match nth_error h1 r with
      | Some (ODoc fs mems) =>
          match update_mems v1_1_entry_defaults (match mems with Some c => c | None => [] end) h1 with
          | None => None
          | Some h2 =>
              let fs' := Dict.set "schema_version" (JStr "1.1")
                           (setdefault "session_count" (JNum 0) fs) in
              Some (r, heap_set h2 r (ODoc fs' mems))
          end
      | _ => None
      end
  end.

Definition migrate_v1_1_to_v1_2 (l : loc) (h : Heap) : option (loc * Heap) :=
  match deepcopy l h with
  | None => None
  | Some (r, h1) =>
      match nth_error h1 r with
      | Some (ODoc fs mems) =>
          match update_mems v1_2_entry_defaults (match mems with Some c => c | None => [] end) h1 with
          | None => None
          | Some h2 => Some (r, heap_set h2 r (ODoc (Dict.set "schema_version" (JStr "1.2") fs) mems))
          end
      | _ => None
      end
  end.

(** A document as JSON text denotes it: plain nested values. *)
Record PDoc := mkPDoc {
  pd_fields : list (string * jval);
  pd_memories : option (list (string * list (string * list (string * jval))))
}.

Fixpoint load_entries (es : list (string * list (string * jval))) (h : Heap)
  : list (string * loc) * Heap :=
  match es with
  | [] => ([], h)
  | (k, fs) :: rest =>
      let l := List.length h in
      let '(rest', h') := load_entries rest (h ++ [OEntry fs]) in
      ((k, l) :: rest', h')
  end.

Fixpoint load_mems (cats : list (string * list (string * list (string * jval)))) (h : Heap)
  : list (string * list (string * loc)) * Heap :=
  match cats with
  | [] => ([], h)
  | (c, es) :: rest =>
      let '(es', h1) := load_entries es h in
      let '(rest', h2) := load_mems rest h1 in
      ((c, es') :: rest', h2)
  end.

(** [json.loads]: fresh objects in an empty heap. *)
Definition load (pd : PDoc) : loc * Heap :=
  match pd_memories pd with
  | None => (0%nat, [ODoc (pd_fields pd) None])
  | Some cats =>
      let '(cats', h) := load_mems cats [] in
      (List.length h, h ++ [ODoc (pd_fields pd) (Some cats')])
  end.

Fixpoint deref_entries (h : Heap) (es : list (string * loc))
  : option (list (string * list (string * jval))) :=
  match es with
  | [] => Some []
  | (k, l) :: rest =>
      match nth_error h l, deref_entries h rest with
      | Some (OEntry fs), Some rest' => Some ((k, fs) :: rest')
      | _, _ => None
      end
  end.

Fixpoint deref_mems (h : Heap) (cats : list (string * list (string * loc)))
  : option (list (string * list (string * list (string * jval)))) :=
  match cats with
  | [] => Some []
  | (c, es) :: rest =>
      match deref_entries h es, deref_mems h rest with
      | Some es', Some rest' => Some ((c, es') :: rest')
      | _, _ => None
      end
  end.

(** [json.dumps]: the value reachable from a document object. *)
Definition deref (h : Heap) (l : loc) : option PDoc :=
  match nth_error h l with
  | Some (ODoc fs None) => Some (mkPDoc fs None)
  | Some (ODoc fs (Some cats)) =>
      match deref_mems h cats with
      | Some cats' => Some (mkPDoc fs (Some cats'))
      | None => None
      end
  | _ => None
  end.

Definition is_version (v : option jval) (s : string) : bool :=
  match v with Some (JStr s') => String.eqb s' s | _ => false end.

Definition PRE_MIGRATION_SUFFIX : string := ".pre-migration-1.0.json".
Definition PRE_MIGRATION_V1_1_SUFFIX : string := ".pre-migration-1.1.json".

(** [MemoryStore._auto_migrate_if_needed] on the file content: the
    backups written and the document saved ([None] when nothing is
    saved); [None] overall when [_load] or a migration raises. *)
Definition _auto_migrate_if_needed (pd : PDoc)
  : option (list (string * PDoc) * option PDoc) :=
  if negb (Dict.has "schema_version" (pd_fields pd)) then None else
  match pd_memories pd with None => None | Some _ =>
  let '(l0, h0) := load pd in
  let version := Dict.get "schema_version" (pd_fields pd) in
  if is_version version SCHEMA_VERSION then Some ([], None) else
  let step1 :=
    if is_version version "1.0" then
      match deref h0 l0, migrate_v1_0_to_v1_1 l0 h0 with
      | Some b, Some (l1, h1) => Some ([(PRE_MIGRATION_SUFFIX, b)], l1, h1, Some (JStr "1.1"))
      | _, _ => None
      end
    else Some ([], l0, h0, version) in
  match step1 with
  | None => None
  | Some (bk1, l1, h1, version1) =>
      let step2 :=
        if is_version version1 "1.1" then
          match deref h1 l1, migrate_v1_1_to_v1_2 l1 h1 with
          | Some b, Some (l2, h2) => Some (bk1 ++ [(PRE_MIGRATION_V1_1_SUFFIX, b)], l2, h2)
          | _, _ => None
          end
        else Some (bk1, l1, h1) in
      match step2 with
      | None => None
      | Some (bk2, l2, h2) =>
          match deref h2 l2 with
          | Some saved => Some (bk2, Some saved)
          | None => None
          end
      end
  end end.

End Migration.

(* ------------------------------------------------------------------ *)
(** ** The dataclasses of [schema.py] and their dict conversions *)

Module Schema.
Import Migration.

(** Python does not check the annotated field types: a field holds
    whatever JSON value it was given. *)
Record SourceObj := mkSourceObj { so_type : jval; so_detail : jval }.

Record LinkObj := mkLinkObj { lo_target : jval; lo_relation : jval }.

Record EntryObj := mkEntryObj {
  eo_value : jval;
  eo_created_at : jval;
  eo_updated_at : jval;
  eo_tags : list jval;
  eo_confidence : jval;
  eo_importance : jval;
  eo_source : SourceObj;
  eo_access_count : jval;
  eo_last_accessed : jval;
  eo_status : jval;
  eo_links : list LinkObj
}.

Definition source_to_dict (s : SourceObj) : jval :=
  JObj [("type", so_type s); ("detail", so_detail s)].

Definition link_to_dict (l : LinkObj) : jval :=
  JObj [("target", lo_target l); ("relation", lo_relation l)].

Definition to_dict (e : EntryObj) : list (string * jval) :=
  [("value", eo_value e);
   ("created_at", eo_created_at e);
   ("updated_at", eo_updated_at e);
   ("tags", JList (eo_tags e));
   ("confidence", eo_confidence e);
   ("importance", eo_importance e);
   ("source", source_to_dict (eo_source e));
   ("access_count", eo_access_count e);
   ("last_accessed", eo_last_accessed e);
   ("status", eo_status e);
   ("links", JList (map link_to_dict (eo_links e)))].

(** [list(v)] and [for x in v]: the items of a list, the characters of a
    string, the keys of a dict; [None] when Python raises [TypeError]. *)
Definition py_iter (v : jval) : option (list jval) :=
  match v with
  | JList l => Some l
  | JStr s => Some (map (fun c => JStr (String c EmptyString)) (list_ascii_of_string s))
  | JObj fs => Some (map (fun '(k, _) => JStr k) fs)
  | _ => None
  end.

(** [Source.from_dict]: [data.get] needs a dict. *)
Definition source_from_dict (data : jval) : option SourceObj :=
  match data with
  | JObj fs => Some (mkSourceObj (Dict.get_default "type" fs (JStr "session"))
                                 (Dict.get_default "detail" fs JNull))
  | _ => None
  end.

(** [Link.from_dict]: [data["target"]] raises on a missing key and on a
    value that is not a dict. *)
Definition link_from_dict (data : jval) : option LinkObj :=
  match data with
  | JObj fs =>
      match Dict.get "target" fs, Dict.get "relation" fs with
      | Some t, Some r => Some (mkLinkObj t r)
      | _, _ => None
      end
  | _ => None
  end.

Fixpoint links_from_dicts (lds : list jval) : option (list LinkObj) :=
  match lds with
  | [] => Some []
  | ld :: rest =>
      match link_from_dict ld, links_from_dicts rest with
      | Some l, Some ls => Some (l :: ls)
      | _, _ => None
      end
  end.

(** [MemoryEntry.from_dict]; [None] when it raises. A missing
    ["confidence"] or ["last_accessed"] reads as [None], i.e. [null]. *)
Definition from_dict (data : list (string * jval)) : option EntryObj :=
  let source_data := Dict.get_default "source" data
                       (JObj [("type", JStr "session"); ("detail", JNull)]) in
  let links_data := Dict.get_default "links" data (JList []) in
  match Dict.get "value" data, Dict.get "created_at" data, Dict.get "updated_at" data with
  | Some v, Some c, Some u =>
      match py_iter (Dict.get_default "tags" data (JList [])),
            source_from_dict source_data,
            option_map links_from_dicts (py_iter links_data) with
      | Some tags0, Some src, Some (Some links0) =>
          Some (mkEntryObj v c u tags0
                  (Dict.get_default "confidence" data JNull)
                  (Dict.get_default "importance" data DEFAULT_IMPORTANCE_J)
                  src
                  (Dict.get_default "access_count" data (JNum 0))
                  (Dict.get_default "last_accessed" data JNull)
                  (Dict.get_default "status" data (JStr "active"))
                  links0)
      | _, _, _ => None
      end
  | _, _, _ => None
  end.

End Schema.

(* ------------------------------------------------------------------ *)
(** ** Views used to state the properties *)

(** The links [_remove_incoming_links] keeps. *)
Definition link_filter (target_ref : string) (ls : list Link) : list Link :=
  filter (fun lk => negb (String.eqb (target lk) target_ref)) ls.

(** [resolved_tags] in [remember]. *)
Definition resolved_tags (tags0 : list string) : list string :=
  match tags0 with [] => [] | _ => PyStr.sorted tags0 end.

(** [query_terms] in [search]. *)
Definition query_terms_of (query : string) : list string :=
  filter (fun t => negb (String.eqb t "")) (PyStr.split (PyStr.lower query)).

(** The entries [search] scans, in scan order. *)
Definition search_scope (category : option string) (mems : Memories)
  : list (string * string * MemoryEntry) :=
  match category with
  | None => entries_of mems
  | Some c => map (fun '(k, e) => (c, k, e)) (Dict.get_default c mems [])
  end.

(** Each signal of [r] is the one of [s] rounded to 4 decimals. *)
Definition signals_rounded (s r : Signals) : Prop :=
  rounded_to 4 (text_match s) (text_match r) /\ rounded_to 4 (tag_match s) (tag_match r) /\
  rounded_to 4 (importance_signal s) (importance_signal r) /\ rounded_to 4 (recency s) (recency r).

(** What one scanned entry contributes to the unsorted results. *)
Definition search_item (exp : Q -> Q) (now_str now_dt : timestamp) (query_lower : string)
    (query_terms : list string) (x : string * string * MemoryEntry) : list SearchResult :=
  let '(c, k, e) := x in
  match _find_match_reasons k e query_lower with
  | [] => []
  | reasons =>
      let signals := signals_of exp now_dt query_lower query_terms k e in
      [mkSearchResult c k (touch now_str e) (py_round (_compute_search_score signals) 4)
                      (round_signals signals) reasons]
  end.

(** The objects of a heap below [length h] are the same in [h'] (the
    migration leaves every pre-existing object, its input among them,
    as it was). *)
Definition untouched (h h' : Migration.Heap) : Prop :=
  forall x, (x < List.length h)%nat -> nth_error h' x = nth_error h x.

(** Locations of the entry objects of a ["memories"] dict, and of the
    entries a document object refers to. *)
Definition mems_locs (cats : list (string * list (string * Migration.loc))) : list Migration.loc :=
  flat_map (fun '(_, es) => map snd es) cats.

Definition doc_entry_locs (h : Migration.Heap) (r : Migration.loc) : list Migration.loc :=
  match nth_error h r with
  | Some (Migration.ODoc _ (Some cats)) => mems_locs cats
  | _ => []
  end.

(** The deepcopy memo maps each copied location [a] of [h0] to a fresh
    location of [h] holding the same object. *)
Definition memo_inv (h0 : Migration.Heap) (memo : list (Migration.loc * Migration.loc))
    (h : Migration.Heap) : Prop :=
  forall a b, Migration.memo_get a memo = Some b ->
    (List.length h0 <= b < List.length h)%nat /\ nth_error h b = nth_error h0 a.

(** An object after [f] has been applied to it when it is an entry. *)
Definition map_obj (f : list (string * Migration.jval) -> list (string * Migration.jval))
    (o : option Migration.Obj) : option Migration.Obj :=
  match o with
  | Some (Migration.OEntry fs) => Some (Migration.OEntry (f fs))
  | _ => o
  end.

(** The common shape of both migrations: deepcopy, [f] on every entry,
    [g] on the top-level fields. *)
Definition migrate_with (f g : list (string * Migration.jval) -> list (string * Migration.jval))
    (l : Migration.loc) (h : Migration.Heap) : option (Migration.loc * Migration.Heap) :=
  match Migration.deepcopy l h with
  | None => None
  | Some (r, h1) =>
      match nth_error h1 r with
      | Some (Migration.ODoc fs mems) =>
          match Migration.update_mems f (match mems with Some c => c | None => [] end) h1 with
          | None => None
          | Some h2 => Some (r, Migration.heap_set h2 r (Migration.ODoc (g fs) mems))
          end
      | _ => None
      end
  end.

(** The result document and all its entries are objects created by the
    call: nothing of the input is shared with the result. *)
Definition fresh_doc (h h' : Migration.Heap) (r : Migration.loc) : Prop :=
  (List.length h <= r)%nat /\
  (forall x, In x (doc_entry_locs h' r) -> (List.length h <= x)%nat).

(** Applying [f] to every entry of a document value. *)
Definition map_entries (f : list (string * Migration.jval) -> list (string * Migration.jval))
    (m : option (list (string * list (string * list (string * Migration.jval)))))
  : option (list (string * list (string * list (string * Migration.jval)))) :=
  option_map (map (fun '(c, es) => (c, map (fun '(k, fs) => (k, f fs)) es))) m.

(** What [migrate_v1_0_to_v1_1] and [migrate_v1_1_to_v1_2] return, as JSON values. *)
Definition v1_1_value (pd : Migration.PDoc) : Migration.PDoc :=
  Migration.mkPDoc
    (Dict.set "schema_version" (Migration.JStr "1.1")
       (Migration.setdefault "session_count" (Migration.JNum 0) (Migration.pd_fields pd)))
    (map_entries Migration.v1_1_entry_defaults (Migration.pd_memories pd)).

Definition v1_2_value (pd : Migration.PDoc) : Migration.PDoc :=
  Migration.mkPDoc
    (Dict.set "schema_version" (Migration.JStr "1.2") (Migration.pd_fields pd))
    (map_entries Migration.v1_2_entry_defaults (Migration.pd_memories pd)).

(** The [(category, key)] pairs of a document, in order. *)
Definition doc_keys (pd : Migration.PDoc) : list (string * string) :=
  match Migration.pd_memories pd with
  | None => []
  | Some cats => flat_map (fun '(c, es) => map (fun '(k, _) => (c, k)) es) cats
  end.

(* ================================================================== *)
(** * Concrete documents used by the examples *)

(** Results ordered by descending score; results with score [s]. *)
Definition score_ge (a b : SearchResult) : Prop := (score b <= score a)%Q.

Definition same_score (s : Q) (r : SearchResult) : bool := Qeq_bool (score r) s.

Module Samples.

Definition mkE (v : string) (tg : list string) (ls : list Link) : MemoryEntry :=
  mkEntry v (Some 0) (Some 0) tg None 5 (mkSource "session" None) 0 None "active" ls.

Definition worldOf (m : Memories) : World := mkWorld (mkDoc "1.2" 0 m) [].

Definition empty_world : World := worldOf (map (fun c => (c, [])) VALID_CATEGORIES).

(** [user.b] links to [user.a] and to [user.c]; [project.p] to [user.a]. *)
Definition entry_a : MemoryEntry := mkE "Alice" ["identity"] [].

Definition links_world : World :=
  worldOf [("user", [("a", entry_a);
                     ("b", mkE "Bob" [] [mkLink "user.a" "related-to";
                                          mkLink "user.c" "elaborates"]);
                     ("c", mkE "Carol" [] [])]);
           ("project", [("p", mkE "Plan" [] [mkLink "user.a" "depends-on"])])].

Definition links_world_after_forget : World := snd (forget "user" "a" links_world).

(** Dedup: [value42] has the 42 significant words [w01..w42]; the stored
    [user.a] has [w01..w25] and shares the tags [p], [q]. *)
Definition value42 : string :=
  "w01 w02 w03 w04 w05 w06 w07 w08 w09 w10 w11 w12 w13 w14 w15 w16 w17 w18 w19 w20 w21 w22 w23 w24 w25 w26 w27 w28 w29 w30 w31 w32 w33 w34 w35 w36 w37 w38 w39 w40 w41 w42".

Definition value25 : string :=
  "w01 w02 w03 w04 w05 w06 w07 w08 w09 w10 w11 w12 w13 w14 w15 w16 w17 w18 w19 w20 w21 w22 w23 w24 w25".

Definition dedup_world : World :=
  worldOf [("user", [("a", mkE value25 ["p"; "q"] [])])].

Definition old_a : MemoryEntry :=
  mkEntry "Alice" (Some 0) (Some 0) ["identity"] (Some (9 # 10)%Q) 5
    (mkSource "user-stated" None) 3 (Some 50) "active" [mkLink "user.b" "related-to"].

Definition update_world : World :=
  worldOf [("user", [("a", old_a); ("b", mkE "Bob" [] [])])].

Definition update_call : (PyError + RememberResult) * World :=
  remember "user" "a" "Alice Smith" ["profile"; "name"] 5 "session" None false false 7 update_world.

(** Search: one entry whose value contains ["x y z"]; one of the three
    query terms occurs in its tag. *)
Definition search_entry : MemoryEntry := mkE "x y z" ["xq"] [].

Definition search_world : World := worldOf [("user", [("k", search_entry)])].

(** Ranked search at day 10: three values contain ["tea"]; [b] was last
    accessed on day 7, [a] and [c] never; [d] does not match. *)
Definition ranked_now : timestamp := 10 * MICROSECONDS_PER_DAY.

Definition ranked_world : World :=
  worldOf [("user", [("a", mkE "green tea" [] []);
                     ("b", mkEntry "tea time" (Some 0) (Some 0) [] None 5 (mkSource "session" None)
                             2 (Some (7 * MICROSECONDS_PER_DAY)) "active" []);
                     ("c", mkE "black tea" [] []);
                     ("d", mkE "coffee" [] [])])].

(** A stand-in for [math.exp] near 0. *)
Definition exp_linear (x : Q) : Q := (1 + x)%Q.

(** Migration: a v1.0 document with two categories, one entry already
    carrying an [importance]. *)
Definition v1_0_doc : Migration.PDoc :=
  Migration.mkPDoc [("schema_version", Migration.JStr "1.0")]
    (Some [("user", [("name", [("value", Migration.JStr "Alice")]);
                     ("role", [("value", Migration.JStr "dev"); ("importance", Migration.JNum 8)])]);
           ("tools", [])]).

End Samples.

(* ------------------------------------------------------------------ *)
(** ** Auxiliary definitions for the further properties *)

(** [x if x is not None] collected into a list. *)
Definition opt_list {A} (o : option A) : list A := match o with Some a => [a] | None => [] end.

(** The entries [analyze] visits, in visiting order. *)
Definition analyzed_entries (mems : Memories) : list (string * string * MemoryEntry) :=
  flat_map (fun c => map (fun '(k, e) => (c, k, e)) (Dict.get_default c mems [])) VALID_CATEGORIES.

(** One step of [analyze]'s loop, on a visited [(category, key, entry)]. *)
Definition analyze_step (now : timestamp) (acc : Lifecycle.AnalyzeAcc) (x : string * string * MemoryEntry) : Lifecycle.AnalyzeAcc :=
  let '(c, k, e) := x in Lifecycle.analyze_entry now c k e acc.

(** A string without a ["."] character. *)
Definition no_dot (s : string) : Prop := ~ In "."%char (list_ascii_of_string s).

(** What [connections] reports for one outgoing link: the target, the
    relation, and the value of the entry named by the target split at its
    first dot (or [""] when that entry does not exist). *)
Definition outgoing_of (m : Memories) (lk : Link) (o : Outgoing) : Prop :=
  exists a b, target lk = (a ++ "." ++ b)%string /\ no_dot a /\
    o = mkOutgoing (target lk) (relation lk)
          match Dict.get b (Dict.get_default a m []) with Some e => value e | None => "" end.

(** A document with a confident user-stated entry, and a v1.1 document. *)
Module MoreSamples.
Import Migration.

Definition conf_entry : MemoryEntry :=
  mkEntry "Prefers tea" (Some 0) (Some 0) ["drink"] (Some (1 # 2)%Q) 5
    (mkSource "user-stated" None) 0 None "active" [].

Definition conf_doc : Document := mkDoc "1.2" 0 [("user", [("tea", conf_entry)])].

Definition eight_days : timestamp := 8 * MICROSECONDS_PER_DAY.

Definition v1_1_doc : PDoc :=
  mkPDoc [("schema_version", JStr "1.1")]
    (Some [("user", [("name", [("value", JStr "Alice")])])]).

End MoreSamples.

(* ================================================================== *)
(** * Theorems *)

(** ** Dict lemmas *)

Module DictFacts.

Lemma get_In {V} (k : string) (d : Dict.t V) v : Dict.get k d = Some v -> In (k, v) d.
Proof.
  induction d as [|[k' v'] r IH]; simpl; [discriminate|].
  destruct (String.eqb_spec k k') as [->|_]; intros H.
  - inversion H; subst; left; reflexivity.
  - right; auto.
Qed.

Lemma get_set_eq {V} (k : string) (v : V) d : Dict.get k (Dict.set k v d) = Some v.
Proof.
  induction d as [|[k' v'] r IH]; simpl.
  - rewrite String.eqb_refl; reflexivity.
  - destruct (String.eqb_spec k k') as [->|Hne]; simpl.
    + rewrite String.eqb_refl; reflexivity.
    + apply String.eqb_neq in Hne; rewrite Hne; exact IH.
Qed.

Lemma In_set {V} (k : string) (v : V) d k' v' :
  In (k', v') (Dict.set k v d) -> (k' = k /\ v' = v) \/ In (k', v') d.
Proof.
  induction d as [|[k0 v0] r IH]; simpl.
  - intros [H|[]]; inversion H; subst; left; split; reflexivity.
  - destruct (String.eqb_spec k k0) as [->|_]; simpl.
    + intros [H|H]; [inversion H; subst; left; split; reflexivity | right; right; exact H].
    + intros [H|H]; [right; left; exact H|].
      destruct (IH H) as [H'|H']; [left; exact H' | right; right; exact H'].
Qed.

Lemma pop_In {V} (k : string) (d : Dict.t V) v d' :
  Dict.pop k d = Some (v, d') -> forall x, In x d' -> In x d.
Proof.
  revert d'. induction d as [|[k0 v0] r IH]; simpl; intros d' H; [discriminate|].
  destruct (String.eqb k k0).
  - inversion H; subst; intros x Hx; right; exact Hx.
  - destruct (Dict.pop k r) as [[x r']|] eqn:E; [|discriminate].
    inversion H; subst. intros y [Hy|Hy]; [left; exact Hy | right; exact (IH _ eq_refl y Hy)].
Qed.

Lemma pop_nonempty {V} (k : string) (d : Dict.t V) v d' :
  Dict.pop k d = Some (v, d') -> d <> [].
Proof. destruct d; simpl; [discriminate | intros _ H; discriminate]. Qed.

Lemma get_default_In {A} (c : string) (m : Dict.t (list A)) x :
  In x (Dict.get_default c m []) -> exists es, Dict.get c m = Some es /\ In x es.
Proof.
  unfold Dict.get_default. destruct (Dict.get c m) as [es|]; [|intros []].
  intros H; exists es; split; [reflexivity | exact H].
Qed.

End DictFacts.

(** ** Entries and link scrubbing *)

Lemma entries_of_In (m : Memories) c k e :
  In (c, k, e) (entries_of m) <-> exists es, In (c, es) m /\ In (k, e) es.
Proof.
  unfold entries_of. rewrite in_flat_map. split.
  - intros [[c' es] [H1 H2]]. apply in_map_iff in H2.
    destruct H2 as [[k' e'] [Heq Hin]]. inversion Heq; subst. exists es; split; assumption.
  - intros [es [H1 H2]]. exists (c, es); split; [exact H1|].
    apply in_map_iff. exists (k, e); split; [reflexivity | exact H2].
Qed.

Lemma set_links_same (e : MemoryEntry) : set_links e (links e) = e.
Proof. destruct e; reflexivity. Qed.

Lemma remove_incoming_links_In (m : Memories) ref c k e' :
  In (c, k, e') (entries_of (_remove_incoming_links m ref)) ->
  exists e, In (c, k, e) (entries_of m) /\ e' = set_links e (link_filter ref (links e)).
Proof.
  rewrite entries_of_In. intros [es' [Hc Hk]].
  unfold _remove_incoming_links in Hc. apply in_map_iff in Hc.
  destruct Hc as [[c0 es] [Heq Hin]]. inversion Heq; subst; clear Heq.
  apply in_map_iff in Hk. destruct Hk as [[k0 e] [Heq Hin2]]. inversion Heq; subst; clear Heq.
  exists e. split.
  - apply entries_of_In. exists es; split; assumption.
  - unfold link_filter. destruct (links e) eqn:El.
    + simpl. rewrite <- El. symmetry; apply set_links_same.
    + reflexivity.
Qed.

Lemma link_filter_no_target ref ls lk : In lk (link_filter ref ls) -> target lk <> ref.
Proof.
  unfold link_filter. rewrite filter_In. intros [_ H].
  apply negb_true_iff, String.eqb_neq in H. exact H.
Qed.

(** The successful branch of [forget], unfolded. *)
Lemma forget_success c k w r w' :
  forget c k w = (inr r, w') ->
  exists cat_entries cat_entries',
    Dict.get c (memories (disk w)) = Some cat_entries /\
    Dict.pop k cat_entries = Some (removed r, cat_entries') /\
    disk w' = set_memories (disk w)
                (_remove_incoming_links (Dict.set c cat_entries' (memories (disk w)))
                   (c ++ "." ++ k)) /\
    files w' = Dict.set BACKUP_SUFFIX (disk w') (files w).
Proof.
  unfold forget, _read_modify_write.
  destruct (negb (_validate_category c)); [discriminate|].
  unfold Dict.get_default.
  destruct (Dict.get c (memories (disk w))) as [es|] eqn:Ec; [|simpl; discriminate].
  destruct (Dict.pop k es) as [[v es']|] eqn:Ep; [|discriminate].
  intros H; inversion H; subst; clear H.
  exists es, es'. repeat split; auto.
Qed.

(** ** forget *)

(** [forget] writes the document it saves, after the removal and the
    link scrubbing, to the [.backup.json] file. *)
Lemma forget_backup_is_saved_document c k w r w' :
  forget c k w = (inr r, w') -> Dict.get BACKUP_SUFFIX (files w') = Some (disk w').
Proof.
  intros H. destruct (forget_success _ _ _ _ _ H) as (es & es' & _ & _ & _ & Hf).
  rewrite Hf. apply DictFacts.get_set_eq.
Qed.

(** C1 (code_bug): the [.backup.json] file that [forget "user" "a"]
    writes is the post-deletion document; it no longer contains the
    removed entry [user.a], which the document before the call had. *)
Theorem forget_backup_lacks_removed_entry :
  lookup_entry (disk Samples.links_world) "user" "a" = Some Samples.entry_a /\
  match forget "user" "a" Samples.links_world with
  | (inr r, w') =>
      removed r = Samples.entry_a /\
      Dict.get BACKUP_SUFFIX (files w') = Some (disk w') /\
      match Dict.get BACKUP_SUFFIX (files w') with
      | Some b => lookup_entry b "user" "a" = None
      | None => False
      end
  | (inl _, _) => False
  end.
Proof. vm_compute. repeat split; reflexivity. Qed.

(** C8: after a successful [forget c k], no link of any surviving entry
    targets ["c.k"], and every surviving entry is an entry of the
    document before the call whose links are exactly its old links
    without those targeting ["c.k"] (all other links kept, in order). *)
Theorem forget_scrubs_incoming_links c k w r w' :
  forget c k w = (inr r, w') ->
  forall c' k' e', In (c', k', e') (entries_of (memories (disk w'))) ->
    (forall lk, In lk (links e') -> target lk <> (c ++ "." ++ k)%string) /\
    exists e, In (c', k', e) (entries_of (memories (disk w))) /\
              e' = set_links e (link_filter (c ++ "." ++ k) (links e)).
Proof.
  intros H c' k' e' Hin.
  destruct (forget_success _ _ _ _ _ H) as (es & es' & Hget & Hpop & Hdisk & _).
  rewrite Hdisk in Hin. simpl in Hin.
  destruct (remove_incoming_links_In _ _ _ _ _ Hin) as [e [He ->]].
  split.
  - intros lk Hlk. exact (link_filter_no_target _ _ _ Hlk).
  - exists e; split; [|reflexivity].
    apply entries_of_In in He. destruct He as [es0 [Hc Hk]].
    apply entries_of_In.
    destruct (DictFacts.In_set _ _ _ _ _ Hc) as [[-> ->]|Hc'].
    + exists es; split; [exact (DictFacts.get_In _ _ _ Hget) | exact (DictFacts.pop_In _ _ _ _ Hpop _ Hk)].
    + exists es0; split; assumption.
Qed.

Lemma forget_scrubs_incoming_links_witness :
  forget "user" "a" Samples.links_world
    = (inr (mkForgetResult Samples.entry_a BACKUP_SUFFIX), Samples.links_world_after_forget) /\
  forall c' k' e', In (c', k', e') (entries_of (memories (disk Samples.links_world_after_forget))) ->
    (forall lk, In lk (links e') -> target lk <> "user.a") /\
    exists e, In (c', k', e) (entries_of (memories (disk Samples.links_world))) /\
              e' = set_links e (link_filter "user.a" (links e)).
Proof.
  split; [vm_compute; reflexivity|].
  apply (forget_scrubs_incoming_links "user" "a" Samples.links_world
           (mkForgetResult Samples.entry_a BACKUP_SUFFIX)).
  vm_compute; reflexivity.
Defined.

(** ** Failed operations *)

Lemma outcome_rmw {A} (m : Mutator A) w e w' :
  outcome (_read_modify_write m w) = (Some e, w') -> disk w' = disk w.
Proof.
  unfold _read_modify_write.
  destruct (m (disk w) (files w)) as [[[e0|r0] d'] fs']; simpl; intros H; inversion H; reflexivity.
Qed.

Ltac close_failed H :=
  repeat match type of H with
  | outcome (if ?b then _ else _) = _ => destruct b
  | outcome (match ?x with _ => _ end) = _ => destruct x
  | outcome (inl _, _) = _ => simpl in H; inversion H; subst; reflexivity
  | outcome (inr _, _) = _ => simpl in H; discriminate H
  | outcome (_read_modify_write _ _) = _ => exact (outcome_rmw _ _ _ _ H)
  | outcome (_do_remember _ _ _ _ _ _ _ _ _) = _ => exact (outcome_rmw _ _ _ _ H)
  end.

(** C7: every call that raises (a validation or a not-found error) leaves
    the persisted main document as it was before the call. *)
Theorem failed_op_leaves_disk_unchanged exp now now_dt op w err w' :
  exec exp now now_dt op w = (Some err, w') -> disk w' = disk w.
Proof.
  destruct op; cbn [exec]; intros H.
  - exact (outcome_rmw _ _ _ _ H).
  - unfold remember in H. cbv zeta in H. close_failed H.
  - unfold forget in H. cbv zeta in H. close_failed H.
  - unfold recall in H. close_failed H.
  - unfold search in H. close_failed H.
  - unfold add_link in H. cbv zeta in H. close_failed H.
  - unfold remove_link in H. cbv zeta in H. close_failed H.
Qed.

Lemma failed_op_leaves_disk_unchanged_witness :
  exec (fun _ => 1%Q) 0 0 (OpRemoveLink "user" "b" "user" "a") Samples.links_world_after_forget
    = (Some KeyError, Samples.links_world_after_forget) /\
  disk Samples.links_world_after_forget = disk Samples.links_world_after_forget.
Proof.
  split; [vm_compute; reflexivity|].
  apply (failed_op_leaves_disk_unchanged (fun _ => 1%Q) 0 0 (OpRemoveLink "user" "b" "user" "a")
           Samples.links_world_after_forget KeyError).
  vm_compute; reflexivity.
Defined.

(** ** remember *)

Lemma In_insert_sorted (x y : string) l : In y (PyStr.insert_sorted x l) <-> y = x \/ In y l.
Proof.
  induction l as [|z zs IH]; simpl.
  - split; [intros [H|[]]; left; auto | intros [H|[]]; left; auto].
  - destruct (PyStr.str_le x z); simpl.
    + split; intros H; [destruct H as [H|H]; [left; auto | right; exact H] |].
      destruct H as [H|H]; [left; auto | right; exact H].
    + rewrite IH. split; intros H.
      * destruct H as [H|[H|H]]; [right; left; exact H | left; auto | right; right; exact H].
      * destruct H as [H|[H|H]]; [right; left; auto | left; exact H | right; right; exact H].
Qed.

Lemma In_sorted (y : string) l : In y (PyStr.sorted l) <-> In y l.
Proof.
  induction l as [|x xs IH]; simpl; [reflexivity|].
  rewrite In_insert_sorted, IH. split; intros [H|H]; auto.
Qed.

Lemma In_to_set (y : string) l : In y (PyStr.to_set l) <-> In y l.
Proof. unfold PyStr.to_set. apply nodup_In. Qed.

Lemma In_resolved_tags y tags0 : In y (resolved_tags tags0) <-> In y tags0.
Proof. destruct tags0 as [|x xs]; [reflexivity|]. exact (In_sorted y (x :: xs)). Qed.

(** [remember] on a key that exists: the UPDATE branch, whatever [force]. *)
Lemma remember_existing c k v tg imp st conf force broad now w e0 :
  _validate_category c = true ->
  lookup_entry (disk w) c k = Some e0 ->
  let e := update_existing e0 v now (resolved_tags tg) (_clamp_importance imp) conf in
  exists w', remember c k v tg imp st conf force broad now w = (inr (Written "UPDATE" e), w') /\
             lookup_entry (disk w') c k = Some e.
Proof.
  intros Hv Hl e.
  unfold lookup_entry, Dict.get_default in Hl.
  destruct (Dict.get c (memories (disk w))) as [cat|] eqn:Ec; [|discriminate Hl].
  assert (Hcand : (if force then [] else
                     _find_candidates (disk w) c k v (resolved_tags tg) broad) = []).
  { destruct force; [reflexivity|].
    unfold _find_candidates, Dict.get_default. rewrite Ec.
    unfold Dict.has. rewrite Hl. reflexivity. }
  unfold remember. rewrite Hv. cbv zeta. fold (resolved_tags tg). rewrite Hcand.
  unfold _do_remember, _read_modify_write. cbv zeta.
  unfold Dict.has. rewrite Ec. unfold Dict.get_default. rewrite Ec. rewrite Hl.
  eexists; split; [reflexivity|].
  unfold lookup_entry, Dict.get_default. simpl.
  rewrite DictFacts.get_set_eq, DictFacts.get_set_eq. reflexivity.
Qed.

(** C4: when [key] already exists in [category], [remember] with any
    [force], [broad], value and tags returns [UPDATE] (never dedup
    candidates); the stored entry has the new value, [updated_at = now],
    the union of the old and new tags, the clamped importance and the new
    confidence when one is given. *)
Theorem remember_existing_key_updates c k v tg imp st conf force broad now w e0 r w' :
  _validate_category c = true ->
  lookup_entry (disk w) c k = Some e0 ->
  remember c k v tg imp st conf force broad now w = (r, w') ->
  exists e, r = inr (Written "UPDATE" e) /\ lookup_entry (disk w') c k = Some e /\
    value e = v /\ updated_at e = Some now /\
    (forall t, In t (tags e) <-> In t (tags e0) \/ In t tg) /\
    importance e = _clamp_importance imp /\
    (forall x, conf = Some x -> confidence e = Some x).
Proof.
  intros Hv Hl Hr.
  destruct (remember_existing c k v tg imp st conf force broad now w e0 Hv Hl) as [w1 [Hrem Hlk]].
  rewrite Hrem in Hr. inversion Hr; subst r w1; clear Hr.
  eexists; split; [reflexivity|]. split; [exact Hlk|].
  unfold update_existing; cbn [value updated_at tags importance confidence].
  split; [reflexivity|]. split; [reflexivity|]. split; [|split; [reflexivity|]].
  - intros t0. destruct (resolved_tags tg) eqn:Et.
    + split; [intros H; left; exact H|].
      intros [H|H]; [exact H|].
      apply In_resolved_tags in H. rewrite Et in H. destruct H.
    + rewrite In_sorted, In_to_set, in_app_iff, <- Et, In_resolved_tags. reflexivity.
  - intros x ->. reflexivity.
Qed.

Lemma remember_existing_key_updates_witness :
  exists e, fst Samples.update_call = inr (Written "UPDATE" e) /\
    lookup_entry (disk (snd Samples.update_call)) "user" "a" = Some e /\
    value e = "Alice Smith" /\ updated_at e = Some 7 /\
    (forall t, In t (tags e) <-> In t (tags Samples.old_a) \/ In t ["profile"; "name"]) /\
    importance e = _clamp_importance 5 /\
    (forall x, None = Some x -> confidence e = Some x).
Proof.
  apply (remember_existing_key_updates "user" "a" "Alice Smith" ["profile"; "name"] 5 "session"
           None false false 7 Samples.update_world Samples.old_a).
  - reflexivity.
  - vm_compute; reflexivity.
  - apply surjective_pairing.
Defined.

(** C10: the UPDATE branch of [remember] leaves [created_at],
    [access_count], [last_accessed], [status] and [links] of the stored
    entry as they were, and a [None] confidence argument leaves the stored
    confidence as it was. *)
Theorem remember_update_frame c k v tg imp st conf force broad now w e0 r w' :
  _validate_category c = true ->
  lookup_entry (disk w) c k = Some e0 ->
  remember c k v tg imp st conf force broad now w = (r, w') ->
  exists e, r = inr (Written "UPDATE" e) /\ lookup_entry (disk w') c k = Some e /\
    created_at e = created_at e0 /\ access_count e = access_count e0 /\
    last_accessed e = last_accessed e0 /\ status e = status e0 /\ links e = links e0 /\
    (conf = None -> confidence e = confidence e0).
Proof.
  intros Hv Hl Hr.
  destruct (remember_existing c k v tg imp st conf force broad now w e0 Hv Hl) as [w1 [Hrem Hlk]].
  rewrite Hrem in Hr. inversion Hr; subst r w1; clear Hr.
  eexists; split; [reflexivity|]. split; [exact Hlk|].
  unfold update_existing; cbn [created_at access_count last_accessed status links confidence].
  repeat (split; [reflexivity|]). intros ->. reflexivity.
Qed.

Lemma remember_update_frame_witness :
  exists e, fst Samples.update_call = inr (Written "UPDATE" e) /\
    lookup_entry (disk (snd Samples.update_call)) "user" "a" = Some e /\
    created_at e = created_at Samples.old_a /\ access_count e = access_count Samples.old_a /\
    last_accessed e = last_accessed Samples.old_a /\ status e = status Samples.old_a /\
    links e = links Samples.old_a /\
    (@None Q = None -> confidence e = confidence Samples.old_a).
Proof.
  apply (remember_update_frame "user" "a" "Alice Smith" ["profile"; "name"] 5 "session"
           None false false 7 Samples.update_world Samples.old_a).
  - reflexivity.
  - vm_compute; reflexivity.
  - apply surjective_pairing.
Defined.

(** C3 (code_bug): [remember "user" "name" "Alice" ~tags:["x"; "x"]] on
    an empty store takes the ADD branch and stores the tag list
    [["x"; "x"]]: [sorted(tags)] keeps the duplicate, whereas the UPDATE
    branch collapses duplicates through [set]. *)
Theorem remember_add_keeps_duplicate_tags :
  match remember "user" "name" "Alice" ["x"; "x"] 5 "session" None false false 100
          Samples.empty_world with
  | (inr (Written "ADD" e), w') =>
      tags e = ["x"; "x"] /\ lookup_entry (disk w') "user" "name" = Some e
  | _ => False
  end.
Proof. vm_compute. split; reflexivity. Qed.

(** C5 (code_bug): a candidate whose exact value-similarity ratio is
    25/42 (below 0.6), with tag overlap 2 (below 3) and a different word
    set, yields the recommendation UPDATE: [_recommend_action] compares
    the rounded [value_similarity] (0.6) with the 0.6 threshold, whereas
    [_find_dedup_candidates] compares the unrounded ratio. *)
Theorem recommend_uses_rounded_similarity :
  let new_words := _extract_significant_words Samples.value42 in
  let old_words := _extract_significant_words Samples.value25 in
  List.length new_words = 42%nat /\
  _value_similarity_ratio new_words old_words = (25 # 42)%Q /\
  Qlt_bool (25 # 42) HIGH_VALUE_SIMILARITY_RATIO = true /\
  PyStr.set_eqb new_words old_words = false /\
  match remember "user" "b" Samples.value42 ["p"; "q"] 5 "session" None false false 0
          Samples.dedup_world with
  | (inr (Candidates [cd] rec), _) =>
      cand_key cd = "a" /\ tag_overlap cd = 2%nat /\
      value_similarity cd = (60 # 100)%Q /\ rec = "UPDATE"
  | _ => False
  end.
Proof. vm_compute. repeat split; reflexivity. Qed.

(** ** Lifecycle: staleness *)

Lemma days_ge_threshold x :
  Qle_bool Lifecycle.STALENESS_DAYS_THRESHOLD (Lifecycle._days_since 0 x)
  = (7 * MICROSECONDS_PER_DAY <=? x)%Z.
Proof.
  unfold Lifecycle._days_since, Lifecycle.STALENESS_DAYS_THRESHOLD.
  rewrite Z.sub_0_r.
  unfold Qle_bool, Qdiv, Qmult, Qinv, inject_Z, MICROSECONDS_PER_DAY. simpl.
  rewrite !Z.mul_1_r. reflexivity.
Qed.

Lemma days_since_shift t now :
  Lifecycle._days_since t now = Lifecycle._days_since 0 (now - t).
Proof. unfold Lifecycle._days_since. rewrite Z.sub_0_r. reflexivity. Qed.

(** C9: an entry with [access_count > 0] is never flagged stale; an entry
    with [access_count == 0] and a parseable [created_at] is flagged
    exactly when [now - created_at] is at least 7 days (inclusive). *)
Theorem staleness_flag_iff c k e now :
  ((0 < access_count e)%Z -> Lifecycle._check_staleness c k e now = None) /\
  (forall t, access_count e = 0%Z -> created_at e = Some t ->
     (Lifecycle._check_staleness c k e now <> None <-> (7 * MICROSECONDS_PER_DAY <= now - t)%Z)).
Proof.
  unfold Lifecycle._check_staleness. split.
  - intros H. apply Z.ltb_lt in H. rewrite H. reflexivity.
  - intros t Ha Hc. rewrite Ha, Hc. simpl (0 <? 0)%Z. cbv iota.
    unfold Qlt_bool. rewrite days_since_shift, days_ge_threshold.
    destruct (7 * MICROSECONDS_PER_DAY <=? now - t)%Z eqn:E; simpl.
    + apply Z.leb_le in E. split; [intros _; exact E | intros _; discriminate].
    + apply Z.leb_gt in E. split; [intros H; exfalso; apply H; reflexivity | intros H; exfalso; unfold MICROSECONDS_PER_DAY in *; lia].
Qed.

(** The boundary: created exactly 7.0 days before [now] is flagged;
    created 6.99 days before is not. *)
Lemma staleness_flag_iff_witness :
  Lifecycle._check_staleness "user" "a" (Samples.mkE "v" [] []) (7 * MICROSECONDS_PER_DAY) <> None /\
  Lifecycle._check_staleness "user" "a" (Samples.mkE "v" [] []) (699 * MICROSECONDS_PER_DAY / 100) = None.
Proof.
  split.
  - apply (proj2 (staleness_flag_iff "user" "a" (Samples.mkE "v" [] []) (7 * MICROSECONDS_PER_DAY)) 0);
      [reflexivity | reflexivity | vm_compute; discriminate].
  - destruct (Lifecycle._check_staleness "user" "a" (Samples.mkE "v" [] [])
                (699 * MICROSECONDS_PER_DAY / 100)) eqn:E; [|reflexivity].
    exfalso.
    assert (H : Lifecycle._check_staleness "user" "a" (Samples.mkE "v" [] [])
                  (699 * MICROSECONDS_PER_DAY / 100) <> None) by (rewrite E; discriminate).
    apply (proj2 (staleness_flag_iff "user" "a" (Samples.mkE "v" [] [])
                    (699 * MICROSECONDS_PER_DAY / 100)) 0 eq_refl eq_refl) in H.
    vm_compute in H. apply H; reflexivity.
Defined.

(** ** search *)

Section SearchSort.

Lemma In_insert_desc r x l : In r (insert_desc x l) <-> r = x \/ In r l.
Proof.
  induction l as [|y ys IH]; simpl.
  - split; [intros [H|[]]; left; auto | intros [H|[]]; left; auto].
  - destruct (Qle_bool (score y) (score x)); simpl.
    + split; intros [H|H]; auto.
    + rewrite IH. split; intros H.
      * destruct H as [H|[H|H]]; [right; left; exact H | left; auto | right; right; exact H].
      * destruct H as [H|[H|H]]; [right; left; auto | left; exact H | right; right; exact H].
Qed.

Lemma In_sort_desc r l : In r (sort_desc l) <-> In r l.
Proof.
  induction l as [|x xs IH]; simpl; [reflexivity|].
  rewrite In_insert_desc, IH. split; intros [H|H]; auto.
Qed.

Lemma not_le_bool_lt a b : Qle_bool a b = false -> (b < a)%Q.
Proof.
  intros H. apply Qnot_le_lt. intros H'. apply Qle_bool_iff in H'. congruence.
Qed.

Lemma insert_desc_sorted x l : Sorted score_ge l -> Sorted score_ge (insert_desc x l).
Proof.
  induction l as [|y ys IH]; simpl; intros Hs.
  - constructor; constructor.
  - destruct (Qle_bool (score y) (score x)) eqn:E.
    + constructor; [exact Hs|]. constructor. unfold score_ge. apply Qle_bool_iff; exact E.
    + inversion Hs as [|y0 ys0 Hys Hhd]; subst.
      constructor; [apply IH; exact Hys|].
      assert (Hyx : score_ge y x) by (unfold score_ge; apply Qlt_le_weak, not_le_bool_lt; exact E).
      destruct ys as [|z zs]; simpl; [constructor; exact Hyx|].
      destruct (Qle_bool (score z) (score x)); constructor; [exact Hyx|].
      inversion Hhd; assumption.
Qed.

Lemma sort_desc_sorted l : Sorted score_ge (sort_desc l).
Proof. induction l as [|x xs IH]; simpl; [constructor | apply insert_desc_sorted; exact IH]. Qed.

Lemma filter_insert_desc s x l :
  filter (same_score s) (insert_desc x l) = filter (same_score s) (x :: l).
Proof.
  induction l as [|y ys IH]; simpl; [reflexivity|].
  destruct (Qle_bool (score y) (score x)) eqn:E; [reflexivity|].
  simpl. rewrite IH. simpl. unfold same_score.
  destruct (Qeq_bool (score x) s) eqn:Ex, (Qeq_bool (score y) s) eqn:Ey; try reflexivity.
  exfalso. apply Qeq_bool_iff in Ex, Ey.
  assert (H : (score y <= score x)%Q) by (rewrite Ex, Ey; apply Qle_refl).
  apply Qle_bool_iff in H. congruence.
Qed.

(** Ties keep their relative order. *)
Lemma filter_sort_desc s l : filter (same_score s) (sort_desc l) = filter (same_score s) l.
Proof.
  induction l as [|x xs IH]; simpl; [reflexivity|].
  rewrite filter_insert_desc. simpl. rewrite IH. reflexivity.
Qed.

End SearchSort.

(** [round(x, 4)] is within half a unit of the fourth decimal of [x]. *)
Lemma py_round_4_close x : (x - (1 # 20000) <= py_round x 4 <= x + (1 # 20000))%Q.
Proof.
  unfold py_round. cbv zeta.
  change (inject_Z (10 ^ 4)) with (10000 # 1)%Q.
  set (y := (x * (10000 # 1))%Q).
  pose proof (Qfloor_le y) as H1.
  pose proof (Qlt_floor y) as H2. rewrite inject_Z_plus in H2.
  set (f := Qfloor y) in *.
  assert (Hz : forall z, (y - (1 # 2) <= inject_Z z <= y + (1 # 2))%Q ->
                 (x - (1 # 20000) <= inject_Z z / (10000 # 1) <= x + (1 # 20000))%Q).
  { intros z [Ha Hb]. unfold Qdiv. change (/ (10000 # 1))%Q with (1 # 10000)%Q.
    unfold y in *. split; lra. }
  apply Hz.
  assert (H1' : (inject_Z 1 == 1)%Q) by reflexivity.
  destruct (Qlt_bool (y - inject_Z f) (1 # 2)) eqn:E1.
  - unfold Qlt_bool in E1. apply negb_true_iff, not_le_bool_lt in E1. split; lra.
  - unfold Qlt_bool in E1. apply negb_false_iff, Qle_bool_iff in E1.
    destruct (Qlt_bool (1 # 2) (y - inject_Z f)) eqn:E2.
    + rewrite inject_Z_plus. split; lra.
    + unfold Qlt_bool in E2. apply negb_false_iff, Qle_bool_iff in E2.
      destruct (Z.even f); [|rewrite inject_Z_plus]; split; lra.
Qed.

(** [round(x, n)] as modelled is one of the roundings [rounded_to] allows. *)
Lemma py_round_rounded_to x n : rounded_to n x (py_round x n).
Proof.
  unfold py_round, rounded_to. cbv zeta.
  set (sc := inject_Z (10 ^ n)). set (y := (x * sc)%Q).
  pose proof (Qfloor_le y) as H1.
  pose proof (Qlt_floor y) as H2. rewrite inject_Z_plus in H2.
  set (f := Qfloor y) in *.
  assert (H1' : (inject_Z 1 == 1)%Q) by reflexivity.
  eexists. split; [reflexivity|]. apply Qabs_Qle_condition.
  destruct (Qlt_bool (y - inject_Z f) (1 # 2)) eqn:E1.
  - unfold Qlt_bool in E1. apply negb_true_iff, not_le_bool_lt in E1. split; lra.
  - unfold Qlt_bool in E1. apply negb_false_iff, Qle_bool_iff in E1.
    destruct (Qlt_bool (1 # 2) (y - inject_Z f)) eqn:E2.
    + rewrite inject_Z_plus. split; lra.
    + unfold Qlt_bool in E2. apply negb_false_iff, Qle_bool_iff in E2.
      destruct (Z.even f); [|rewrite inject_Z_plus]; split; lra.
Qed.

Lemma round_signals_rounded s : signals_rounded s (round_signals s).
Proof. repeat split; apply py_round_rounded_to. Qed.

Lemma search_entries_results exp now_str now_dt ql qt cat es :
  snd (search_entries exp now_str now_dt ql qt cat es)
  = flat_map (search_item exp now_str now_dt ql qt) (map (fun '(k, e) => (cat, k, e)) es).
Proof.
  induction es as [|[k e] rest IH]; simpl; [reflexivity|].
  destruct (search_entries exp now_str now_dt ql qt cat rest) as [rest' rs] eqn:E.
  simpl in IH. destruct (_find_match_reasons k e ql) eqn:M; simpl; rewrite IH; reflexivity.
Qed.

Lemma search_categories_results exp now_str now_dt ql qt mems :
  snd (search_categories exp now_str now_dt ql qt mems)
  = flat_map (search_item exp now_str now_dt ql qt) (entries_of mems).
Proof.
  induction mems as [|[c es] rest IH]; simpl; [reflexivity|].
  pose proof (search_entries_results exp now_str now_dt ql qt c es) as He.
  destruct (search_entries exp now_str now_dt ql qt c es) as [es' rs1] eqn:E1.
  destruct (search_categories exp now_str now_dt ql qt rest) as [rest' rs2] eqn:E2.
  simpl in *. rewrite He, IH, flat_map_app. reflexivity.
Qed.

Lemma search_scan_results exp q cat now_str now_dt mems :
  snd (search_scan exp q cat now_str now_dt mems)
  = flat_map (search_item exp now_str now_dt (PyStr.lower q) (query_terms_of q))
             (search_scope cat mems).
Proof.
  unfold search_scan, search_scope, query_terms_of. destruct cat as [c|].
  - pose proof (search_entries_results exp now_str now_dt (PyStr.lower q)
                  (filter (fun t => negb (String.eqb t "")) (PyStr.split (PyStr.lower q)))
                  c (Dict.get_default c mems [])) as He.
    destruct (search_entries _ _ _ _ _ _ _) as [es' rs]. exact He.
  - apply search_categories_results.
Qed.

Lemma search_returns exp q cat now_str now_dt w rs w' :
  search exp q cat now_str now_dt w = (inr rs, w') ->
  rs = sort_desc (snd (search_scan exp q cat now_str now_dt (memories (disk w)))).
Proof.
  unfold search, _read_modify_write.
  destruct (match cat with Some c => negb (_validate_category c) | None => false end);
    [discriminate|].
  destruct (search_scan exp q cat now_str now_dt (memories (disk w))) as [m' rs0].
  intros H; inversion H; reflexivity.
Qed.

Lemma match_reasons_nonempty k e ql :
  _find_match_reasons k e ql <> [] ->
  (PyStr.contains ql (PyStr.lower k) || PyStr.contains ql (PyStr.lower (value e))
   || existsb (fun tg => PyStr.contains ql (PyStr.lower tg)) (tags e)) = true.
Proof.
  unfold _find_match_reasons.
  destruct (PyStr.contains ql (PyStr.lower k)), (PyStr.contains ql (PyStr.lower (value e))),
           (existsb (fun tg => PyStr.contains ql (PyStr.lower tg)) (tags e));
    simpl; auto.
Qed.

(** C2 (as stated, refuted): the reported score is not the weighted sum
    of the signals; here the sum is 47/120 and the score its rounding
    0.3917. *)
Lemma search_score_not_exact_sum :
  match search (fun _ => 1%Q) "x y z" None 0 0 Samples.search_world with
  | (inr [r], _) =>
      ~ (score r == _compute_search_score
                      (signals_of (fun _ => 1%Q) 0%Z "x y z" ["x"; "y"; "z"] "k" Samples.search_entry))%Q
  | _ => False
  end.
Proof. vm_compute. intros H. discriminate H. Qed.

(** C2 (amended): every result of [search] comes from a scanned entry
    whose key, value or some tag contains the lowercased query; its score
    is the weighted sum of the signals computed from the entry as it was
    before the call, rounded to 4 decimals ([round(score, 4)], the tie
    direction left open), hence within 0.00005 of that sum, its signals
    are those signals rounded to 4 decimals, and its entry is the
    access-tracked one; the results are the scan's results sorted by
    descending (rounded) score, and results with equal score keep scan
    order. *)
Theorem search_results_spec exp q cat now_str now_dt w rs w' :
  search exp q cat now_str now_dt w = (inr rs, w') ->
  let ql := PyStr.lower q in
  let terms := query_terms_of q in
  let scan := flat_map (search_item exp now_str now_dt ql terms)
                       (search_scope cat (memories (disk w))) in
  rs = sort_desc scan /\
  (forall r, In r rs -> exists e,
     In (res_category r, res_key r, e) (search_scope cat (memories (disk w))) /\
     (PyStr.contains ql (PyStr.lower (res_key r)) || PyStr.contains ql (PyStr.lower (value e))
      || existsb (fun tg => PyStr.contains ql (PyStr.lower tg)) (tags e)) = true /\
     rounded_to 4 (_compute_search_score (signals_of exp now_dt ql terms (res_key r) e)) (score r) /\
     (_compute_search_score (signals_of exp now_dt ql terms (res_key r) e) - (1 # 20000) <= score r
        <= _compute_search_score (signals_of exp now_dt ql terms (res_key r) e) + (1 # 20000))%Q /\
     signals_rounded (signals_of exp now_dt ql terms (res_key r) e) (res_signals r) /\
     res_entry r = touch now_str e) /\
  Sorted score_ge rs /\
  (forall s, filter (same_score s) rs = filter (same_score s) scan).
Proof.
  intros H ql terms scan.
  pose proof (search_returns _ _ _ _ _ _ _ _ H) as Hrs.
  rewrite search_scan_results in Hrs. fold ql terms scan in Hrs.
  split; [exact Hrs|]. subst rs. split; [|split].
  - intros r Hr. rewrite In_sort_desc in Hr. unfold scan in Hr. apply in_flat_map in Hr.
    destruct Hr as [[[c k] e] [Hin Hitem]].
    unfold search_item in Hitem.
    destruct (_find_match_reasons k e ql) as [|m ms] eqn:M; [destruct Hitem|].
    destruct Hitem as [<-|[]]. simpl.
    exists e. split; [exact Hin|]. split.
    + apply match_reasons_nonempty. rewrite M. discriminate.
    + split; [apply py_round_rounded_to|]. split; [apply py_round_4_close|].
      split; [apply round_signals_rounded|reflexivity].
  - apply sort_desc_sorted.
  - intros s. apply filter_sort_desc.
Qed.

Lemma search_results_spec_witness :
  match search Samples.exp_linear "tea" None Samples.ranked_now Samples.ranked_now Samples.ranked_world with
  | (inr rs, _) =>
      map res_key rs = ["b"; "a"; "c"] /\
      map score rs = [4600 # 10000; 3250 # 10000; 3250 # 10000]%Q /\
      (let ql := PyStr.lower "tea" in
       let terms := query_terms_of "tea" in
       let scan := flat_map (search_item Samples.exp_linear Samples.ranked_now Samples.ranked_now ql terms)
                            (search_scope None (memories (disk Samples.ranked_world))) in
       rs = sort_desc scan /\
       (forall r, In r rs -> exists e,
          In (res_category r, res_key r, e) (search_scope None (memories (disk Samples.ranked_world))) /\
          (PyStr.contains ql (PyStr.lower (res_key r)) || PyStr.contains ql (PyStr.lower (value e))
           || existsb (fun tg => PyStr.contains ql (PyStr.lower tg)) (tags e)) = true /\
          rounded_to 4 (_compute_search_score
                          (signals_of Samples.exp_linear Samples.ranked_now ql terms (res_key r) e)) (score r) /\
          (_compute_search_score (signals_of Samples.exp_linear Samples.ranked_now ql terms (res_key r) e)
             - (1 # 20000) <= score r
           <= _compute_search_score (signals_of Samples.exp_linear Samples.ranked_now ql terms (res_key r) e)
             + (1 # 20000))%Q /\
          signals_rounded (signals_of Samples.exp_linear Samples.ranked_now ql terms (res_key r) e)
                          (res_signals r) /\
          res_entry r = touch Samples.ranked_now e) /\
       Sorted score_ge rs /\
       (forall s, filter (same_score s) rs = filter (same_score s) scan))
  | _ => False
  end.
Proof.
  destruct (search Samples.exp_linear "tea" None Samples.ranked_now Samples.ranked_now Samples.ranked_world)
    as [[err|rs] w'] eqn:E; [vm_compute in E; discriminate E|].
  pose proof (search_results_spec Samples.exp_linear "tea" None Samples.ranked_now Samples.ranked_now
                Samples.ranked_world rs w' E) as H.
  vm_compute in E. inversion E. subst rs.
  split; [reflexivity|]. split; [reflexivity|]. exact H.
Defined.

(** ** Migrations *)

Module MigrationFacts.
Import Migration.

Lemma nth_error_lt (h : Heap) x o : nth_error h x = Some o -> (x < List.length h)%nat.
Proof. intros H. apply nth_error_Some. rewrite H. discriminate. Qed.

Lemma untouched_refl h : untouched h h.
Proof. intros x _. reflexivity. Qed.

Lemma untouched_app h ext : untouched h (h ++ ext).
Proof. intros x Hx. apply nth_error_app1; exact Hx. Qed.

Lemma untouched_trans h1 h2 h3 :
  untouched h1 h2 -> untouched h2 h3 -> (List.length h1 <= List.length h2)%nat ->
  untouched h1 h3.
Proof. intros H12 H23 Hl x Hx. rewrite H23 by lia. apply H12; exact Hx. Qed.

Lemma heap_set_length h l o : List.length (heap_set h l o) = List.length h.
Proof.
  revert l; induction h as [|x r IH]; intros [|l']; simpl; try reflexivity.
  rewrite IH; reflexivity.
Qed.

Lemma heap_set_eq h l o : (l < List.length h)%nat -> nth_error (heap_set h l o) l = Some o.
Proof.
  revert l; induction h as [|x r IH]; intros [|l'] Hl; simpl in *; try lia; auto.
  apply IH; lia.
Qed.

Lemma heap_set_neq h l o y : l <> y -> nth_error (heap_set h l o) y = nth_error h y.
Proof.
  revert l y; induction h as [|x r IH]; intros [|l'] [|y'] Hne; simpl; try congruence.
  apply IH; congruence.
Qed.

Lemma deref_entries_untouched h h' es d :
  untouched h h' -> deref_entries h es = Some d -> deref_entries h' es = Some d.
Proof.
  intros Hu. revert d; induction es as [|[k l] rest IH]; intros d; simpl; [auto|].
  destruct (nth_error h l) as [[fs|fs m]|] eqn:E; try discriminate.
  destruct (deref_entries h rest) as [rest'|] eqn:Er; [|discriminate].
  intros H. rewrite Hu by (eapply nth_error_lt; exact E). rewrite E, (IH rest' eq_refl). exact H.
Qed.

Lemma deref_mems_untouched h h' cats d :
  untouched h h' -> deref_mems h cats = Some d -> deref_mems h' cats = Some d.
Proof.
  intros Hu. revert d; induction cats as [|[c es] rest IH]; intros d; simpl; [auto|].
  destruct (deref_entries h es) as [es'|] eqn:E; [|discriminate].
  destruct (deref_mems h rest) as [rest'|] eqn:Er; [|discriminate].
  rewrite (deref_entries_untouched _ _ _ _ Hu E), (IH rest' eq_refl). auto.
Qed.

Lemma deref_untouched h h' l pd :
  untouched h h' -> deref h l = Some pd -> deref h' l = Some pd.
Proof.
  intros Hu. unfold deref.
  destruct (nth_error h l) as [o|] eqn:E; [|discriminate].
  rewrite Hu by (eapply nth_error_lt; exact E). rewrite E.
  destruct o as [fs|fs [cats|]]; try discriminate; auto.
  destruct (deref_mems h cats) as [d|] eqn:Ed; [|discriminate].
  rewrite (deref_mems_untouched _ _ _ _ Hu Ed). auto.
Qed.

Lemma deref_entries_locs h es d :
  deref_entries h es = Some d ->
  forall x, In x (map snd es) -> exists fs, nth_error h x = Some (OEntry fs).
Proof.
  revert d; induction es as [|[k l] rest IH]; intros d; simpl; [intros _ _ []|].
  destruct (nth_error h l) as [[fs|fs m]|] eqn:E; try discriminate.
  destruct (deref_entries h rest) as [rest'|] eqn:Er; [|discriminate].
  intros _ x [<-|Hx]; [exists fs; exact E | exact (IH rest' eq_refl x Hx)].
Qed.

Lemma deref_mems_locs h cats d :
  deref_mems h cats = Some d ->
  forall x, In x (mems_locs cats) -> exists fs, nth_error h x = Some (OEntry fs).
Proof.
  unfold mems_locs.
  revert d; induction cats as [|[c es] rest IH]; intros d; simpl; [intros _ _ []|].
  destruct (deref_entries h es) as [es'|] eqn:E; [|discriminate].
  destruct (deref_mems h rest) as [rest'|] eqn:Er; [|discriminate].
  intros _ x Hx. apply in_app_or in Hx as [Hx|Hx].
  - exact (deref_entries_locs _ _ _ E x Hx).
  - exact (IH rest' eq_refl x Hx).
Qed.

Lemma memo_inv_nil h0 h : memo_inv h0 [] h.
Proof. intros a b H. discriminate H. Qed.

Lemma copy_entry_spec h0 l memo h fs :
  memo_inv h0 memo h -> untouched h0 h -> (List.length h0 <= List.length h)%nat ->
  nth_error h0 l = Some (OEntry fs) ->
  exists l' memo' h', copy_entry l memo h = Some (l', memo', h') /\
    memo_inv h0 memo' h' /\ untouched h h' /\ (List.length h <= List.length h')%nat /\
    (List.length h0 <= l')%nat /\ nth_error h' l' = Some (OEntry fs).
Proof.
  intros Hm Hu Hl Hfs. unfold copy_entry.
  destruct (memo_get l memo) as [b|] eqn:M.
  - destruct (Hm _ _ M) as [Hb Hnb]. exists b, memo, h.
    split; [reflexivity|]. split; [exact Hm|]. split; [apply untouched_refl|].
    split; [lia|]. split; [lia|]. rewrite Hnb; exact Hfs.
  - assert (Hl0 : (l < List.length h0)%nat) by (eapply nth_error_lt; exact Hfs).
    rewrite Hu by exact Hl0. rewrite Hfs.
    exists (List.length h), ((l, List.length h) :: memo), (h ++ [OEntry fs]).
    split; [reflexivity|]. split; [|split; [apply untouched_app|]].
    + intros a b. simpl. rewrite length_app. simpl. destruct (Nat.eqb_spec l a) as [<-|Hne].
      * intros Hb; inversion Hb; subst b. split; [lia|].
        rewrite nth_error_app2, Nat.sub_diag by lia. simpl. symmetry; exact Hfs.
      * intros Hb. destruct (Hm _ _ Hb) as [Hr Hn]. split; [lia|].
        rewrite nth_error_app1 by lia. exact Hn.
    + rewrite length_app. simpl. split; [lia|]. split; [lia|].
      rewrite nth_error_app2, Nat.sub_diag by lia. reflexivity.
Qed.

Lemma copy_entries_spec h0 es : forall memo h d,
  memo_inv h0 memo h -> untouched h0 h -> (List.length h0 <= List.length h)%nat ->
  deref_entries h0 es = Some d ->
  exists es' memo' h', copy_entries es memo h = Some (es', memo', h') /\
    memo_inv h0 memo' h' /\ untouched h h' /\ (List.length h <= List.length h')%nat /\
    deref_entries h' es' = Some d /\ map fst es' = map fst es /\
    (forall x, In x (map snd es') -> (List.length h0 <= x)%nat).
Proof.
  induction es as [|[k l] rest IH]; intros memo h d Hm Hu Hl Hd; simpl in Hd |- *.
  - inversion Hd; subst d. exists [], memo, h.
    split; [reflexivity|]. split; [exact Hm|]. split; [apply untouched_refl|].
    split; [lia|]. split; [reflexivity|]. split; [reflexivity|]. intros x [].
  - destruct (nth_error h0 l) as [[fs|fs m]|] eqn:E; try discriminate.
    destruct (deref_entries h0 rest) as [rest_d|] eqn:Er; [|discriminate].
    inversion Hd; subst d.
    destruct (copy_entry_spec h0 l memo h fs Hm Hu Hl E)
      as (l' & memo1 & h1 & Hc & Hm1 & Hu1 & Hl1 & Hl' & Hn1).
    rewrite Hc.
    destruct (IH memo1 h1 rest_d Hm1 (untouched_trans _ _ _ Hu Hu1 Hl) ltac:(lia) eq_refl)
      as (rest' & memo2 & h2 & Hc2 & Hm2 & Hu2 & Hl2 & Hd2 & Hk2 & Hf2).
    rewrite Hc2. exists ((k, l') :: rest'), memo2, h2.
    split; [reflexivity|]. split; [exact Hm2|].
    split; [exact (untouched_trans _ _ _ Hu1 Hu2 Hl1)|]. split; [lia|]. split; [|split].
    + simpl. rewrite Hu2 by (eapply nth_error_lt; exact Hn1). rewrite Hn1, Hd2. reflexivity.
    + simpl. rewrite Hk2. reflexivity.
    + intros x [<-|Hx]; [exact Hl'|exact (Hf2 x Hx)].
Qed.

Lemma copy_mems_spec h0 cats : forall memo h d,
  memo_inv h0 memo h -> untouched h0 h -> (List.length h0 <= List.length h)%nat ->
  deref_mems h0 cats = Some d ->
  exists cats' memo' h', copy_mems cats memo h = Some (cats', memo', h') /\
    memo_inv h0 memo' h' /\ untouched h h' /\ (List.length h <= List.length h')%nat /\
    deref_mems h' cats' = Some d /\
    (forall x, In x (mems_locs cats') -> (List.length h0 <= x)%nat).
Proof.
  unfold mems_locs.
  induction cats as [|[c es] rest IH]; intros memo h d Hm Hu Hl Hd; simpl in Hd |- *.
  - inversion Hd; subst d. exists [], memo, h.
    split; [reflexivity|]. split; [exact Hm|]. split; [apply untouched_refl|].
    split; [lia|]. split; [reflexivity|]. intros x [].
  - destruct (deref_entries h0 es) as [es_d|] eqn:E; [|discriminate].
    destruct (deref_mems h0 rest) as [rest_d|] eqn:Er; [|discriminate].
    inversion Hd; subst d.
    destruct (copy_entries_spec h0 es memo h es_d Hm Hu Hl E)
      as (es' & memo1 & h1 & Hc & Hm1 & Hu1 & Hl1 & Hd1 & _ & Hf1).
    rewrite Hc.
    destruct (IH memo1 h1 rest_d Hm1 (untouched_trans _ _ _ Hu Hu1 Hl) ltac:(lia) eq_refl)
      as (rest' & memo2 & h2 & Hc2 & Hm2 & Hu2 & Hl2 & Hd2 & Hf2).
    rewrite Hc2. exists ((c, es') :: rest'), memo2, h2.
    split; [reflexivity|]. split; [exact Hm2|].
    split; [exact (untouched_trans _ _ _ Hu1 Hu2 Hl1)|]. split; [lia|]. split.
    + simpl. rewrite (deref_entries_untouched _ _ _ _ Hu2 Hd1), Hd2. reflexivity.
    + simpl. intros x Hx. apply in_app_or in Hx as [Hx|Hx]; [exact (Hf1 x Hx)|exact (Hf2 x Hx)].
Qed.

Lemma deepcopy_spec l h pd :
  deref h l = Some pd ->
  exists r h' mems', deepcopy l h = Some (r, h') /\ untouched h h' /\
    (List.length h <= r < List.length h')%nat /\
    nth_error h' r = Some (ODoc (pd_fields pd) mems') /\
    (forall x, In x (mems_locs (match mems' with Some c => c | None => [] end)) ->
               (List.length h <= x < r)%nat) /\
    match mems', pd_memories pd with
    | None, None => True
    | Some c, Some d => deref_mems h' c = Some d
    | _, _ => False
    end.
Proof.
  unfold deref, deepcopy. intros H.
  destruct (nth_error h l) as [o|] eqn:E; [|discriminate].
  destruct o as [fs|fs [cats|]]; try discriminate.
  - destruct (deref_mems h cats) as [d|] eqn:Ed; [|discriminate].
    inversion H; subst pd. simpl.
    destruct (copy_mems_spec h cats [] h d (memo_inv_nil h h) (untouched_refl h) (le_n _) Ed)
      as (cats' & memo' & h1 & Hc & _ & Hu1 & Hl1 & Hd1 & Hf1).
    rewrite Hc. exists (List.length h1), (h1 ++ [ODoc fs (Some cats')]), (Some cats').
    split; [reflexivity|].
    split; [exact (untouched_trans _ _ _ Hu1 (untouched_app _ _) Hl1)|].
    split; [rewrite length_app; simpl; lia|].
    split; [rewrite nth_error_app2, Nat.sub_diag by lia; reflexivity|].
    split.
    + intros x Hx. split; [exact (Hf1 x Hx)|].
      destruct (deref_mems_locs _ _ _ Hd1 x Hx) as [fs' Hfs'].
      eapply nth_error_lt; exact Hfs'.
    + exact (deref_mems_untouched _ _ _ _ (untouched_app _ _) Hd1).
  - inversion H; subst pd. simpl.
    exists (List.length h), (h ++ [ODoc fs None]), None.
    split; [reflexivity|]. split; [apply untouched_app|].
    split; [rewrite length_app; simpl; lia|].
    split; [rewrite nth_error_app2, Nat.sub_diag by lia; reflexivity|].
    split; [intros x []|exact I].
Qed.

Section Update.
Variable f : list (string * jval) -> list (string * jval).
Hypothesis f_idem : forall fs, f (f fs) = f fs.

Lemma map_obj_idem o : map_obj f (map_obj f o) = map_obj f o.
Proof. destruct o as [[fs|fs m]|]; simpl; try rewrite f_idem; reflexivity. Qed.

Lemma update_entries_spec es : forall h,
  (forall x, In x (map snd es) -> exists fs, nth_error h x = Some (OEntry fs)) ->
  exists h', update_entries f es h = Some h' /\ List.length h' = List.length h /\
    forall y, nth_error h' y =
      if existsb (Nat.eqb y) (map snd es) then map_obj f (nth_error h y) else nth_error h y.
Proof.
  induction es as [|[k x] rest IH]; intros h Hok; simpl.
  - exists h. split; [reflexivity|]. split; reflexivity.
  - destruct (Hok x (or_introl eq_refl)) as [fs Hx]. rewrite Hx.
    assert (Hx1 : nth_error (heap_set h x (OEntry (f fs))) x = Some (OEntry (f fs)))
      by (apply heap_set_eq; eapply nth_error_lt; exact Hx).
    assert (Hok1 : forall y, In y (map snd rest) ->
              exists fs', nth_error (heap_set h x (OEntry (f fs))) y = Some (OEntry fs')).
    { intros y Hy. destruct (Nat.eq_dec x y) as [<-|Hne]; [exists (f fs); exact Hx1|].
      rewrite heap_set_neq by exact Hne. apply Hok; right; exact Hy. }
    destruct (IH _ Hok1) as (h' & Hu & Hl & Hy). exists h'.
    split; [exact Hu|]. split; [rewrite Hl; apply heap_set_length|].
    intros y. rewrite Hy. destruct (Nat.eqb_spec y x) as [->|Hne].
    + rewrite Hx1, Hx. simpl. destruct (existsb (Nat.eqb x) (map snd rest)); simpl;
        [rewrite f_idem|]; reflexivity.
    + rewrite heap_set_neq by congruence. reflexivity.
Qed.

Lemma update_mems_spec cats : forall h,
  (forall x, In x (mems_locs cats) -> exists fs, nth_error h x = Some (OEntry fs)) ->
  exists h', update_mems f cats h = Some h' /\ List.length h' = List.length h /\
    forall y, nth_error h' y =
      if existsb (Nat.eqb y) (mems_locs cats) then map_obj f (nth_error h y) else nth_error h y.
Proof.
  induction cats as [|[c es] rest IH]; intros h Hok; cbn [update_mems].
  - exists h. split; [reflexivity|]. split; reflexivity.
  - assert (Hloc : mems_locs ((c, es) :: rest) = map snd es ++ mems_locs rest) by reflexivity.
    rewrite Hloc in Hok.
    destruct (update_entries_spec es h (fun x Hx => Hok x (in_or_app _ _ _ (or_introl Hx))))
      as (h1 & Hu1 & Hl1 & Hy1).
    rewrite Hu1.
    assert (Hok1 : forall x, In x (mems_locs rest) -> exists fs, nth_error h1 x = Some (OEntry fs)).
    { intros x Hx. destruct (Hok x (in_or_app _ _ _ (or_intror Hx))) as [fs Hfs].
      rewrite Hy1, Hfs. destruct (existsb (Nat.eqb x) _);
        [exists (f fs)|exists fs]; reflexivity. }
    destruct (IH h1 Hok1) as (h' & Hu & Hl & Hy). exists h'.
    split; [exact Hu|]. split; [lia|].
    intros y. rewrite Hloc, existsb_app, Hy, Hy1. unfold loc in *.
    destruct (existsb (Nat.eqb y) (map snd es)); destruct (existsb (Nat.eqb y) (mems_locs rest));
      simpl; try rewrite map_obj_idem; reflexivity.
Qed.

End Update.

Lemma deref_entries_map f h h' es d :
  (forall x, In x (map snd es) -> nth_error h' x = map_obj f (nth_error h x)) ->
  deref_entries h es = Some d ->
  deref_entries h' es = Some (map (fun '(k, fs) => (k, f fs)) d).
Proof.
  intros Hpt. revert d; induction es as [|[k l] rest IH]; intros d; simpl in *.
  - intros H; inversion H; reflexivity.
  - destruct (nth_error h l) as [[fs|fs m]|] eqn:E; try discriminate.
    destruct (deref_entries h rest) as [rest'|] eqn:Er; [|discriminate].
    intros H; inversion H; subst d.
    rewrite (Hpt l (or_introl eq_refl)), E. simpl.
    rewrite (IH (fun x Hx => Hpt x (or_intror Hx)) rest' eq_refl). reflexivity.
Qed.

Lemma deref_mems_map f h h' cats d :
  (forall x, In x (mems_locs cats) -> nth_error h' x = map_obj f (nth_error h x)) ->
  deref_mems h cats = Some d ->
  deref_mems h' cats = Some (map (fun '(c, es) => (c, map (fun '(k, fs) => (k, f fs)) es)) d).
Proof.
  unfold mems_locs. intros Hpt. revert d; induction cats as [|[c es] rest IH]; intros d; simpl in *.
  - intros H; inversion H; reflexivity.
  - destruct (deref_entries h es) as [es'|] eqn:E; [|discriminate].
    destruct (deref_mems h rest) as [rest'|] eqn:Er; [|discriminate].
    intros H; inversion H; subst d.
    rewrite (deref_entries_map f h h' es es' (fun x Hx => Hpt x (in_or_app _ _ _ (or_introl Hx))) E).
    rewrite (IH (fun x Hx => Hpt x (in_or_app _ _ _ (or_intror Hx))) rest' eq_refl). reflexivity.
Qed.

Lemma existsb_eqb_notin x l : (forall z, In z l -> x <> z) -> existsb (Nat.eqb x) l = false.
Proof.
  intros H. destruct (existsb (Nat.eqb x) l) eqn:E; [|reflexivity].
  apply existsb_exists in E as (z & Hz & Hxz). apply Nat.eqb_eq in Hxz.
  exfalso; exact (H z Hz Hxz).
Qed.

Lemma existsb_eqb_in x l : In x l -> existsb (Nat.eqb x) l = true.
Proof. intros H. apply existsb_exists. exists x. split; [exact H|apply Nat.eqb_refl]. Qed.

Lemma migrate_with_spec f g (f_idem : forall fs, f (f fs) = f fs) l h pd :
  deref h l = Some pd ->
  exists r h', migrate_with f g l h = Some (r, h') /\ untouched h h' /\ fresh_doc h h' r /\
    deref h' r = Some (mkPDoc (g (pd_fields pd)) (map_entries f (pd_memories pd))).
Proof.
  intros Hd0.
  destruct (deepcopy_spec l h pd Hd0) as (r & h1 & mems' & Hc & Hu1 & Hr & Hn & Hlocs & Hd).
  unfold migrate_with. rewrite Hc, Hn.
  assert (Hok : forall x, In x (mems_locs (match mems' with Some c => c | None => [] end)) ->
                  exists fs, nth_error h1 x = Some (OEntry fs)).
  { destruct mems' as [c|]; [|intros x []].
    destruct (pd_memories pd) as [d|]; [|contradiction].
    exact (deref_mems_locs _ _ _ Hd). }
  destruct (update_mems_spec f f_idem _ h1 Hok) as (h2 & Hup & Hl2 & Hy).
  rewrite Hup.
  assert (Hrl : (r < List.length h2)%nat) by lia.
  exists r, (heap_set h2 r (ODoc (g (pd_fields pd)) mems')).
  split; [reflexivity|]. split; [|split].
  - intros x Hx. rewrite heap_set_neq by lia. rewrite Hy.
    rewrite existsb_eqb_notin by (intros z Hz; specialize (Hlocs z Hz); lia).
    apply Hu1; exact Hx.
  - split; [lia|]. unfold doc_entry_locs. rewrite heap_set_eq by exact Hrl.
    destruct mems' as [c|]; [|intros x []].
    intros x Hx. exact (proj1 (Hlocs x Hx)).
  - unfold deref. rewrite heap_set_eq by exact Hrl.
    destruct mems' as [c|], (pd_memories pd) as [d|] eqn:Epd; try contradiction; [|reflexivity].
    assert (Hpt : forall x, In x (mems_locs c) ->
                    nth_error (heap_set h2 r (ODoc (g (pd_fields pd)) (Some c))) x
                    = map_obj f (nth_error h1 x)).
    { intros x Hx. rewrite heap_set_neq by (specialize (Hlocs x Hx); lia).
      rewrite Hy, existsb_eqb_in by exact Hx. reflexivity. }
    rewrite (deref_mems_map f _ _ c d Hpt Hd). reflexivity.
Qed.

Lemma get_app_some {V} k (d l : Dict.t V) v : Dict.get k d = Some v -> Dict.get k (d ++ l) = Some v.
Proof.
  induction d as [|[k' v'] r IH]; simpl; [discriminate|].
  destruct (String.eqb k k'); auto.
Qed.

Lemma get_app_none {V} k (d l : Dict.t V) : Dict.get k d = None -> Dict.get k (d ++ l) = Dict.get k l.
Proof.
  induction d as [|[k' v'] r IH]; simpl; [reflexivity|].
  destruct (String.eqb k k'); [discriminate|auto].
Qed.

Lemma has_setdefault_same k v fs : Dict.has k (setdefault k v fs) = true.
Proof.
  unfold setdefault, Dict.has. destruct (Dict.get k fs) as [x|] eqn:E; simpl.
  - rewrite E. reflexivity.
  - rewrite (get_app_none _ _ _ E). simpl. rewrite String.eqb_refl. reflexivity.
Qed.

Lemma has_setdefault_mono k k' v fs : Dict.has k fs = true -> Dict.has k (setdefault k' v fs) = true.
Proof.
  unfold setdefault. destruct (Dict.has k' fs); [auto|].
  unfold Dict.has. destruct (Dict.get k fs) as [x|] eqn:E; [|discriminate].
  rewrite (get_app_some _ _ _ _ E). reflexivity.
Qed.

Lemma setdefault_has k v fs : Dict.has k fs = true -> setdefault k v fs = fs.
Proof. unfold setdefault. intros ->. reflexivity. Qed.

Lemma v1_1_entry_defaults_idem fs : v1_1_entry_defaults (v1_1_entry_defaults fs) = v1_1_entry_defaults fs.
Proof.
  set (x := v1_1_entry_defaults fs).
  assert (Hk : forall k, In k ["importance"; "source"; "access_count"; "last_accessed"; "status"] ->
                 Dict.has k x = true).
  { intros k Hk. unfold x, v1_1_entry_defaults.
    destruct Hk as [<-|[<-|[<-|[<-|[<-|[]]]]]];
      repeat (apply has_setdefault_same || apply has_setdefault_mono). }
  unfold v1_1_entry_defaults at 1.
  rewrite (setdefault_has "importance") by (apply Hk; simpl; tauto).
  rewrite (setdefault_has "source") by (apply Hk; simpl; tauto).
  rewrite (setdefault_has "access_count") by (apply Hk; simpl; tauto).
  rewrite (setdefault_has "last_accessed") by (apply Hk; simpl; tauto).
  rewrite (setdefault_has "status") by (apply Hk; simpl; tauto).
  reflexivity.
Qed.

Lemma v1_2_entry_defaults_idem fs : v1_2_entry_defaults (v1_2_entry_defaults fs) = v1_2_entry_defaults fs.
Proof. unfold v1_2_entry_defaults at 1. apply setdefault_has, has_setdefault_same. Qed.

Lemma migrate_v1_0_to_v1_1_shape l h :
  migrate_v1_0_to_v1_1 l h
  = migrate_with v1_1_entry_defaults
      (fun fs => Dict.set "schema_version" (JStr "1.1") (setdefault "session_count" (JNum 0) fs)) l h.
Proof. reflexivity. Qed.

Lemma migrate_v1_1_to_v1_2_shape l h :
  migrate_v1_1_to_v1_2 l h
  = migrate_with v1_2_entry_defaults (fun fs => Dict.set "schema_version" (JStr "1.2") fs) l h.
Proof. reflexivity. Qed.

Lemma load_entries_spec es : forall h es' h',
  load_entries es h = (es', h') ->
  untouched h h' /\ (List.length h <= List.length h')%nat /\ deref_entries h' es' = Some es.
Proof.
  induction es as [|[k fs] rest IH]; intros h es' h' H; simpl in H.
  - inversion H; subst. split; [apply untouched_refl|]. split; [lia|reflexivity].
  - destruct (load_entries rest (h ++ [OEntry fs])) as [rest' h1] eqn:E.
    inversion H; subst es' h1.
    destruct (IH _ _ _ E) as (Hu & Hl & Hd). rewrite length_app in Hl. simpl in Hl.
    split; [exact (untouched_trans _ _ _ (untouched_app _ _) Hu ltac:(rewrite length_app; simpl; lia))|].
    split; [lia|]. simpl.
    rewrite Hu by (rewrite length_app; simpl; lia).
    rewrite nth_error_app2, Nat.sub_diag by lia. simpl. rewrite Hd. reflexivity.
Qed.

Lemma load_mems_spec cats : forall h cats' h',
  load_mems cats h = (cats', h') ->
  untouched h h' /\ (List.length h <= List.length h')%nat /\ deref_mems h' cats' = Some cats.
Proof.
  induction cats as [|[c es] rest IH]; intros h cats' h' H; simpl in H.
  - inversion H; subst. split; [apply untouched_refl|]. split; [lia|reflexivity].
  - destruct (load_entries es h) as [es' h1] eqn:E1.
    destruct (load_mems rest h1) as [rest' h2] eqn:E2.
    inversion H; subst cats' h2.
    destruct (load_entries_spec es _ _ _ E1) as (Hu1 & Hl1 & Hd1).
    destruct (IH _ _ _ E2) as (Hu2 & Hl2 & Hd2).
    split; [exact (untouched_trans _ _ _ Hu1 Hu2 Hl1)|]. split; [lia|]. simpl.
    rewrite (deref_entries_untouched _ _ _ _ Hu2 Hd1), Hd2. reflexivity.
Qed.

(** [json.loads] followed by [json.dumps] gives the document back. *)
Lemma load_deref pd l0 h0 : load pd = (l0, h0) -> deref h0 l0 = Some pd.
Proof.
  destruct pd as [fs [cats|]]; unfold load; simpl.
  - destruct (load_mems cats []) as [cats' h] eqn:E. intros H; inversion H; subst.
    destruct (load_mems_spec cats _ _ _ E) as (_ & _ & Hd).
    unfold deref. rewrite nth_error_app2, Nat.sub_diag by lia. simpl.
    rewrite (deref_mems_untouched _ _ _ _ (untouched_app _ _) Hd). reflexivity.
  - intros H; inversion H; subst. reflexivity.
Qed.

Lemma migrate_v1_0_to_v1_1_spec l h pd :
  deref h l = Some pd ->
  exists r h', migrate_v1_0_to_v1_1 l h = Some (r, h') /\ untouched h h' /\
    fresh_doc h h' r /\ deref h' l = Some pd /\ deref h' r = Some (v1_1_value pd).
Proof.
  intros Hd. rewrite migrate_v1_0_to_v1_1_shape.
  destruct (migrate_with_spec _
              (fun fs => Dict.set "schema_version" (JStr "1.1") (setdefault "session_count" (JNum 0) fs))
              v1_1_entry_defaults_idem l h pd Hd) as (r & h' & Hm & Hu & Hf & Hr).
  exists r, h'. split; [exact Hm|]. split; [exact Hu|]. split; [exact Hf|].
  split; [exact (deref_untouched _ _ _ _ Hu Hd)|exact Hr].
Qed.

Lemma migrate_v1_1_to_v1_2_spec l h pd :
  deref h l = Some pd ->
  exists r h', migrate_v1_1_to_v1_2 l h = Some (r, h') /\ untouched h h' /\
    fresh_doc h h' r /\ deref h' l = Some pd /\ deref h' r = Some (v1_2_value pd).
Proof.
  intros Hd. rewrite migrate_v1_1_to_v1_2_shape.
  destruct (migrate_with_spec _ (fun fs => Dict.set "schema_version" (JStr "1.2") fs)
              v1_2_entry_defaults_idem l h pd Hd) as (r & h' & Hm & Hu & Hf & Hr).
  exists r, h'. split; [exact Hm|]. split; [exact Hu|]. split; [exact Hf|].
  split; [exact (deref_untouched _ _ _ _ Hu Hd)|exact Hr].
Qed.

Lemma doc_keys_map_entries f pd :
  doc_keys (mkPDoc (pd_fields pd) (map_entries f (pd_memories pd))) = doc_keys pd.
Proof.
  unfold doc_keys, map_entries. simpl. destruct (pd_memories pd) as [cats|]; [|reflexivity].
  simpl. induction cats as [|[c es] rest IH]; simpl; [reflexivity|].
  rewrite IH, map_map. f_equal. apply map_ext. intros [k fs]. reflexivity.
Qed.

End MigrationFacts.

(** C6: each migration deep-copies its input and never changes it:
    every object that existed before the call is unchanged after it, so
    the input document still denotes the same JSON value, and the result
    document and all its entries are objects created by the call. The
    result's value is a function of the input's value alone
    ([v1_1_value], [v1_2_value]), so chaining the two migrations gives the
    same document wherever it is done; in particular the document that
    [_auto_migrate_if_needed] saves for a v1.0 file is
    [v1_2_value (v1_1_value d)], next to the two pre-migration backups.
    Neither migration changes the list of [(category, key)] pairs, hence
    the entry count. *)
Theorem migrations_copy_and_chain :
  (forall l h pd, Migration.deref h l = Some pd ->
     exists r h', Migration.migrate_v1_0_to_v1_1 l h = Some (r, h') /\
       untouched h h' /\ fresh_doc h h' r /\
       Migration.deref h' l = Some pd /\ Migration.deref h' r = Some (v1_1_value pd)) /\
  (forall l h pd, Migration.deref h l = Some pd ->
     exists r h', Migration.migrate_v1_1_to_v1_2 l h = Some (r, h') /\
       untouched h h' /\ fresh_doc h h' r /\
       Migration.deref h' l = Some pd /\ Migration.deref h' r = Some (v1_2_value pd)) /\
  (forall pd, doc_keys (v1_1_value pd) = doc_keys pd /\ doc_keys (v1_2_value pd) = doc_keys pd) /\
  (forall pd cats, Migration.pd_memories pd = Some cats ->
     Dict.get "schema_version" (Migration.pd_fields pd) = Some (Migration.JStr "1.0") ->
     Migration._auto_migrate_if_needed pd =
       Some ([(Migration.PRE_MIGRATION_SUFFIX, pd);
              (Migration.PRE_MIGRATION_V1_1_SUFFIX, v1_1_value pd)],
             Some (v1_2_value (v1_1_value pd)))).
Proof.
  split; [exact MigrationFacts.migrate_v1_0_to_v1_1_spec|].
  split; [exact MigrationFacts.migrate_v1_1_to_v1_2_spec|].
  split; [intros pd; split; apply MigrationFacts.doc_keys_map_entries|].
  intros pd cats Hm Hv. unfold Migration._auto_migrate_if_needed.
  assert (Hhas : Dict.has "schema_version" (Migration.pd_fields pd) = true)
    by (unfold Dict.has; rewrite Hv; reflexivity).
  rewrite Hhas, Hm. simpl negb. cbv iota.
  destruct (Migration.load pd) as [l0 h0] eqn:L.
  pose proof (MigrationFacts.load_deref pd l0 h0 L) as Hd0.
  destruct (MigrationFacts.migrate_v1_0_to_v1_1_spec l0 h0 pd Hd0)
    as (l1 & h1 & Hm1 & _ & _ & _ & Hd1).
  destruct (MigrationFacts.migrate_v1_1_to_v1_2_spec l1 h1 (v1_1_value pd) Hd1)
    as (l2 & h2 & Hm2 & _ & _ & _ & Hd2).
  rewrite Hv. simpl. rewrite Hd0, Hm1. simpl. rewrite Hd1, Hm2. simpl. rewrite Hd2.
  reflexivity.
Qed.

Lemma migrations_copy_and_chain_witness :
  let '(l0, h0) := Migration.load Samples.v1_0_doc in
  Migration.deref h0 l0 = Some Samples.v1_0_doc /\
  (exists r h', Migration.migrate_v1_0_to_v1_1 l0 h0 = Some (r, h') /\
     untouched h0 h' /\ fresh_doc h0 h' r /\
     Migration.deref h' l0 = Some Samples.v1_0_doc /\
     Migration.deref h' r = Some (v1_1_value Samples.v1_0_doc)) /\
  Migration._auto_migrate_if_needed Samples.v1_0_doc =
    Some ([(Migration.PRE_MIGRATION_SUFFIX, Samples.v1_0_doc);
           (Migration.PRE_MIGRATION_V1_1_SUFFIX, v1_1_value Samples.v1_0_doc)],
          Some (v1_2_value (v1_1_value Samples.v1_0_doc))).
Proof.
  destruct (Migration.load Samples.v1_0_doc) as [l0 h0] eqn:L.
  assert (Hd : Migration.deref h0 l0 = Some Samples.v1_0_doc)
    by (vm_compute in L; inversion L; subst; vm_compute; reflexivity).
  split; [exact Hd|]. split.
  - exact (proj1 migrations_copy_and_chain l0 h0 Samples.v1_0_doc Hd).
  - eapply (proj2 (proj2 (proj2 migrations_copy_and_chain)) Samples.v1_0_doc);
      vm_compute; reflexivity.
Defined.

(* ================================================================== *)
(** * Further properties of the store *)

(** ** More dict lemmas *)

Module DictMore.

Lemma get_set_neq {V} (k k' : string) (v : V) d :
  k <> k' -> Dict.get k' (Dict.set k v d) = Dict.get k' d.
Proof.
  intros Hne. induction d as [|[k0 v0] r IH]; simpl.
  - destruct (String.eqb_spec k' k) as [->|_]; [congruence | reflexivity].
  - destruct (String.eqb_spec k k0) as [->|_]; simpl.
    + destruct (String.eqb_spec k' k0); [congruence | reflexivity].
    + rewrite IH. reflexivity.
Qed.

Lemma set_get_same {V} (k : string) (v : V) d : Dict.get k d = Some v -> Dict.set k v d = d.
Proof.
  induction d as [|[k0 v0] r IH]; simpl; [discriminate|].
  destruct (String.eqb_spec k k0) as [->|_]; intros H.
  - inversion H; subst; reflexivity.
  - rewrite (IH H); reflexivity.
Qed.

Lemma set_set {V} (k : string) (v v' : V) d : Dict.set k v (Dict.set k v' d) = Dict.set k v d.
Proof.
  induction d as [|[k0 v0] r IH]; simpl.
  - rewrite String.eqb_refl; reflexivity.
  - destruct (String.eqb_spec k k0) as [->|Hne]; simpl.
    + rewrite String.eqb_refl; reflexivity.
    + destruct (String.eqb_spec k k0); [congruence|]. rewrite IH; reflexivity.
Qed.

Lemma get_default_set_eq {V} (k : string) (v dflt : V) d :
  Dict.get_default k (Dict.set k v d) dflt = v.
Proof. unfold Dict.get_default. rewrite DictFacts.get_set_eq. reflexivity. Qed.

Lemma get_default_set_neq {V} (k k' : string) (v dflt : V) d :
  k <> k' -> Dict.get_default k' (Dict.set k v d) dflt = Dict.get_default k' d dflt.
Proof. intros H. unfold Dict.get_default. rewrite get_set_neq by exact H. reflexivity. Qed.

Lemma has_set {V} (k k' : string) (v : V) d :
  Dict.has k' (Dict.set k v d) = String.eqb k' k || Dict.has k' d.
Proof.
  unfold Dict.has. destruct (String.eqb_spec k' k) as [->|Hne].
  - rewrite DictFacts.get_set_eq. reflexivity.
  - rewrite get_set_neq by congruence. reflexivity.
Qed.

Lemma get_map {V W} (f : V -> W) (k : string) d :
  Dict.get k (map (fun '(k0, v) => (k0, f v)) d) = option_map f (Dict.get k d).
Proof.
  induction d as [|[k0 v0] r IH]; simpl; [reflexivity|].
  destruct (String.eqb k k0); [reflexivity | exact IH].
Qed.

Lemma pop_get_eq {V} (k : string) (d : Dict.t V) v d' :
  Dict.pop k d = Some (v, d') -> Dict.get k d = Some v.
Proof.
  revert d'. induction d as [|[k0 v0] r IH]; simpl; intros d' H; [discriminate|].
  destruct (String.eqb k k0); [congruence|].
  destruct (Dict.pop k r) as [[x r']|] eqn:E; [|discriminate].
  inversion H; subst. exact (IH _ eq_refl).
Qed.

Lemma pop_get_neq {V} (k k' : string) (d : Dict.t V) v d' :
  Dict.pop k d = Some (v, d') -> k <> k' -> Dict.get k' d' = Dict.get k' d.
Proof.
  revert d'. induction d as [|[k0 v0] r IH]; simpl; intros d' H Hne; [discriminate|].
  destruct (String.eqb_spec k k0) as [->|_].
  - inversion H; subst. destruct (String.eqb_spec k' k0); [congruence | reflexivity].
  - destruct (Dict.pop k r) as [[x r']|] eqn:E; [|discriminate].
    inversion H; subst. simpl. rewrite (IH _ eq_refl Hne). reflexivity.
Qed.

Lemma get_none_notin {V} (k : string) (d : Dict.t V) :
  ~ In k (map fst d) -> Dict.get k d = None.
Proof.
  induction d as [|[k0 v0] r IH]; simpl; intros H; [reflexivity|].
  destruct (String.eqb_spec k k0) as [->|_]; [exfalso; apply H; left; reflexivity|].
  apply IH. intros H'; apply H; right; exact H'.
Qed.

Lemma pop_nodup_gone {V} (k : string) (d : Dict.t V) v d' :
  NoDup (map fst d) -> Dict.pop k d = Some (v, d') -> Dict.get k d' = None.
Proof.
  revert d'. induction d as [|[k0 v0] r IH]; simpl; intros d' Hnd H; [discriminate|].
  inversion Hnd as [|x l Hnotin Hnd']; subst.
  destruct (String.eqb_spec k k0) as [->|Hne].
  - inversion H; subst. apply get_none_notin. exact Hnotin.
  - destruct (Dict.pop k r) as [[x r']|] eqn:E; [|discriminate].
    inversion H; subst. simpl. destruct (String.eqb_spec k k0); [congruence|].
    exact (IH _ Hnd' eq_refl).
Qed.

Lemma get_default_map {V W} (f : V -> W) (k : string) d (dflt : V) :
  Dict.get_default k (map (fun '(k0, v) => (k0, f v)) d) (f dflt)
  = f (Dict.get_default k d dflt).
Proof. unfold Dict.get_default. rewrite get_map. destruct (Dict.get k d); reflexivity. Qed.

End DictMore.

Lemma world_eta (w : World) : mkWorld (disk w) (files w) = w.
Proof. destruct w; reflexivity. Qed.

Lemma set_memories_same (d : Document) : set_memories d (memories d) = d.
Proof. destruct d; reflexivity. Qed.

Lemma set_memories_twice (d : Document) m m' :
  set_memories (set_memories d m) m' = set_memories d m'.
Proof. reflexivity. Qed.

(** [get_default] that found the entry. *)
Lemma lookup_found (d : Document) c k e :
  lookup_entry d c k = Some e ->
  exists es, Dict.get c (memories d) = Some es /\ Dict.get k es = Some e.
Proof.
  unfold lookup_entry, Dict.get_default. destruct (Dict.get c (memories d)) as [es|].
  - intros H; exists es; split; [reflexivity | exact H].
  - simpl; discriminate.
Qed.

(** A lookup after writing category [c] with [cat']. *)
Lemma lookup_set_memories d c cat' c' k' :
  lookup_entry (set_memories d (Dict.set c cat' (memories d))) c' k'
  = if String.eqb c' c then Dict.get k' cat' else lookup_entry d c' k'.
Proof.
  unfold lookup_entry. simpl. destruct (String.eqb_spec c' c) as [->|Hne].
  - rewrite DictMore.get_default_set_eq. reflexivity.
  - rewrite DictMore.get_default_set_neq by congruence. reflexivity.
Qed.

(* ------------------------------------------------------------------ *)
(** ** Properties of the operations *)

Lemma add_link_ok sc sk tc tk rel w r w1 :
  add_link sc sk tc tk rel w = (inr r, w1) ->
  _validate_category sc = true /\ _validate_category tc = true /\
  existsb (String.eqb rel) VALID_RELATIONS = true /\
  exists src e0, Dict.get sc (memories (disk w)) = Some src /\ Dict.get sk src = Some e0 /\
    Dict.has tk (Dict.get_default tc (memories (disk w)) []) = true /\
    let ref := (tc ++ "." ++ tk)%string in
    if existsb (fun l => String.eqb (target l) ref && String.eqb (relation l) rel) (links e0)
    then r = LinkDuplicate /\ w1 = w
    else r = LinkCreated /\
         w1 = mkWorld (set_memories (disk w)
                (Dict.set sc (Dict.set sk (set_links e0 (links e0 ++ [mkLink ref rel])) src)
                   (memories (disk w)))) (files w).
Proof.
  unfold add_link.
  destruct (_validate_category sc) eqn:V1; [|discriminate].
  destruct (_validate_category tc) eqn:V2; [|discriminate].
  destruct (existsb (String.eqb rel) VALID_RELATIONS) eqn:V3; [|discriminate].
  cbn [negb]. unfold _read_modify_write. cbv zeta.
  destruct (Dict.get sc (memories (disk w))) as [src|] eqn:Es.
  2:{ unfold Dict.get_default at 1. rewrite Es. discriminate. }
  replace (Dict.get_default sc (memories (disk w)) []) with src
    by (unfold Dict.get_default; rewrite Es; reflexivity).
  destruct (Dict.get sk src) as [e0|] eqn:Ek; [|discriminate].
  destruct (Dict.has tk (Dict.get_default tc (memories (disk w)) [])) eqn:Ht; [|discriminate].
  cbn [negb].
  intros H. do 3 (split; [reflexivity|]). exists src, e0.
  do 3 (split; [first [assumption | reflexivity]|]).
  destruct (existsb (fun l : Link => (target l =? tc ++ "." ++ tk) && (relation l =? rel)) (links e0));
    inversion H; subst; split; try reflexivity.
  apply world_eta.
Qed.

(** X1: repeating a successful [add_link] on the store it produced reports a duplicate and changes nothing. *)
Theorem add_link_repeat_is_duplicate sc sk tc tk rel w r w1 :
  add_link sc sk tc tk rel w = (inr r, w1) ->
  add_link sc sk tc tk rel w1 = (inr LinkDuplicate, w1).
Proof.
  intros H. destruct (add_link_ok _ _ _ _ _ _ _ _ H)
    as (V1 & V2 & V3 & src & e0 & Es & Ek & Ht & Hr).
  cbv zeta in Hr.
  destruct (existsb _ (links e0)) eqn:Ex.
  - destruct Hr as [-> ->]. exact H.
  - destruct Hr as [-> ->].
    unfold add_link. rewrite V1, V2, V3. cbn [negb]. unfold _read_modify_write. cbv zeta.
    cbn [disk files set_memories memories].
    rewrite DictMore.get_default_set_eq, DictFacts.get_set_eq.
    destruct (String.eqb_spec sc tc) as [<-|Hne].
    + rewrite DictMore.get_default_set_eq, DictMore.has_set.
      unfold Dict.get_default in Ht. rewrite Es in Ht. rewrite Ht, orb_true_r.
      cbn [negb set_links links]. rewrite existsb_app. simpl.
      rewrite !String.eqb_refl, orb_true_r. reflexivity.
    + rewrite DictMore.get_default_set_neq by exact Hne. rewrite Ht.
      cbn [negb set_links links]. rewrite existsb_app. simpl.
      rewrite !String.eqb_refl, orb_true_r. reflexivity.
Qed.

Lemma filter_all {A} (f : A -> bool) l : (forall x, In x l -> f x = true) -> filter f l = l.
Proof.
  induction l as [|x r IH]; simpl; intros H; [reflexivity|].
  rewrite (H x (or_introl eq_refl)), IH; [reflexivity|]. intros y Hy; apply H; right; exact Hy.
Qed.

Lemma set_links_twice e l l' : set_links (set_links e l) l' = set_links e l'.
Proof. reflexivity. Qed.

(** X2: when the source entry had no link to the target, [remove_link] undoes a link created by [add_link]: the store is back to what it was. *)
Theorem add_link_then_remove_link_restores sc sk tc tk rel w w1 e0 :
  lookup_entry (disk w) sc sk = Some e0 ->
  (forall lk, In lk (links e0) -> target lk <> (tc ++ "." ++ tk)%string) ->
  add_link sc sk tc tk rel w = (inr LinkCreated, w1) ->
  remove_link sc sk tc tk w1 = (inr tt, w).
Proof.
  intros Hl Hno H. destruct (add_link_ok _ _ _ _ _ _ _ _ H)
    as (V1 & V2 & V3 & src & e1 & Es & Ek & Ht & Hr).
  destruct (lookup_found _ _ _ _ Hl) as (src' & Es' & Ek').
  rewrite Es in Es'. inversion Es'; subst src'. rewrite Ek in Ek'. inversion Ek'; subst e1.
  cbv zeta in Hr.
  destruct (existsb _ (links e0)); destruct Hr as [Hr ->]; [discriminate Hr|].
  unfold remove_link. rewrite V1, V2. cbn [negb]. unfold _read_modify_write. cbv zeta.
  cbn [disk files set_memories memories].
  rewrite DictMore.get_default_set_eq, DictFacts.get_set_eq.
  cbn [links set_links].
  rewrite filter_app.
  rewrite (filter_all _ (links e0)).
  2:{ intros lk Hlk. apply negb_true_iff, String.eqb_neq. exact (Hno lk Hlk). }
  simpl. rewrite String.eqb_refl. simpl. rewrite app_nil_r, length_app.
  simpl. rewrite Nat.add_1_r.
  destruct (Nat.eqb_spec (List.length (links e0)) (S (List.length (links e0)))) as [Heq|_];
    [lia|].
  rewrite set_links_twice, set_links_same, !DictMore.set_set, (DictMore.set_get_same _ _ _ Ek).
  rewrite (DictMore.set_get_same (V := Dict.t MemoryEntry) _ _ _ Es).
  destruct w as [[sv scnt m] fs]. reflexivity.
Qed.

(** X3: [recall] of one key returns the access-tracked entry, stores it, and changes no other entry and no file. *)
Theorem recall_key_touches_only_that_entry c k now w r w' :
  recall c (Some k) now w = (inr r, w') ->
  exists e, lookup_entry (disk w) c k = Some e /\ r = [(k, touch now e)] /\
    lookup_entry (disk w') c k = Some (touch now e) /\
    (forall c' k', (c', k') <> (c, k) -> lookup_entry (disk w') c' k' = lookup_entry (disk w) c' k') /\
    files w' = files w.
Proof.
  unfold recall, _read_modify_write.
  destruct (_validate_category c); cbn [negb]; [|discriminate]. cbv zeta.
  destruct (Dict.get k (Dict.get_default c (memories (disk w)) [])) as [e|] eqn:Ek;
    [|discriminate].
  intros H; inversion H; subst; clear H.
  exists e. split; [exact Ek|]. split; [reflexivity|]. cbn [disk files].
  split; [|split; [|reflexivity]].
  - rewrite lookup_set_memories, String.eqb_refl. apply DictFacts.get_set_eq.
  - intros c' k' Hne. rewrite lookup_set_memories.
    destruct (String.eqb_spec c' c) as [->|_]; [|reflexivity].
    rewrite DictMore.get_set_neq by congruence. reflexivity.
Qed.

(** X4: [recall] of a category returns and stores every entry of it access-tracked; other categories and the files are unchanged. *)
Theorem recall_category_touches_all c now w r w' :
  recall c None now w = (inr r, w') ->
  r = map (fun '(k, e) => (k, touch now e)) (Dict.get_default c (memories (disk w)) []) /\
  (forall k, lookup_entry (disk w') c k = option_map (touch now) (lookup_entry (disk w) c k)) /\
  (forall c' k, c' <> c -> lookup_entry (disk w') c' k = lookup_entry (disk w) c' k) /\
  files w' = files w.
Proof.
  unfold recall, _read_modify_write.
  destruct (_validate_category c); cbn [negb]; [|discriminate]. cbv zeta.
  intros H; inversion H; subst; clear H.
  split; [reflexivity|]. cbn [disk files].
  destruct (Dict.has c (memories (disk w))) eqn:Hc.
  - split; [|split; [|reflexivity]].
    + intros k. rewrite lookup_set_memories, String.eqb_refl, DictMore.get_map. reflexivity.
    + intros c' k Hne. rewrite lookup_set_memories.
      destruct (String.eqb_spec c' c); [congruence | reflexivity].
  - rewrite set_memories_same. split; [|split; [|reflexivity]].
    + intros k. unfold lookup_entry, Dict.get_default.
      unfold Dict.has in Hc. destruct (Dict.get c (memories (disk w))); [discriminate|].
      reflexivity.
    + reflexivity.
Qed.

Lemma lookup_remove_incoming m ref c k :
  Dict.get k (Dict.get_default c (_remove_incoming_links m ref) [])
  = option_map (fun e => set_links e (link_filter ref (links e))) (Dict.get k (Dict.get_default c m [])).
Proof.
  unfold Dict.get_default. induction m as [|[c0 es] r IH]; simpl; [reflexivity|].
  destruct (String.eqb c c0); [|exact IH].
  clear IH. induction es as [|[k0 e] rest IH]; simpl; [reflexivity|].
  destruct (String.eqb k k0); [|exact IH].
  simpl. unfold link_filter. destruct (links e) eqn:El; [|reflexivity].
  simpl. rewrite <- El, set_links_same. reflexivity.
Qed.

(** X5: with distinct keys in the category, [forget] returns the stored entry, removes the key, and changes every other entry only by dropping its links to [category.key]. *)
Theorem forget_removes_key_keeps_others c k w r w' :
  NoDup (map fst (Dict.get_default c (memories (disk w)) [])) ->
  forget c k w = (inr r, w') ->
  lookup_entry (disk w) c k = Some (removed r) /\
  lookup_entry (disk w') c k = None /\
  (forall c' k', (c', k') <> (c, k) ->
     lookup_entry (disk w') c' k'
     = option_map (fun e => set_links e (link_filter (c ++ "." ++ k) (links e)))
                  (lookup_entry (disk w) c' k')).
Proof.
  intros Hnd H. destruct (forget_success _ _ _ _ _ H) as (es & es' & Ec & Ep & Hd & _).
  assert (Hes : Dict.get_default c (memories (disk w)) [] = es)
    by (unfold Dict.get_default; rewrite Ec; reflexivity).
  rewrite Hes in Hnd.
  split; [unfold lookup_entry; rewrite Hes; exact (DictMore.pop_get_eq _ _ _ _ Ep)|].
  unfold lookup_entry at 1 2. rewrite Hd. cbn [set_memories memories].
  rewrite !lookup_remove_incoming, DictMore.get_default_set_eq.
  split; [rewrite (DictMore.pop_nodup_gone _ _ _ _ Hnd Ep); reflexivity|].
  intros c' k' Hne. rewrite lookup_remove_incoming. f_equal.
  destruct (String.eqb_spec c c') as [<-|Hc].
  - rewrite DictMore.get_default_set_eq. unfold lookup_entry. rewrite Hes.
    apply (DictMore.pop_get_neq _ _ _ _ _ Ep). congruence.
  - rewrite DictMore.get_default_set_neq by exact Hc. reflexivity.
Qed.

Lemma get_default_setdefault (c c' : string) (m : Memories) :
  Dict.get_default c' (if Dict.has c m then m else Dict.set c [] m) [] = Dict.get_default c' m [].
Proof.
  destruct (Dict.has c m) eqn:H; [reflexivity|].
  destruct (String.eqb_spec c c') as [<-|Hne].
  - rewrite DictMore.get_default_set_eq. unfold Dict.get_default.
    unfold Dict.has in H. destruct (Dict.get c m); [discriminate | reflexivity].
  - apply DictMore.get_default_set_neq. exact Hne.
Qed.

Lemma get_in_set_category (c c' k' : string) cat' (m : Memories) :
  Dict.get k' (Dict.get_default c' (Dict.set c cat' m) [])
  = if String.eqb c' c then Dict.get k' cat' else Dict.get k' (Dict.get_default c' m []).
Proof.
  destruct (String.eqb_spec c' c) as [->|Hne].
  - rewrite DictMore.get_default_set_eq. reflexivity.
  - rewrite DictMore.get_default_set_neq by congruence. reflexivity.
Qed.

Lemma set_absent {V} (k : string) (v : V) d : Dict.get k d = None -> Dict.set k v d = d ++ [(k, v)].
Proof.
  induction d as [|[k0 v0] r IH]; simpl; [reflexivity|].
  destruct (String.eqb k k0); [discriminate|]. intros H; rewrite (IH H); reflexivity.
Qed.

Lemma auto_links_loop_skip_last c k s l x acc :
  auto_links_loop c k s (l ++ [(k, x)]) acc = auto_links_loop c k s l acc.
Proof.
  revert acc. induction l as [|[k0 e0] r IH]; intros acc; simpl.
  - rewrite String.eqb_refl. reflexivity.
  - destruct (String.eqb k0 k); [apply IH|].
    cbv zeta.
    match goal with |- (if ?b then _ else _) = _ => destruct b end; [|apply IH].
    match goal with |- (if ?b then _ else _) = _ => destruct b end; [reflexivity | apply IH].
Qed.

(** The two branches of [remember] that write. *)
Lemma remember_written c k v tg imp st conf force broad now w act e w' :
  remember c k v tg imp st conf force broad now w = (inr (Written act e), w') ->
  let cat := Dict.get_default c (memories (disk w)) [] in
  exists cat',
    disk w' = set_memories (disk w) (Dict.set c cat' (if Dict.has c (memories (disk w))
                                                     then memories (disk w)
                                                     else Dict.set c [] (memories (disk w)))) /\
    files w' = files w /\
    Dict.get k cat' = Some e /\
    (forall k', k' <> k -> Dict.get k' cat' = Dict.get k' cat) /\
    value e = v /\ updated_at e = Some now /\ importance e = _clamp_importance imp /\
    match Dict.get k cat with
    | Some e0 => act = "UPDATE" /\ e = update_existing e0 v now (resolved_tags tg) (_clamp_importance imp) conf
    | None => act = "ADD" /\ created_at e = Some now /\ access_count e = 0 /\
              last_accessed e = None /\ status e = "active" /\ source e = mkSource st None /\
              tags e = resolved_tags tg /\ confidence e = conf /\
              links e = _find_auto_links c k (resolved_tags tg) cat
    end.
Proof.
  unfold remember. destruct (_validate_category c); cbn [negb]; [|discriminate]. cbv zeta.
  fold (resolved_tags tg).
  destruct (if force then [] else _find_candidates (disk w) c k v (resolved_tags tg) broad);
    [|discriminate].
  unfold _do_remember, _read_modify_write. cbv zeta.
  rewrite get_default_setdefault.
  destruct (Dict.get k (Dict.get_default c (memories (disk w)) [])) as [e0|] eqn:Ek.
  - intros H; inversion H; subst; clear H.
    eexists. split; [reflexivity|]. split; [reflexivity|].
    split; [apply DictFacts.get_set_eq|].
    split; [intros k' Hne; apply DictMore.get_set_neq; congruence|].
    cbn. repeat split; reflexivity.
  - intros H. inversion H as [[Hact He Hw']]; clear H.
    rewrite DictMore.set_set in Hw'.
    set (entry := mkEntry v (Some now) (Some now) (resolved_tags tg) conf (_clamp_importance imp)
                    (mkSource st None) 0 None "active" []) in *.
    assert (Hl : _find_auto_links c k (resolved_tags tg)
                   (Dict.set k entry (Dict.get_default c (memories (disk w)) []))
                 = _find_auto_links c k (resolved_tags tg) (Dict.get_default c (memories (disk w)) [])).
    { rewrite (set_absent _ _ _ Ek). unfold _find_auto_links.
      destruct (resolved_tags tg); [reflexivity|]. apply auto_links_loop_skip_last. }
    subst e w'. rewrite Hl. eexists. split; [reflexivity|]. split; [reflexivity|].
    split; [apply DictFacts.get_set_eq|].
    split; [intros k' Hne; rewrite !DictMore.get_set_neq by congruence; reflexivity|].
    destruct (_find_auto_links c k (resolved_tags tg) (Dict.get_default c (memories (disk w)) []));
      cbn; repeat split; reflexivity.
Qed.

(** X6: a writing [remember] stores its entry (the given value, [updated_at = now], importance in [1, 10]) and changes no other entry, the session count or the files. *)
Theorem remember_writes_only_its_entry c k v tg imp st conf force broad now w act e w' :
  remember c k v tg imp st conf force broad now w = (inr (Written act e), w') ->
  lookup_entry (disk w') c k = Some e /\
  (forall c' k', (c', k') <> (c, k) -> lookup_entry (disk w') c' k' = lookup_entry (disk w) c' k') /\
  session_count (disk w') = session_count (disk w) /\ files w' = files w /\
  value e = v /\ updated_at e = Some now /\
  (MIN_IMPORTANCE <= importance e <= MAX_IMPORTANCE)%Z.
Proof.
  intros H. destruct (remember_written _ _ _ _ _ _ _ _ _ _ _ _ _ _ H)
    as (cat' & Hd & Hf & Hk & Hk' & Hv & Hu & Hi & _).
  unfold lookup_entry. rewrite Hd. cbn [set_memories memories session_count].
  split; [rewrite get_in_set_category, String.eqb_refl; exact Hk|].
  split.
  - intros c' k' Hne. rewrite get_in_set_category.
    destruct (String.eqb_spec c' c) as [->|Hc].
    + apply Hk'. congruence.
    + rewrite get_default_setdefault. reflexivity.
  - split; [reflexivity|]. split; [exact Hf|]. split; [exact Hv|]. split; [exact Hu|].
    rewrite Hi. unfold _clamp_importance, MIN_IMPORTANCE, MAX_IMPORTANCE. lia.
Qed.

(** X7: a writing [remember] reports ADD exactly when the key was absent, and then the entry is fresh: created now, never accessed, active, with the sorted tags, the given source type and confidence, and the auto-links as its links. *)
Theorem remember_add_creates_fresh_entry c k v tg imp st conf force broad now w act e w' :
  remember c k v tg imp st conf force broad now w = (inr (Written act e), w') ->
  (act = "ADD" <-> lookup_entry (disk w) c k = None) /\
  (lookup_entry (disk w) c k = None ->
     created_at e = Some now /\ access_count e = 0 /\ last_accessed e = None /\
     status e = "active" /\ source e = mkSource st None /\ tags e = resolved_tags tg /\
     confidence e = conf /\
     links e = _find_auto_links c k (resolved_tags tg) (Dict.get_default c (memories (disk w)) [])).
Proof.
  intros H. destruct (remember_written _ _ _ _ _ _ _ _ _ _ _ _ _ _ H)
    as (cat' & _ & _ & _ & _ & _ & _ & _ & Hb).
  unfold lookup_entry. destruct (Dict.get k (Dict.get_default c (memories (disk w)) [])) as [e0|].
  - destruct Hb as [-> _]. split; [split; discriminate | discriminate].
  - destruct Hb as [-> Hb]. split; [split; reflexivity | intros _; exact Hb].
Qed.

(** X8: when [remember] returns candidates, nothing is written, [force] was false, the key was absent, and the recommendation is [_recommend_action] of the candidates. *)
Theorem remember_candidates_write_nothing c k v tg imp st conf force broad now w cs rec w' :
  remember c k v tg imp st conf force broad now w = (inr (Candidates cs rec), w') ->
  w' = w /\ force = false /\ cs <> [] /\ lookup_entry (disk w) c k = None /\
  rec = _recommend_action cs v.
Proof.
  unfold remember. destruct (_validate_category c); cbn [negb]; [|discriminate]. cbv zeta.
  destruct force.
  - unfold _do_remember, _read_modify_write. cbv zeta.
    destruct (Dict.get k _); [discriminate|]. discriminate.
  - destruct (_find_candidates (disk w) c k v _ broad) as [|x xs] eqn:Hc.
    + unfold _do_remember, _read_modify_write. cbv zeta.
      destruct (Dict.get k _); discriminate.
    + intros H; inversion H; subst. split; [reflexivity|]. split; [reflexivity|].
      split; [discriminate|]. split; [|reflexivity].
      unfold _find_candidates in Hc. unfold lookup_entry.
      unfold Dict.has in Hc. destruct (Dict.get k _); [discriminate | reflexivity].
Qed.

Lemma dedup_candidates_In k v tg es cat x :
  In x (_find_dedup_candidates k v tg es cat) ->
  cand_category x = cat /\ cand_key x <> k /\
  exists e, In (cand_key x, e) es /\
    cand_value x = value e /\ cand_tags x = tags e /\
    tag_overlap x = _tag_overlap_count tg (tags e) /\
    value_similarity x = py_round (_value_similarity_ratio (_extract_significant_words v)
                                     (_extract_significant_words (value e))) 2 /\
    ((MIN_TAG_OVERLAP_FOR_CANDIDATE <= tag_overlap x)%nat \/
     ((MIN_SIGNIFICANT_WORDS_FOR_VALUE_MATCH <= List.length (_extract_significant_words v))%nat /\
      (HIGH_VALUE_SIMILARITY_RATIO <= _value_similarity_ratio (_extract_significant_words v)
                                        (_extract_significant_words (value e)))%Q)).
Proof.
  unfold _find_dedup_candidates. rewrite in_flat_map.
  intros [[ek e] [Hin Hx]].
  destruct (String.eqb_spec ek k) as [_|Hne]; [destruct Hx|]. cbv zeta in Hx.
  destruct (MIN_TAG_OVERLAP_FOR_CANDIDATE <=? _tag_overlap_count tg (tags e))%nat eqn:H1;
  destruct ((MIN_SIGNIFICANT_WORDS_FOR_VALUE_MATCH <=? List.length (_extract_significant_words v))%nat
            && Qle_bool HIGH_VALUE_SIMILARITY_RATIO
                 (_value_similarity_ratio (_extract_significant_words v)
                    (_extract_significant_words (value e)))) eqn:H2;
  simpl in Hx; try contradiction;
  destruct Hx as [<-|[]]; cbn;
  (split; [reflexivity|]); (split; [exact Hne|]); exists e;
  (split; [exact Hin|]); (do 4 (split; [reflexivity|])).
  - left. apply Nat.leb_le. exact H1.
  - left. apply Nat.leb_le. exact H1.
  - right. apply andb_true_iff in H2. destruct H2 as [H2 H3].
    split; [apply Nat.leb_le; exact H2 | apply Qle_bool_iff; exact H3].
Qed.

(** X9: every dedup candidate is an existing entry under another key, of the target category (a valid category in broad mode), found only when the key is absent; its fields are computed from that entry, and it passes the tag-overlap or the similarity test. *)
Theorem find_candidates_sound d c k v tg broad x :
  In x (_find_candidates d c k v tg broad) ->
  lookup_entry d c k = None /\ cand_key x <> k /\
  (if broad then In (cand_category x) VALID_CATEGORIES else cand_category x = c) /\
  exists e, In (cand_key x, e) (Dict.get_default (cand_category x) (memories d) []) /\
    cand_value x = value e /\ cand_tags x = tags e /\
    tag_overlap x = _tag_overlap_count tg (tags e) /\
    rounded_to 2 (_value_similarity_ratio (_extract_significant_words v)
                    (_extract_significant_words (value e))) (value_similarity x) /\
    ((MIN_TAG_OVERLAP_FOR_CANDIDATE <= tag_overlap x)%nat \/
     ((MIN_SIGNIFICANT_WORDS_FOR_VALUE_MATCH <= List.length (_extract_significant_words v))%nat /\
      (HIGH_VALUE_SIMILARITY_RATIO <= _value_similarity_ratio (_extract_significant_words v)
                                        (_extract_significant_words (value e)))%Q)).
Proof.
  unfold _find_candidates. cbv zeta. unfold lookup_entry.
  unfold Dict.has. destruct (Dict.get k (Dict.get_default c (memories d) [])); [intros []|].
  intros Hx. split; [reflexivity|].
  destruct broad.
  - apply in_flat_map in Hx. destruct Hx as [cn [Hcn Hx]].
    destruct (dedup_candidates_In _ _ _ _ _ _ Hx) as (Hc & Hk & e & Hin & H1 & H2 & H3 & H4 & H5).
    split; [exact Hk|]. split; [rewrite Hc; exact Hcn|]. rewrite Hc.
    exists e. rewrite H4. split; [exact Hin|]. repeat split; auto. apply py_round_rounded_to.
  - destruct (dedup_candidates_In _ _ _ _ _ _ Hx) as (Hc & Hk & e & Hin & H1 & H2 & H3 & H4 & H5).
    split; [exact Hk|]. split; [exact Hc|]. rewrite Hc.
    exists e. rewrite H4. split; [exact Hin|]. repeat split; auto. apply py_round_rounded_to.
Qed.

(** [round(x, n)] picks the floor of [x * 10^n] or, when the fractional
    part is at least one half, the next integer. *)
Lemma py_round_cases x n :
  exists z, py_round x n = (inject_Z z / inject_Z (10 ^ n))%Q /\
    (z = Qfloor (x * inject_Z (10 ^ n)) \/
     (z = Qfloor (x * inject_Z (10 ^ n)) + 1 /\
      (1 # 2 <= x * inject_Z (10 ^ n) - inject_Z (Qfloor (x * inject_Z (10 ^ n))))%Q)).
Proof.
  unfold py_round. cbv zeta.
  set (y := (x * inject_Z (10 ^ n))%Q). set (f := Qfloor y).
  unfold Qlt_bool.
  destruct (Qle_bool (1 # 2) (y - inject_Z f)) eqn:H1; cbn [negb].
  - apply Qle_bool_iff in H1.
    destruct (Qle_bool (y - inject_Z f) (1 # 2)); cbn [negb].
    + destruct (Z.even f); eexists; (split; [reflexivity|]); [left; reflexivity|right; split; [reflexivity | exact H1]].
    + eexists; split; [reflexivity|]. right; split; [reflexivity | exact H1].
  - eexists; split; [reflexivity|]. left; reflexivity.
Qed.

Lemma py_round_unit x n : (0 <= n)%Z -> (0 <= x <= 1)%Q -> (0 <= py_round x n <= 1)%Q.
Proof.
  intros Hn [H0 H1]. destruct (py_round_cases x n) as [z [-> Hz]].
  assert (Hs : (0 < 10 ^ n)%Z) by (apply Z.pow_pos_nonneg; lia).
  set (s := (10 ^ n)%Z) in *.
  assert (Hsq : (0 < inject_Z s)%Q) by (change 0%Q with (inject_Z 0); rewrite <- Zlt_Qlt; exact Hs).
  set (y := (x * inject_Z s)%Q) in *.
  assert (Hy0 : (0 <= y)%Q) by (unfold y; apply Qmult_le_0_compat; lra).
  assert (Hys : (y <= inject_Z s)%Q) by (unfold y; nra).
  assert (Hf0 : (0 <= Qfloor y)%Z).
  { change 0%Z with (Qfloor 0). apply Qfloor_resp_le. exact Hy0. }
  assert (Hfs : (Qfloor y <= s)%Z).
  { rewrite <- (Qfloor_Z s). apply Qfloor_resp_le. exact Hys. }
  assert (Hz' : (0 <= z <= s)%Z).
  { destruct Hz as [->|[-> Hr]]; [lia|].
    assert (Hlt : (inject_Z (Qfloor y) < inject_Z s)%Q) by lra.
    rewrite <- Zlt_Qlt in Hlt. lia. }
  destruct Hz' as [Hz0 Hzs].
  rewrite Zle_Qle in Hz0. rewrite Zle_Qle in Hzs.
  split.
  - apply Qle_shift_div_l; [exact Hsq|]. rewrite Qmult_0_l. exact Hz0.
  - apply Qle_shift_div_r; [exact Hsq|]. rewrite Qmult_1_l. exact Hzs.
Qed.

Lemma ratio_unit new_words existing_words :
  (0 <= _value_similarity_ratio new_words existing_words <= 1)%Q.
Proof.
  unfold _value_similarity_ratio. destruct new_words as [|w ws]; [split; discriminate|].
  set (n := List.length (w :: ws)).
  set (m := List.length (PyStr.set_inter (w :: ws) existing_words)).
  assert (Hmn : (m <= n)%nat) by apply filter_length_le.
  assert (Hn : (0 < inject_Z (Z.of_nat n))%Q).
  { change 0%Q with (inject_Z 0). rewrite <- Zlt_Qlt. unfold n. simpl. lia. }
  split.
  - apply Qle_shift_div_l; [exact Hn|]. rewrite Qmult_0_l.
    change 0%Q with (inject_Z 0). rewrite <- Zle_Qle. lia.
  - apply Qle_shift_div_r; [exact Hn|]. rewrite Qmult_1_l.
    rewrite <- Zle_Qle. lia.
Qed.

(** X10: the similarity ratio, and each candidate's rounded similarity, lies in [0, 1]. *)
Theorem similarity_in_unit_interval new_words existing_words k v tg es cat :
  (0 <= _value_similarity_ratio new_words existing_words <= 1)%Q /\
  (forall x, In x (_find_dedup_candidates k v tg es cat) -> (0 <= value_similarity x <= 1)%Q).
Proof.
  split; [apply ratio_unit|].
  intros x Hx. destruct (dedup_candidates_In _ _ _ _ _ _ Hx) as (_ & _ & e & _ & _ & _ & _ & Hs & _).
  rewrite Hs. apply py_round_unit; [lia | apply ratio_unit].
Qed.

Lemma set_mem_In x s : PyStr.set_mem x s = true <-> In x s.
Proof.
  unfold PyStr.set_mem. rewrite existsb_exists. split.
  - intros [y [Hy Heq]]. apply String.eqb_eq in Heq. subst; exact Hy.
  - intros H. exists x. split; [exact H | apply String.eqb_refl].
Qed.

Lemma set_inter_In x a b : In x (PyStr.set_inter a b) <-> In x a /\ In x b.
Proof. unfold PyStr.set_inter. rewrite filter_In, set_mem_In. reflexivity. Qed.

Lemma set_inter_length_comm a b :
  NoDup a -> NoDup b -> List.length (PyStr.set_inter a b) = List.length (PyStr.set_inter b a).
Proof.
  intros Ha Hb.
  assert (H1 : NoDup (PyStr.set_inter a b)) by (apply NoDup_filter; exact Ha).
  assert (H2 : NoDup (PyStr.set_inter b a)) by (apply NoDup_filter; exact Hb).
  apply Nat.le_antisymm; apply NoDup_incl_length; try assumption;
    intros x; rewrite !set_inter_In; tauto.
Qed.

(** X11: [_tag_overlap_count] is symmetric. *)
Theorem tag_overlap_symmetric a b : _tag_overlap_count a b = _tag_overlap_count b a.
Proof.
  unfold _tag_overlap_count. apply set_inter_length_comm; apply NoDup_nodup.
Qed.

Lemma auto_links_loop_spec c k s l : forall acc,
  (List.length acc < MAX_AUTO_LINKS_PER_REMEMBER)%nat ->
  (List.length (auto_links_loop c k s l acc) <= MAX_AUTO_LINKS_PER_REMEMBER)%nat /\
  forall lk, In lk (auto_links_loop c k s l acc) ->
    In lk acc \/
    (relation lk = AUTO_LINK_RELATION /\
     exists k' e', k' <> k /\ In (k', e') l /\ target lk = (c ++ "." ++ k')%string /\
       (AUTO_LINK_TAG_OVERLAP_THRESHOLD <=
          List.length (PyStr.set_inter s (PyStr.to_set (map PyStr.lower (tags e')))))%nat).
Proof.
  induction l as [|[k0 e0] r IH]; intros acc Hacc; cbn [auto_links_loop].
  - split; [lia|]. intros lk H; left; exact H.
  - destruct (String.eqb_spec k0 k) as [_|Hne].
    + destruct (IH acc Hacc) as [Hl Hin]. split; [exact Hl|].
      intros lk H. destruct (Hin lk H) as [H'|(Hr & k' & e' & H1 & H2 & H3)]; [left; exact H'|].
      right. split; [exact Hr|]. exists k', e'. split; [exact H1|]. split; [right; exact H2|]. auto.
    + cbv zeta.
      destruct (AUTO_LINK_TAG_OVERLAP_THRESHOLD <=?
                List.length (PyStr.set_inter s (PyStr.to_set (map PyStr.lower (tags e0)))))%nat eqn:Ho.
      * assert (Hnew : forall lk, In lk (acc ++ [mkLink (c ++ "." ++ k0) AUTO_LINK_RELATION]) ->
                  In lk acc \/
                  (relation lk = AUTO_LINK_RELATION /\
                   exists k' e', k' <> k /\ In (k', e') ((k0, e0) :: r) /\
                     target lk = (c ++ "." ++ k')%string /\
                     (AUTO_LINK_TAG_OVERLAP_THRESHOLD <=
                        List.length (PyStr.set_inter s (PyStr.to_set (map PyStr.lower (tags e')))))%nat)).
        { intros lk H. apply in_app_iff in H. destruct H as [H|[<-|[]]]; [left; exact H|].
          right. split; [reflexivity|]. exists k0, e0. split; [exact Hne|].
          split; [left; reflexivity|]. split; [reflexivity|]. apply Nat.leb_le; exact Ho. }
        destruct (MAX_AUTO_LINKS_PER_REMEMBER <=? List.length (acc ++ [mkLink (c ++ "." ++ k0) AUTO_LINK_RELATION]))%nat eqn:Hm.
        -- split; [rewrite length_app; simpl; unfold MAX_AUTO_LINKS_PER_REMEMBER in *; lia|].
           exact Hnew.
        -- apply Nat.leb_gt in Hm.
           destruct (IH _ Hm) as [Hl Hin]. split; [exact Hl|].
           intros lk H. destruct (Hin lk H) as [H'|(Hr & k' & e' & H1 & H2 & H3)]; [exact (Hnew lk H')|].
           right. split; [exact Hr|]. exists k', e'. split; [exact H1|]. split; [right; exact H2|]. exact H3.
      * destruct (IH acc Hacc) as [Hl Hin]. split; [exact Hl|].
        intros lk H. destruct (Hin lk H) as [H'|(Hr & k' & e' & H1 & H2 & H3)]; [left; exact H'|].
        right. split; [exact Hr|]. exists k', e'. split; [exact H1|]. split; [right; exact H2|]. exact H3.
Qed.

(** X12: [_find_auto_links] returns at most 3 links, each a related-to link to another existing key of the category sharing at least 2 tags. *)
Theorem find_auto_links_bounded c k tg es :
  (List.length (_find_auto_links c k tg es) <= MAX_AUTO_LINKS_PER_REMEMBER)%nat /\
  forall lk, In lk (_find_auto_links c k tg es) ->
    relation lk = AUTO_LINK_RELATION /\
    exists k' e', k' <> k /\ In (k', e') es /\ target lk = (c ++ "." ++ k')%string /\
      (AUTO_LINK_TAG_OVERLAP_THRESHOLD <= _tag_overlap_count tg (tags e'))%nat.
Proof.
  unfold _find_auto_links. destruct tg as [|t ts].
  - split; [simpl; unfold MAX_AUTO_LINKS_PER_REMEMBER; lia | intros lk []].
  - destruct (auto_links_loop_spec c k (PyStr.to_set (map PyStr.lower (t :: ts))) es []
                ltac:(simpl; unfold MAX_AUTO_LINKS_PER_REMEMBER; lia)) as [Hl Hin].
    split; [exact Hl|]. intros lk H. destruct (Hin lk H) as [[]|(Hr & rest)].
    split; [exact Hr | exact rest].
Qed.

Lemma get_map_key {V W} (f : string -> V -> W) (k : string) d :
  Dict.get k (map (fun '(k0, v) => (k0, f k0 v)) d) = option_map (f k) (Dict.get k d).
Proof.
  induction d as [|[k0 v0] r IH]; simpl; [reflexivity|].
  destruct (String.eqb_spec k k0) as [->|_]; [reflexivity | exact IH].
Qed.

Lemma lookup_map_map (g : string -> MemoryEntry -> MemoryEntry) (m : Dict.t (Dict.t MemoryEntry)) c k :
  Dict.get k (Dict.get_default c
    (map (fun '(c0, es) => (c0, map (fun '(k0, e) => (k0, g k0 e)) es)) m) [])
  = option_map (g k) (Dict.get k (Dict.get_default c m [])).
Proof.
  unfold Dict.get_default. induction m as [|[c0 es] r IH]; simpl; [reflexivity|].
  destruct (String.eqb c c0); [apply get_map_key | exact IH].
Qed.

Lemma search_entries_mems exp now_str now_dt ql qt cat es :
  fst (search_entries exp now_str now_dt ql qt cat es)
  = map (fun '(k, e) => (k, match _find_match_reasons k e ql with
                            | [] => e | _ => touch now_str e end)) es.
Proof.
  induction es as [|[k e] rest IH]; simpl; [reflexivity|].
  destruct (search_entries exp now_str now_dt ql qt cat rest) as [rest' rs] eqn:E.
  simpl in IH. destruct (_find_match_reasons k e ql) eqn:M; simpl; rewrite IH; reflexivity.
Qed.

Lemma search_categories_mems exp now_str now_dt ql qt mems :
  fst (search_categories exp now_str now_dt ql qt mems)
  = map (fun '(c, es) => (c, map (fun '(k, e) => (k, match _find_match_reasons k e ql with
                                                     | [] => e | _ => touch now_str e end)) es)) mems.
Proof.
  induction mems as [|[c es] rest IH]; simpl; [reflexivity|].
  pose proof (search_entries_mems exp now_str now_dt ql qt c es) as He.
  destruct (search_entries exp now_str now_dt ql qt c es) as [es' rs1] eqn:E1.
  destruct (search_categories exp now_str now_dt ql qt rest) as [rest' rs2] eqn:E2.
  simpl in *. rewrite He, IH. reflexivity.
Qed.

(** X13: [search] access-tracks exactly the matched entries of its scope and changes nothing else. *)
Theorem search_touches_exactly_matches exp q cat now now_dt w rs w' :
  search exp q cat now now_dt w = (inr rs, w') ->
  files w' = files w /\ session_count (disk w') = session_count (disk w) /\
  forall c k, lookup_entry (disk w') c k =
    option_map (fun e =>
      if match cat with None => true | Some c0 => String.eqb c c0 end
      then match _find_match_reasons k e (PyStr.lower q) with [] => e | _ => touch now e end
      else e) (lookup_entry (disk w) c k).
Proof.
  unfold search, _read_modify_write.
  destruct (match cat with Some c => negb (_validate_category c) | None => false end);
    [discriminate|].
  destruct (search_scan exp q cat now now_dt (memories (disk w))) as [m' rs0] eqn:Es.
  intros H; inversion H; subst; clear H. cbn [disk files set_memories session_count memories].
  split; [reflexivity|]. split; [reflexivity|].
  intros c k. unfold lookup_entry. cbn [memories].
  unfold search_scan in Es. destruct cat as [c0|].
  - pose proof (search_entries_mems exp now now_dt (PyStr.lower q)
                  (filter (fun t => negb (String.eqb t "")) (PyStr.split (PyStr.lower q)))
                  c0 (Dict.get_default c0 (memories (disk w)) [])) as He.
    destruct (search_entries _ _ _ _ _ _ _) as [es' rs1]. inversion Es; subst; clear Es.
    simpl in He. subst es'.
    destruct (Dict.has c0 (memories (disk w))) eqn:Hc.
    + cbn [set_memories memories]. rewrite get_in_set_category. destruct (String.eqb_spec c c0) as [->|Hne].
      * rewrite get_map_key. destruct (Dict.get k _); reflexivity.
      * destruct (Dict.get k _); reflexivity.
    + destruct (String.eqb_spec c c0) as [->|Hne].
      * cbn [set_memories memories]. unfold Dict.has in Hc. unfold Dict.get_default.
        destruct (Dict.get c0 (memories (disk w))); [discriminate|]. reflexivity.
      * cbn [set_memories memories]. destruct (Dict.get k _); reflexivity.
  - pose proof (search_categories_mems exp now now_dt (PyStr.lower q)
                  (filter (fun t => negb (String.eqb t "")) (PyStr.split (PyStr.lower q)))
                  (memories (disk w))) as He.
    rewrite Es in He. simpl in He. subst m'. cbn [set_memories memories].
    rewrite (lookup_map_map (fun k e =>
      match _find_match_reasons k e (PyStr.lower q) with [] => e | _ => touch now e end)).
    destruct (Dict.get k _); reflexivity.
Qed.

Lemma length_insert_desc x l : List.length (insert_desc x l) = S (List.length l).
Proof. induction l as [|y ys IH]; simpl; [reflexivity|]. destruct (Qle_bool _ _); simpl; congruence. Qed.

Lemma length_sort_desc l : List.length (sort_desc l) = List.length l.
Proof. induction l as [|x xs IH]; simpl; [reflexivity|]. rewrite length_insert_desc. congruence. Qed.

Lemma contains_empty s : PyStr.contains "" s = true.
Proof. destruct s; reflexivity. Qed.

Lemma match_reasons_empty_query k e :
  _find_match_reasons k e "" = ["key"; "value"] ++ match tags e with [] => [] | _ => ["tag"] end.
Proof.
  unfold _find_match_reasons. rewrite !contains_empty. simpl.
  destruct (tags e) as [|t ts]; simpl; [reflexivity|]. rewrite contains_empty. reflexivity.
Qed.

(** X14: an empty query matches every scoped entry: one result per entry, with reasons key, value (and tag when it has tags). *)
Theorem search_empty_query_matches_all exp cat now now_dt w rs w' :
  search exp "" cat now now_dt w = (inr rs, w') ->
  List.length rs = List.length (search_scope cat (memories (disk w))) /\
  forall c k e, In (c, k, e) (search_scope cat (memories (disk w))) ->
    exists r, In r rs /\ res_category r = c /\ res_key r = k /\ res_entry r = touch now e /\
              res_match_reason r = ["key"; "value"] ++ match tags e with [] => [] | _ => ["tag"] end.
Proof.
  intros H. apply search_returns in H. subst rs.
  rewrite search_scan_results. change (PyStr.lower "") with "".
  split.
  - rewrite length_sort_desc. induction (search_scope cat (memories (disk w))) as [|[[c k] e] r IH];
      simpl; [reflexivity|].
    rewrite length_app, IH. unfold search_item. rewrite match_reasons_empty_query. reflexivity.
  - intros c k e Hin. eexists. rewrite In_sort_desc, in_flat_map. split.
    + exists (c, k, e). split; [exact Hin|]. unfold search_item. rewrite match_reasons_empty_query.
      simpl. left. reflexivity.
    + simpl. repeat split.
Qed.

Lemma py_round_2_close x : (x - (1 # 200) <= py_round x 2 <= x + (1 # 200))%Q.
Proof.
  unfold py_round. cbv zeta.
  change (inject_Z (10 ^ 2)) with (100 # 1)%Q.
  set (y := (x * (100 # 1))%Q).
  pose proof (Qfloor_le y) as H1.
  pose proof (Qlt_floor y) as H2. rewrite inject_Z_plus in H2.
  set (f := Qfloor y) in *.
  assert (Hz : forall z, (y - (1 # 2) <= inject_Z z <= y + (1 # 2))%Q ->
                 (x - (1 # 200) <= inject_Z z / (100 # 1) <= x + (1 # 200))%Q).
  { intros z [Ha Hb]. unfold Qdiv. change (/ (100 # 1))%Q with (1 # 100)%Q.
    unfold y in *. split; lra. }
  apply Hz.
  assert (H1' : (inject_Z 1 == 1)%Q) by reflexivity.
  destruct (Qlt_bool (y - inject_Z f) (1 # 2)) eqn:E1.
  - unfold Qlt_bool in E1. apply negb_true_iff, not_le_bool_lt in E1. split; lra.
  - unfold Qlt_bool in E1. apply negb_false_iff, Qle_bool_iff in E1.
    destruct (Qlt_bool (1 # 2) (y - inject_Z f)) eqn:E2.
    + rewrite inject_Z_plus. split; lra.
    + unfold Qlt_bool in E2. apply negb_false_iff, Qle_bool_iff in E2.
      destruct (Z.even f); [|rewrite inject_Z_plus]; split; lra.
Qed.

Module LifecycleFacts.
Import Lifecycle.




Lemma fold_left_map_ {A B C} (f : A -> B -> A) (g : C -> B) l a :
  fold_left f (map g l) a = fold_left (fun a x => f a (g x)) l a.
Proof. revert a. induction l as [|x l IH]; intros a; simpl; [reflexivity | apply IH]. Qed.

Lemma fold_nested now cats (f : string -> Category) acc :
  fold_left (fun acc c => fold_left (fun acc '(k, e) => analyze_entry now c k e acc) (f c) acc) cats acc
  = fold_left (analyze_step now) (flat_map (fun c => map (fun '(k, e) => (c, k, e)) (f c)) cats) acc.
Proof.
  revert acc. induction cats as [|c cs IH]; intros acc; simpl; [reflexivity|].
  rewrite fold_left_app, fold_left_map_, <- IH. f_equal.
  generalize acc. induction (f c) as [|[k e] r IHr]; intros a; simpl; [reflexivity | apply IHr].
Qed.

Lemma fold_step now xs acc :
  fold_left (analyze_step now) xs acc =
  mkAcc (acc_stale acc ++ flat_map (fun '(c, k, e) => opt_list (_check_staleness c k e now)) xs)
        (acc_archival acc ++ flat_map (fun '(c, k, e) => opt_list (_check_archival_candidate c k e)) xs)
        (acc_conf acc ++ flat_map (fun '(c, k, e) => _check_confidence_adjustments c k e now) xs)
        (acc_total acc + List.length xs)
        (acc_active acc + List.length (filter (fun '(_, _, e) => String.eqb (status e) "active") xs))
        (acc_archived acc + List.length (filter (fun '(_, _, e) => String.eqb (status e) "archived") xs)).
Proof.
  revert acc. induction xs as [|[[c k] e] r IH]; intros acc; simpl.
  - destruct acc; simpl; rewrite !app_nil_r, !Nat.add_0_r; reflexivity.
  - rewrite IH. unfold analyze_entry. cbn [acc_stale acc_archival acc_conf acc_total acc_active acc_archived].
    rewrite <- !app_assoc.
    destruct (_check_staleness c k e now), (_check_archival_candidate c k e); simpl;
    (destruct (String.eqb_spec (status e) "active") as [Ha|Ha];
     [rewrite Ha; simpl; f_equal; lia|]);
    (destruct (String.eqb_spec (status e) "archived") as [Hb|Hb]; simpl; f_equal; lia).
Qed.

Lemma analyze_flat d sc now :
  let xs := analyzed_entries (memories d) in
  let a := analyze d sc now in
  stale_entries a = flat_map (fun '(c, k, e) => opt_list (_check_staleness c k e now)) xs /\
  archival_candidates a = flat_map (fun '(c, k, e) => opt_list (_check_archival_candidate c k e)) xs /\
  confidence_updates a = flat_map (fun '(c, k, e) => _check_confidence_adjustments c k e now) xs /\
  total_entries (summary a) = List.length xs /\
  active (summary a) = List.length (filter (fun '(_, _, e) => String.eqb (status e) "active") xs) /\
  archived (summary a) = List.length (filter (fun '(_, _, e) => String.eqb (status e) "archived") xs) /\
  stale_count (summary a) = List.length (stale_entries a) /\
  archival_candidate_count (summary a) = List.length (archival_candidates a) /\
  confidence_update_count (summary a) = List.length (confidence_updates a).
Proof.
  cbv zeta. unfold analyze, analyzed_entries. rewrite fold_nested, fold_step. simpl.
  repeat split.
Qed.

Lemma In_analyzed_entries mems c k e :
  In (c, k, e) (analyzed_entries mems) <->
  In c VALID_CATEGORIES /\ In (k, e) (Dict.get_default c mems []).
Proof.
  unfold analyzed_entries. rewrite in_flat_map. split.
  - intros [c' [Hc Hin]]. apply in_map_iff in Hin. destruct Hin as [[k' e'] [Heq Hin]].
    inversion Heq; subst. auto.
  - intros [Hc Hin]. exists c. split; [exact Hc|]. apply in_map_iff. exists (k, e). auto.
Qed.

(** X15: the archival candidates of [analyze] are exactly the active entries of the valid categories with importance at most 3 and no access. *)
Theorem analyze_archival_candidates_iff d sc now a :
  In a (archival_candidates (analyze d sc now)) <->
  exists c k e, In c VALID_CATEGORIES /\ In (k, e) (Dict.get_default c (memories d) []) /\
    status e = "active" /\ (importance e <= LOW_IMPORTANCE_CEILING)%Z /\ (access_count e <= 0)%Z /\
    a = mkArchival c k (importance e).
Proof.
  destruct (analyze_flat d sc now) as [_ [-> _]]. rewrite in_flat_map. split.
  - intros [[[c k] e] [Hin Ha]]. apply In_analyzed_entries in Hin. destruct Hin as [Hc Hin].
    unfold _check_archival_candidate in Ha.
    destruct (String.eqb_spec (status e) "active") as [Hs|Hs]; [|destruct Ha].
    destruct (LOW_IMPORTANCE_CEILING <? importance e)%Z eqn:Hi; [destruct Ha|].
    destruct (0 <? access_count e)%Z eqn:Hc0; [destruct Ha|].
    apply Z.ltb_ge in Hi, Hc0. destruct Ha as [<-|[]].
    exists c, k, e. auto 7.
  - intros [c [k [e [Hc [Hin [Hs [Hi [Hc0 ->]]]]]]]]. exists (c, k, e). split.
    + apply In_analyzed_entries. auto.
    + unfold _check_archival_candidate. rewrite Hs. simpl.
      apply Z.ltb_ge in Hi, Hc0. rewrite Hi, Hc0. left. reflexivity.
Qed.

Lemma analyze_stale_entries_In d sc now s :
  In s (stale_entries (analyze d sc now)) <->
  exists c k e t, In c VALID_CATEGORIES /\ In (k, e) (Dict.get_default c (memories d) []) /\
    (access_count e <= 0)%Z /\ created_at e = Some t /\
    (STALENESS_DAYS_THRESHOLD <= _days_since t now)%Q /\
    s = mkStale c k (Some t) (py_round (_days_since t now) 1).
Proof.
  destruct (analyze_flat d sc now) as [-> _]. rewrite in_flat_map. split.
  - intros [[[c k] e] [Hin Ha]]. apply In_analyzed_entries in Hin. destruct Hin as [Hc Hin].
    unfold _check_staleness in Ha.
    destruct (0 <? access_count e)%Z eqn:Hc0; [destruct Ha|]. apply Z.ltb_ge in Hc0.
    destruct (created_at e) as [t|] eqn:Ht; [|destruct Ha].
    destruct (Qlt_bool (_days_since t now) STALENESS_DAYS_THRESHOLD) eqn:Hd; [destruct Ha|].
    unfold Qlt_bool in Hd. apply negb_false_iff, Qle_bool_iff in Hd.
    destruct Ha as [<-|[]]. exists c, k, e, t. auto 7.
  - intros [c [k [e [t [Hc [Hin [Hc0 [Ht [Hd ->]]]]]]]]]. exists (c, k, e). split.
    + apply In_analyzed_entries. auto.
    + unfold _check_staleness. apply Z.ltb_ge in Hc0. rewrite Hc0, Ht.
      unfold Qlt_bool. apply Qle_bool_iff in Hd. rewrite Hd. left. reflexivity.
Qed.

(** X16: [analyze] reports a stale finding for category [c], key [k] and
    creation time [t] exactly when a never-accessed entry of the valid
    category [c] under [k] was created at [t], at least 7 days before
    now; each finding's age is the number of days since [t] rounded to
    1 decimal. *)
Theorem analyze_stale_entries_iff d sc now :
  (forall c k t,
     (exists dd, In (mkStale c k (Some t) dd) (stale_entries (analyze d sc now))) <->
     exists e, In c VALID_CATEGORIES /\ In (k, e) (Dict.get_default c (memories d) []) /\
       (access_count e <= 0)%Z /\ created_at e = Some t /\
       (STALENESS_DAYS_THRESHOLD <= _days_since t now)%Q) /\
  (forall s, In s (stale_entries (analyze d sc now)) ->
     exists c k t, s = mkStale c k (Some t) (days_old s) /\
       rounded_to 1 (_days_since t now) (days_old s)).
Proof.
  split.
  - intros c k t. split.
    + intros [dd Hs]. apply analyze_stale_entries_In in Hs.
      destruct Hs as (c' & k' & e & t' & Hc & Hin & Ha & Ht & Hd & Heq).
      injection Heq as -> -> -> _. exists e. auto.
    + intros (e & Hc & Hin & Ha & Ht & Hd).
      exists (py_round (_days_since t now) 1). apply analyze_stale_entries_In.
      exists c, k, e, t. auto 7.
  - intros s Hs. apply analyze_stale_entries_In in Hs.
    destruct Hs as (c & k & e & t & _ & _ & _ & _ & _ & ->).
    exists c, k, t. split; [reflexivity|]. apply py_round_rounded_to.
Qed.

Lemma confidence_adjustments_length c k e now :
  (List.length (_check_confidence_adjustments c k e now) <= 3)%nat.
Proof.
  unfold _check_confidence_adjustments. destruct (confidence e) as [conf|]; [|simpl; lia].
  rewrite !length_app.
  repeat match goal with
         | |- context [if ?b then _ else _] => destruct b
         | |- context [match ?o with Some _ => _ | None => _ end] => destruct o
         end; simpl; lia.
Qed.

Lemma length_flat_map_le {A B} (f : A -> list B) n l :
  (forall x, In x l -> (List.length (f x) <= n)%nat) ->
  (List.length (flat_map f l) <= n * List.length l)%nat.
Proof.
  induction l as [|x r IH]; intros H; simpl; [lia|].
  rewrite length_app.
  assert (List.length (flat_map f r) <= n * List.length r)%nat
    by (apply IH; intros y Hy; apply H; right; exact Hy).
  specialize (H x (or_introl eq_refl)). lia.
Qed.

Lemma length_filter_disjoint {A} (p q : A -> bool) l :
  (forall x, p x = true -> q x = false) ->
  (List.length (filter p l) + List.length (filter q l) <= List.length l)%nat.
Proof.
  intros H. induction l as [|x r IH]; simpl; [lia|].
  destruct (p x) eqn:Hp; [rewrite (H x Hp)|destruct (q x)]; simpl; lia.
Qed.

(** X17: the summary counts of [analyze]: total is the number of visited entries, active + archived, stale and archival counts are bounded by it, and confidence updates by three times it. *)
Theorem analyze_summary_bounds d sc now :
  let s := summary (analyze d sc now) in
  total_entries s = List.length (analyzed_entries (memories d)) /\
  (active s + archived s <= total_entries s)%nat /\
  (stale_count s <= total_entries s)%nat /\
  (archival_candidate_count s <= total_entries s)%nat /\
  (confidence_update_count s <= 3 * total_entries s)%nat.
Proof.
  destruct (analyze_flat d sc now) as [Hs [Ha [Hc [Ht [Hac [Har [Hsc [Hacc Hcc]]]]]]]].
  cbv zeta. rewrite Ht, Hac, Har, Hsc, Hacc, Hcc, Hs, Ha, Hc.
  set (xs := analyzed_entries (memories d)). split; [reflexivity|]. split; [|split; [|split]].
  - apply length_filter_disjoint. intros [[c k] e] H. apply String.eqb_eq in H. rewrite H. reflexivity.
  - replace (List.length xs) with (1 * List.length xs)%nat by lia.
    apply length_flat_map_le. intros [[c k] e] _. destruct (_check_staleness c k e now); simpl; lia.
  - replace (List.length xs) with (1 * List.length xs)%nat by lia.
    apply length_flat_map_le. intros [[c k] e] _. destruct (_check_archival_candidate c k e); simpl; lia.
  - apply length_flat_map_le. intros [[c k] e] _. apply confidence_adjustments_length.
Qed.

Lemma confidence_adjustment_direction c k e now u :
  In u (_check_confidence_adjustments c k e now) ->
  (cu_reason u = "frequently accessed" /\
   (current_confidence u < proposed_confidence u)%Q /\ proposed_confidence u = HIGH_CONFIDENCE_FLOOR) \/
  (cu_reason u = "never accessed" /\
   (0 <= proposed_confidence u < current_confidence u)%Q) \/
  (cu_reason u = "user-stated fact" /\
   (current_confidence u < proposed_confidence u)%Q /\
   proposed_confidence u = USER_STATED_MINIMUM_CONFIDENCE).
Proof.
  unfold _check_confidence_adjustments. destruct (confidence e) as [conf|]; [|intros []].
  rewrite !in_app_iff. intros [H|[H|H]].
  - destruct (_ && _) eqn:E; [|destruct H]. destruct H as [<-|[]].
    apply andb_true_iff in E. destruct E as [_ E]. unfold Qlt_bool in E.
    apply negb_true_iff, not_le_bool_lt in E. left. simpl. auto.
  - destruct ((access_count e =? 0)%Z && Qlt_bool LOW_CONFIDENCE_CEILING conf) eqn:E; [|destruct H].
    destruct (created_at e) as [t|]; [|destruct H].
    destruct (Qle_bool _ _); [|destruct H]. destruct H as [<-|[]].
    apply andb_true_iff in E. destruct E as [_ E]. unfold Qlt_bool in E.
    apply negb_true_iff, not_le_bool_lt in E. right; left. simpl. split; [reflexivity|].
    pose proof (py_round_2_close (conf - CONFIDENCE_REDUCTION_STEP)) as Hr.
    unfold LOW_CONFIDENCE_CEILING, CONFIDENCE_REDUCTION_STEP in *.
    split; [apply Q.le_max_r|]. apply Q.max_lub_lt; lra.
  - destruct (_ && _) eqn:E; [|destruct H]. destruct H as [<-|[]].
    apply andb_true_iff in E. destruct E as [_ E]. unfold Qlt_bool in E.
    apply negb_true_iff, not_le_bool_lt in E. right; right. simpl. auto.
Qed.

(** X18: every proposed confidence update moves the value: frequently accessed and user-stated fact raise it (to 0.8 and 0.9), never accessed lowers it, staying non-negative. *)
Theorem analyze_confidence_updates_direction d sc now u :
  In u (confidence_updates (analyze d sc now)) ->
  (cu_reason u = "frequently accessed" /\
   (current_confidence u < proposed_confidence u)%Q /\ proposed_confidence u = HIGH_CONFIDENCE_FLOOR) \/
  (cu_reason u = "never accessed" /\
   (0 <= proposed_confidence u < current_confidence u)%Q) \/
  (cu_reason u = "user-stated fact" /\
   (current_confidence u < proposed_confidence u)%Q /\
   proposed_confidence u = USER_STATED_MINIMUM_CONFIDENCE).
Proof.
  destruct (analyze_flat d sc now) as [_ [_ [-> _]]]. rewrite in_flat_map.
  intros [[[c k] e] [_ H]]. exact (confidence_adjustment_direction c k e now u H).
Qed.

(** X19: a never-accessed, old, user-stated entry with confidence in (0.3, 0.9) gets two opposite proposals: a lower value (never accessed), then 0.9 (user-stated fact). *)
Theorem confidence_adjustments_conflict c k e now conf t :
  confidence e = Some conf ->
  (LOW_CONFIDENCE_CEILING < conf < USER_STATED_MINIMUM_CONFIDENCE)%Q ->
  access_count e = 0%Z ->
  src_type (source e) = "user-stated" ->
  created_at e = Some t ->
  (STALENESS_DAYS_THRESHOLD <= _days_since t now)%Q ->
  exists p, (p < conf)%Q /\
    _check_confidence_adjustments c k e now =
      [mkConfUpdate c k conf p "never accessed";
       mkConfUpdate c k conf USER_STATED_MINIMUM_CONFIDENCE "user-stated fact"].
Proof.
  intros Hc [Hlo Hhi] Ha Hs Ht Hd.
  exists (Qmax (py_round (conf - CONFIDENCE_REDUCTION_STEP) 2) 0). split.
  - pose proof (py_round_2_close (conf - CONFIDENCE_REDUCTION_STEP)) as Hr.
    unfold LOW_CONFIDENCE_CEILING, CONFIDENCE_REDUCTION_STEP in *.
    apply Q.max_lub_lt; lra.
  - unfold _check_confidence_adjustments. rewrite Hc, Ha, Hs, Ht.
    unfold Qlt_bool. apply Qle_bool_iff in Hd. rewrite Hd.
    assert (E1 : Qle_bool conf LOW_CONFIDENCE_CEILING = false)
      by (apply not_true_iff_false; rewrite Qle_bool_iff; lra).
    assert (E2 : Qle_bool USER_STATED_MINIMUM_CONFIDENCE conf = false)
      by (apply not_true_iff_false; rewrite Qle_bool_iff; lra).
    rewrite E1, E2. reflexivity.
Qed.

End LifecycleFacts.

Module ConnectionsFacts.


Lemma split_dot_once_cases s :
  (no_dot s /\ split_dot_once s = [s]) \/
  (exists a b, no_dot a /\ s = (a ++ "." ++ b)%string /\ split_dot_once s = [a; b]).
Proof.
  induction s as [|c t IH]; simpl.
  - left. split; [intros []|reflexivity].
  - destruct (Ascii.eqb_spec c "."%char) as [->|Hc].
    + right. exists "", t. split; [intros []|]. split; reflexivity.
    + destruct IH as [[Hn ->]|[a [b [Hn [-> ->]]]]].
      * left. split; [|reflexivity]. unfold no_dot. simpl. intros [H|H]; [congruence|exact (Hn H)].
      * right. exists (String c a), b. split; [|split; reflexivity].
        unfold no_dot. simpl. intros [H|H]; [congruence|exact (Hn H)].
Qed.

Lemma split_dot_once_ref a b : no_dot a -> split_dot_once (a ++ "." ++ b)%string = [a; b].
Proof.
  induction a as [|c t IH]; intros Hn; simpl; [reflexivity|].
  destruct (Ascii.eqb_spec c "."%char) as [->|Hc].
  - exfalso. apply Hn. left. reflexivity.
  - assert (E : split_dot_once (t ++ "." ++ b)%string = [t; b])
      by (apply IH; intros H; apply Hn; right; exact H).
    simpl in E. rewrite E. reflexivity.
Qed.


Lemma connections_outgoing_spec m ls :
  (connections_outgoing m ls = inl ValueError /\ exists lk, In lk ls /\ no_dot (target lk)) \/
  (exists out, connections_outgoing m ls = inr out /\ Forall2 (outgoing_of m) ls out).
Proof.
  induction ls as [|lk r IH]; simpl.
  - right. exists []. split; [reflexivity | constructor].
  - destruct (split_dot_once_cases (target lk)) as [[Hn ->]|[a [b [Hn [Ht ->]]]]].
    + left. split; [reflexivity|]. exists lk. auto.
    + destruct IH as [[-> [lk' [Hin Hn']]]|[out [-> Hf]]].
      * left. split; [reflexivity|]. exists lk'. auto.
      * right. eexists. split; [reflexivity|]. constructor; [|exact Hf].
        exists a, b. rewrite Ht. auto.
Qed.

(** X20: the outcomes of [connections]: ValueError for a bad category or a dotless link target, KeyError for a missing entry, else one outgoing record per link and the incoming links. *)
Theorem connections_outcome c k d :
  (_validate_category c = false /\ connections c k d = inl ValueError) \/
  (_validate_category c = true /\ lookup_entry d c k = None /\ connections c k d = inl KeyError) \/
  (exists e, _validate_category c = true /\ lookup_entry d c k = Some e /\
     ((connections c k d = inl ValueError /\ exists lk, In lk (links e) /\ no_dot (target lk)) \/
      (exists out, connections c k d = inr (out, _find_incoming_links (memories d) (c ++ "." ++ k)%string)
         /\ Forall2 (outgoing_of (memories d)) (links e) out))).
Proof.
  unfold connections, lookup_entry.
  destruct (_validate_category c) eqn:V; cbn [negb]; [|left; auto].
  right. destruct (Dict.get k (Dict.get_default c (memories d) [])) as [e|] eqn:E; [|left; auto].
  right. exists e. split; [reflexivity|]. split; [reflexivity|].
  destruct (connections_outgoing_spec (memories d) (links e)) as [[-> H]|[out [-> H]]].
  - left. auto.
  - right. exists out. auto.
Qed.

Lemma In_find_incoming m r i :
  In i (_find_incoming_links m r) <->
  exists c es k e lk, In (c, es) m /\ In (k, e) es /\ In lk (links e) /\ target lk = r /\
    i = mkIncoming (c ++ "." ++ k)%string (relation lk) (value e).
Proof.
  unfold _find_incoming_links. rewrite in_flat_map. split.
  - intros [[c es] [Hc H]]. rewrite in_flat_map in H. destruct H as [[k e] [Hk H]].
    rewrite in_flat_map in H. destruct H as [lk [Hl H]].
    destruct (String.eqb_spec (target lk) r) as [Ht|Ht]; [|destruct H].
    destruct H as [<-|[]]. exists c, es, k, e, lk. auto 6.
  - intros [c [es [k [e [lk [Hc [Hk [Hl [Ht ->]]]]]]]]]. exists (c, es). split; [exact Hc|].
    apply in_flat_map. exists (k, e). split; [exact Hk|].
    apply in_flat_map. exists lk. split; [exact Hl|].
    rewrite Ht, String.eqb_refl. left. reflexivity.
Qed.

(** X21: a link created by [add_link] shows up among the target's incoming links in [connections]. *)
Theorem add_link_shows_as_incoming sc sk tc tk rel w w1 e0 out inc :
  add_link sc sk tc tk rel w = (inr LinkCreated, w1) ->
  lookup_entry (disk w) sc sk = Some e0 ->
  connections tc tk (disk w1) = inr (out, inc) ->
  In (mkIncoming (sc ++ "." ++ sk)%string rel (value e0)) inc.
Proof.
  intros H Hl Hc. destruct (add_link_ok _ _ _ _ _ _ _ _ H)
    as (V1 & V2 & V3 & src & e0' & Es & Ek & Ht & Hr).
  unfold lookup_entry, Dict.get_default in Hl. rewrite Es, Ek in Hl. inversion Hl; subst e0'.
  cbv zeta in Hr.
  destruct (existsb _ (links e0)); destruct Hr as [Hr ->]; [discriminate|].
  destruct (connections_outcome tc tk (disk (mkWorld (set_memories (disk w)
      (Dict.set sc (Dict.set sk (set_links e0 (links e0 ++ [mkLink (tc ++ "." ++ tk) rel])) src)
         (memories (disk w)))) (files w))))
    as [[_ E]|[[_ [_ E]]|[e [_ [_ [[E _]|[out' [E _]]]]]]]]; rewrite Hc in E; try discriminate.
  inversion E; subst. apply In_find_incoming.
  eexists sc, _, sk, _, (mkLink (tc ++ "." ++ tk) rel). split; [|split; [|split; [|split]]].
  - apply DictFacts.get_In. cbn [disk set_memories memories]. apply DictFacts.get_set_eq.
  - apply DictFacts.get_In. apply DictFacts.get_set_eq.
  - cbn [set_links links]. apply in_or_app. right. left. reflexivity.
  - reflexivity.
  - reflexivity.
Qed.

End ConnectionsFacts.

Module ViewFacts.

Lemma prefix_self_app n b : String.prefix n (n ++ b)%string = true.
Proof.
  induction n as [|c t IH]; simpl; [destruct b; reflexivity|].
  destruct (ascii_dec c c) as [_|C]; [exact IH | congruence].
Qed.

Lemma contains_eq n h :
  PyStr.contains n h = String.prefix n h ||
    match h with EmptyString => false | String _ t => PyStr.contains n t end.
Proof. destruct h; reflexivity. Qed.

Lemma contains_self_app n b : PyStr.contains n (n ++ b)%string = true.
Proof. rewrite contains_eq, prefix_self_app. reflexivity. Qed.

Lemma contains_app_l n a h : PyStr.contains n h = true -> PyStr.contains n (a ++ h)%string = true.
Proof.
  induction a as [|c t IH]; intros H; [exact H|].
  rewrite contains_eq. simpl. rewrite (IH H). apply orb_true_r.
Qed.

Lemma contains_concat sep x l : In x l -> PyStr.contains x (py_join sep l) = true.
Proof.
  unfold py_join. induction l as [|y r IH]; intros H; [destruct H|].
  destruct H as [->|H].
  - simpl. destruct r; [|apply contains_self_app].
    assert (E : (x ++ "")%string = x) by (clear; induction x as [|c t IHx]; simpl; [reflexivity | rewrite IHx; reflexivity]).
    rewrite <- E at 2. apply contains_self_app.
  - simpl. destruct r as [|z r']; [destruct H|].
    apply contains_app_l, contains_app_l. exact (IH H).
Qed.
Lemma In_profile_block sep h es k e :
  In (k, e) es -> In (entry_line k e) (profile_block sep h es).
Proof.
  intros H. unfold profile_block. destruct es as [|x r]; [destruct H|].
  apply in_or_app. right. right. apply in_map_iff. exists (k, e). auto.
Qed.

(** X22: [about_me] falls back to its message exactly when its three sources are empty, and otherwise lists each of their entries. *)
Theorem about_me_profile d :
  let mems := memories d in
  let user := Dict.get_default "user" mems [] in
  let uf := tagged_entries "user-facing" (Dict.get_default "relationships" mems []) in
  let up := tagged_entries "user-preference" (Dict.get_default "tools" mems []) in
  (about_me d = "No user profile data found." <-> user = [] /\ uf = [] /\ up = []) /\
  forall k e, In (k, e) user \/ In (k, e) uf \/ In (k, e) up ->
    PyStr.contains (entry_line k e) (about_me d) = true.
Proof.
  cbv zeta. unfold about_me, about_me_lines.
  set (user := Dict.get_default "user" (memories d) []).
  set (uf := tagged_entries "user-facing" (Dict.get_default "relationships" (memories d) [])).
  set (up := tagged_entries "user-preference" (Dict.get_default "tools" (memories d) [])).
  split.
  - split.
    + destruct user as [|[k e] r], uf as [|[k' e'] r'], up as [|[k'' e''] r''];
        simpl; try discriminate; intros _; auto.
    + intros [-> [-> ->]]. reflexivity.
  - intros k e H.
    assert (Hin : In (entry_line k e)
               (profile_block false "## User Profile" user ++
                profile_block true "## Relationship Context" uf ++
                profile_block true "## Tool Preferences" up)).
    { destruct H as [H|[H|H]]; rewrite !in_app_iff; [left|right; left|right; right];
        apply In_profile_block; exact H. }
    destruct (profile_block false "## User Profile" user ++ _) as [|l ls]; [destruct Hin|].
    apply contains_concat. exact Hin.
Qed.

(** X23: [about_us] falls back to its message exactly when both categories are empty, and otherwise lists each of their entries. *)
Theorem about_us_profile d :
  let mems := memories d in
  let rel := Dict.get_default "relationships" mems [] in
  let asst := Dict.get_default "assistant" mems [] in
  (about_us d = "No relationship data found." <-> rel = [] /\ asst = []) /\
  forall k e, In (k, e) rel \/ In (k, e) asst ->
    PyStr.contains (entry_line k e) (about_us d) = true.
Proof.
  cbv zeta. unfold about_us, about_us_lines.
  set (rel := Dict.get_default "relationships" (memories d) []).
  set (asst := Dict.get_default "assistant" (memories d) []).
  split.
  - split.
    + destruct rel as [|[k e] r], asst as [|[k' e'] r'];
        simpl; try discriminate; intros _; auto.
    + intros [-> ->]. reflexivity.
  - intros k e H.
    assert (Hin : In (entry_line k e)
               (profile_block false "## Our Relationship" rel ++
                profile_block true "## Assistant Identity" asst)).
    { destruct H as [H|H]; rewrite !in_app_iff; [left|right];
        apply In_profile_block; exact H. }
    destruct (profile_block false "## Our Relationship" rel ++ _) as [|l ls]; [destruct Hin|].
    apply contains_concat. exact Hin.
Qed.

(** X24: the markdown export contains every entry's category heading and its line. *)
Theorem markdown_export_lists_every_entry d c es k e :
  In (c, es) (memories d) -> In (k, e) es ->
  PyStr.contains ("## " ++ c)%string (_format_as_markdown d) = true /\
  PyStr.contains (markdown_line k e) (_format_as_markdown d) = true.
Proof.
  intros Hc Hk. unfold _format_as_markdown. split; apply contains_concat;
    unfold markdown_lines; apply in_or_app; right; apply in_flat_map; exists (c, es);
    (split; [exact Hc|]); (destruct es as [|x r]; [destruct Hk|]).
  - left. reflexivity.
  - right. apply in_or_app. left. apply in_map_iff. exists (k, e). auto.
Qed.
End ViewFacts.

Module SchemaFacts.
Import Migration Schema.

Lemma get_setdefault_neq k k' v fs :
  k <> k' -> Dict.get k (setdefault k' v fs) = Dict.get k fs.
Proof.
  intros Hne. unfold setdefault. destruct (Dict.has k' fs); [reflexivity|].
  induction fs as [|[k0 v0] r IH]; simpl.
  - apply String.eqb_neq in Hne. rewrite Hne. reflexivity.
  - destruct (String.eqb k k0); [reflexivity | exact IH].
Qed.

Lemma get_default_setdefault_neq k k' v fs d :
  k <> k' -> Dict.get_default k (setdefault k' v fs) d = Dict.get_default k fs d.
Proof. intros Hne. unfold Dict.get_default. rewrite get_setdefault_neq by exact Hne. reflexivity. Qed.

Lemma get_default_setdefault_same k v fs :
  Dict.get_default k (setdefault k v fs) v = Dict.get_default k fs v.
Proof.
  unfold setdefault, Dict.get_default, Dict.has.
  destruct (Dict.get k fs) eqn:E; [rewrite E; reflexivity|].
  rewrite MigrationFacts.get_app_none by exact E. simpl. rewrite String.eqb_refl. reflexivity.
Qed.

Lemma links_from_to l : links_from_dicts (map link_to_dict l) = Some l.
Proof. induction l as [|[t r] ls IH]; simpl; [reflexivity|]. rewrite IH. reflexivity. Qed.

(** X25: [from_dict] inverts [to_dict]. *)
Theorem from_dict_to_dict e : from_dict (to_dict e) = Some e.
Proof.
  destruct e as [v c u tg conf imp [st sd] ac la s ls]. unfold from_dict, to_dict. simpl.
  rewrite links_from_to. reflexivity.
Qed.

(** X26: the migrations' entry defaults agree with [from_dict]'s defaults: [from_dict] reads the same entry from a migrated dict. *)
Theorem from_dict_ignores_migration_defaults fs :
  from_dict (v1_2_entry_defaults (v1_1_entry_defaults fs)) = from_dict fs.
Proof.
  unfold from_dict, v1_2_entry_defaults, v1_1_entry_defaults.
  repeat first
    [ rewrite get_default_setdefault_same
    | rewrite get_setdefault_neq by discriminate
    | rewrite get_default_setdefault_neq by discriminate ].
  reflexivity.
Qed.

(** X27: the migrations' entry defaults leave a [to_dict] output unchanged. *)
Theorem to_dict_already_migrated e :
  v1_2_entry_defaults (v1_1_entry_defaults (to_dict e)) = to_dict e.
Proof.
  unfold v1_2_entry_defaults, v1_1_entry_defaults.
  rewrite !MigrationFacts.setdefault_has; reflexivity.
Qed.

End SchemaFacts.

(** X28: [_auto_migrate_if_needed] by version: nothing for 1.2; for 1.1 one backup and the v1.2 migration; for an unknown version the document saved as it is. *)
Theorem auto_migrate_by_version pd cats v :
  Migration.pd_memories pd = Some cats ->
  Dict.get "schema_version" (Migration.pd_fields pd) = Some v ->
  (v = Migration.JStr SCHEMA_VERSION -> Migration._auto_migrate_if_needed pd = Some ([], None)) /\
  (v = Migration.JStr "1.1" -> Migration._auto_migrate_if_needed pd =
     Some ([(Migration.PRE_MIGRATION_V1_1_SUFFIX, pd)], Some (v1_2_value pd))) /\
  (~ In v [Migration.JStr "1.0"; Migration.JStr "1.1"; Migration.JStr SCHEMA_VERSION] ->
     Migration._auto_migrate_if_needed pd = Some ([], Some pd)).
Proof.
  intros Hm Hv. unfold Migration._auto_migrate_if_needed.
  assert (Hhas : Dict.has "schema_version" (Migration.pd_fields pd) = true)
    by (unfold Dict.has; rewrite Hv; reflexivity).
  rewrite Hhas, Hm. simpl negb. cbv iota.
  destruct (Migration.load pd) as [l0 h0] eqn:L.
  pose proof (MigrationFacts.load_deref pd l0 h0 L) as Hd0.
  rewrite Hv. split; [|split].
  - intros ->. reflexivity.
  - intros ->. simpl.
    destruct (MigrationFacts.migrate_v1_1_to_v1_2_spec l0 h0 pd Hd0)
      as (l2 & h2 & Hm2 & _ & _ & _ & Hd2).
    rewrite Hd0, Hm2. simpl. rewrite Hd2. reflexivity.
  - intros Hn. unfold Migration.is_version.
    destruct v as [| | |s| |]; try (simpl; rewrite Hd0; reflexivity).
    destruct (String.eqb_spec s SCHEMA_VERSION) as [->|H1]; [exfalso; apply Hn; simpl; auto|].
    destruct (String.eqb_spec s "1.0") as [->|H2]; [exfalso; apply Hn; simpl; auto|].
    destruct (String.eqb_spec s "1.1") as [->|H3]; [exfalso; apply Hn; simpl; auto|].
    simpl. rewrite Hd0. reflexivity.
Qed.

Lemma length_analyzed_entries_sum (mems : Memories) cats :
  List.length (flat_map (fun c => map (fun '(k, e) => (c, k, e)) (Dict.get_default c mems [])) cats)
  = fold_right (fun '((_, n) : string * nat) acc => (n + acc)%nat) 0%nat
      (map (fun c => (c, List.length (Dict.get_default c mems []))) cats).
Proof.
  induction cats as [|c cs IH]; simpl; [reflexivity|].
  rewrite length_app, length_map, IH. reflexivity.
Qed.

(** X29: [session_start] increments the session count, keeps the memories, and reports the same total as [reflect]'s analysis of the result. *)
Theorem session_start_total_matches_reflect w counts total w' sc now :
  session_start w = (inr (counts, total), w') ->
  memories (disk w') = memories (disk w) /\
  session_count (disk w') = session_count (disk w) + 1 /\
  total = Lifecycle.total_entries (Lifecycle.summary (Lifecycle.analyze (disk w') sc now)).
Proof.
  unfold session_start, _read_modify_write. intros H. inversion H; subst. clear H.
  cbn [disk memories session_count]. split; [reflexivity|]. split; [reflexivity|].
  destruct (LifecycleFacts.analyze_flat
              (mkDoc (schema_version (disk w)) (session_count (disk w) + 1) (memories (disk w))) sc now)
    as [_ [_ [_ [Ht _]]]].
  rewrite Ht. unfold analyzed_entries. cbn [memories].
  rewrite length_analyzed_entries_sum. reflexivity.
Qed.


(** add_link_repeat_is_duplicate at a concrete input. *)
Lemma add_link_repeat_is_duplicate_witness :
  match add_link "user" "c" "user" "a" "related-to" Samples.links_world with
  | (inr r, w1) => add_link "user" "c" "user" "a" "related-to" w1 = (inr LinkDuplicate, w1)
  | _ => False
  end.
Proof.
  destruct (add_link "user" "c" "user" "a" "related-to" Samples.links_world) as [[err|r] w1] eqn:E;
    [vm_compute in E; discriminate|].
  exact (add_link_repeat_is_duplicate _ _ _ _ _ _ _ _ E).
Defined.

(** add_link_then_remove_link_restores at a concrete input. *)
Lemma add_link_then_remove_link_restores_witness :
  add_link "user" "c" "user" "a" "related-to" Samples.links_world
    = (inr LinkCreated, snd (add_link "user" "c" "user" "a" "related-to" Samples.links_world)) /\
  remove_link "user" "c" "user" "a" (snd (add_link "user" "c" "user" "a" "related-to" Samples.links_world))
    = (inr tt, Samples.links_world).
Proof.
  split; [vm_compute; reflexivity|].
  apply (add_link_then_remove_link_restores "user" "c" "user" "a" "related-to" Samples.links_world _
           (Samples.mkE "Carol" [] [])).
  - vm_compute; reflexivity.
  - intros lk H. vm_compute in H. destruct H.
  - vm_compute; reflexivity.
Defined.

(** recall_key_touches_only_that_entry at a concrete input. *)
Lemma recall_key_touches_only_that_entry_witness :
  match recall "user" (Some "a") 7 Samples.links_world with
  | (inr r, w') =>
      exists e, lookup_entry (disk Samples.links_world) "user" "a" = Some e /\ r = [("a", touch 7 e)] /\
        lookup_entry (disk w') "user" "a" = Some (touch 7 e) /\
        (forall c' k', (c', k') <> ("user", "a") ->
           lookup_entry (disk w') c' k' = lookup_entry (disk Samples.links_world) c' k') /\
        files w' = files Samples.links_world
  | _ => False
  end.
Proof.
  destruct (recall "user" (Some "a") 7 Samples.links_world) as [[err|r] w'] eqn:E;
    [vm_compute in E; discriminate|].
  exact (recall_key_touches_only_that_entry _ _ _ _ _ _ E).
Defined.

(** recall_category_touches_all at a concrete input. *)
Lemma recall_category_touches_all_witness :
  match recall "user" None 7 Samples.links_world with
  | (inr r, w') =>
      r = map (fun '(k, e) => (k, touch 7 e)) (Dict.get_default "user" (memories (disk Samples.links_world)) []) /\
      (forall k, lookup_entry (disk w') "user" k
                 = option_map (touch 7) (lookup_entry (disk Samples.links_world) "user" k)) /\
      (forall c' k, c' <> "user" -> lookup_entry (disk w') c' k = lookup_entry (disk Samples.links_world) c' k) /\
      files w' = files Samples.links_world
  | _ => False
  end.
Proof.
  destruct (recall "user" None 7 Samples.links_world) as [[err|r] w'] eqn:E;
    [vm_compute in E; discriminate|].
  exact (recall_category_touches_all _ _ _ _ _ E).
Defined.

(** forget_removes_key_keeps_others at a concrete input. *)
Lemma forget_removes_key_keeps_others_witness :
  NoDup (map fst (Dict.get_default "user" (memories (disk Samples.links_world)) [])) /\
  match forget "user" "a" Samples.links_world with
  | (inr r, w') =>
      lookup_entry (disk Samples.links_world) "user" "a" = Some (removed r) /\
      lookup_entry (disk w') "user" "a" = None /\
      (forall c' k', (c', k') <> ("user", "a") ->
         lookup_entry (disk w') c' k'
         = option_map (fun e => set_links e (link_filter "user.a" (links e)))
                      (lookup_entry (disk Samples.links_world) c' k'))
  | _ => False
  end.
Proof.
  assert (Hnd : NoDup (map fst (Dict.get_default "user" (memories (disk Samples.links_world)) []))).
  { vm_compute. repeat constructor; simpl; intuition discriminate. }
  split; [exact Hnd|].
  destruct (forget "user" "a" Samples.links_world) as [[err|r] w'] eqn:E;
    [vm_compute in E; discriminate|].
  exact (forget_removes_key_keeps_others _ _ _ _ _ Hnd E).
Defined.

(** remember_writes_only_its_entry at a concrete input. *)
Lemma remember_writes_only_its_entry_witness :
  match remember "user" "d" "Dave" ["x"] 5 "user-stated" None false false 7 Samples.links_world with
  | (inr (Written act e), w') =>
      lookup_entry (disk w') "user" "d" = Some e /\
      (forall c' k', (c', k') <> ("user", "d") ->
         lookup_entry (disk w') c' k' = lookup_entry (disk Samples.links_world) c' k') /\
      session_count (disk w') = session_count (disk Samples.links_world) /\
      files w' = files Samples.links_world /\
      value e = "Dave" /\ updated_at e = Some 7 /\
      (MIN_IMPORTANCE <= importance e <= MAX_IMPORTANCE)%Z
  | _ => False
  end.
Proof.
  destruct (remember "user" "d" "Dave" ["x"] 5 "user-stated" None false false 7 Samples.links_world)
    as [[err|[cs rec|act e]] w'] eqn:E; [vm_compute in E; discriminate | vm_compute in E; discriminate |].
  exact (remember_writes_only_its_entry _ _ _ _ _ _ _ _ _ _ _ _ _ _ E).
Defined.

(** remember_add_creates_fresh_entry at a concrete input. *)
Lemma remember_add_creates_fresh_entry_witness :
  match remember "user" "d" "Dave" ["x"] 5 "user-stated" None false false 7 Samples.links_world with
  | (inr (Written act e), w') =>
      (act = "ADD" <-> lookup_entry (disk Samples.links_world) "user" "d" = None) /\
      (lookup_entry (disk Samples.links_world) "user" "d" = None ->
         created_at e = Some 7 /\ access_count e = 0 /\ last_accessed e = None /\
         status e = "active" /\ source e = mkSource "user-stated" None /\ tags e = resolved_tags ["x"] /\
         confidence e = None /\
         links e = _find_auto_links "user" "d" (resolved_tags ["x"])
                     (Dict.get_default "user" (memories (disk Samples.links_world)) []))
  | _ => False
  end.
Proof.
  destruct (remember "user" "d" "Dave" ["x"] 5 "user-stated" None false false 7 Samples.links_world)
    as [[err|[cs rec|act e]] w'] eqn:E; [vm_compute in E; discriminate | vm_compute in E; discriminate |].
  exact (remember_add_creates_fresh_entry _ _ _ _ _ _ _ _ _ _ _ _ _ _ E).
Defined.

(** remember_candidates_write_nothing at a concrete input. *)
Lemma remember_candidates_write_nothing_witness :
  match remember "user" "b" Samples.value42 ["p"; "q"] 5 "session" None false false 7 Samples.dedup_world with
  | (inr (Candidates cs rec), w') =>
      w' = Samples.dedup_world /\ false = false /\ cs <> [] /\
      lookup_entry (disk Samples.dedup_world) "user" "b" = None /\
      rec = _recommend_action cs Samples.value42
  | _ => False
  end.
Proof.
  destruct (remember "user" "b" Samples.value42 ["p"; "q"] 5 "session" None false false 7 Samples.dedup_world)
    as [[err|[cs rec|act e]] w'] eqn:E; [vm_compute in E; discriminate | | vm_compute in E; discriminate].
  exact (remember_candidates_write_nothing _ _ _ _ _ _ _ _ _ _ _ _ _ _ E).
Defined.

(** find_candidates_sound at a concrete input. *)
Lemma find_candidates_sound_witness :
  match _find_candidates (disk Samples.dedup_world) "user" "b" Samples.value42 ["p"; "q"] false with
  | x :: _ =>
      lookup_entry (disk Samples.dedup_world) "user" "b" = None /\ cand_key x <> "b" /\
      cand_category x = "user" /\
      exists e, In (cand_key x, e) (Dict.get_default (cand_category x) (memories (disk Samples.dedup_world)) []) /\
        cand_value x = value e /\ cand_tags x = tags e /\
        tag_overlap x = _tag_overlap_count ["p"; "q"] (tags e) /\
        rounded_to 2 (_value_similarity_ratio (_extract_significant_words Samples.value42)
                        (_extract_significant_words (value e))) (value_similarity x) /\
        ((MIN_TAG_OVERLAP_FOR_CANDIDATE <= tag_overlap x)%nat \/
         ((MIN_SIGNIFICANT_WORDS_FOR_VALUE_MATCH <= List.length (_extract_significant_words Samples.value42))%nat /\
          (HIGH_VALUE_SIMILARITY_RATIO <= _value_similarity_ratio (_extract_significant_words Samples.value42)
                                            (_extract_significant_words (value e)))%Q))
  | [] => False
  end.
Proof.
  destruct (_find_candidates (disk Samples.dedup_world) "user" "b" Samples.value42 ["p"; "q"] false)
    as [|x xs] eqn:E; [vm_compute in E; discriminate|].
  apply (find_candidates_sound (disk Samples.dedup_world) "user" "b" Samples.value42 ["p"; "q"] false x).
  rewrite E. left. reflexivity.
Defined.

(** search_touches_exactly_matches at a concrete input. *)
Lemma search_touches_exactly_matches_witness :
  match search Samples.exp_linear "tea" None Samples.ranked_now Samples.ranked_now Samples.ranked_world with
  | (inr rs, w') =>
      option_map access_count (lookup_entry (disk w') "user" "a") = Some 1%Z /\
      option_map access_count (lookup_entry (disk w') "user" "b") = Some 3%Z /\
      option_map access_count (lookup_entry (disk w') "user" "d") = Some 0%Z /\
      (files w' = files Samples.ranked_world /\
       session_count (disk w') = session_count (disk Samples.ranked_world) /\
       forall c k, lookup_entry (disk w') c k =
         option_map (fun e =>
           if true
           then match _find_match_reasons k e (PyStr.lower "tea") with
                | [] => e | _ => touch Samples.ranked_now e end
           else e) (lookup_entry (disk Samples.ranked_world) c k))
  | _ => False
  end.
Proof.
  destruct (search Samples.exp_linear "tea" None Samples.ranked_now Samples.ranked_now Samples.ranked_world)
    as [[err|rs] w'] eqn:E; [vm_compute in E; discriminate|].
  pose proof (search_touches_exactly_matches _ _ _ _ _ _ _ _ E) as H.
  vm_compute in E. inversion E. subst w'.
  split; [reflexivity|]. split; [reflexivity|]. split; [reflexivity|]. exact H.
Defined.

(** search_empty_query_matches_all at a concrete input. *)
Lemma search_empty_query_matches_all_witness :
  match search (fun _ => 1%Q) "" None 3 3 Samples.links_world with
  | (inr rs, w') =>
      List.length rs = List.length (search_scope None (memories (disk Samples.links_world))) /\
      forall c k e, In (c, k, e) (search_scope None (memories (disk Samples.links_world))) ->
        exists r, In r rs /\ res_category r = c /\ res_key r = k /\ res_entry r = touch 3 e /\
                  res_match_reason r = ["key"; "value"] ++ match tags e with [] => [] | _ => ["tag"] end
  | _ => False
  end.
Proof.
  destruct (search (fun _ => 1%Q) "" None 3 3 Samples.links_world) as [[err|rs] w'] eqn:E;
    [vm_compute in E; discriminate|].
  exact (search_empty_query_matches_all _ _ _ _ _ _ _ E).
Defined.

(** analyze_confidence_updates_direction at a concrete input. *)
Lemma analyze_confidence_updates_direction_witness :
  match Lifecycle.confidence_updates (Lifecycle.analyze MoreSamples.conf_doc 0 MoreSamples.eight_days) with
  | u :: _ =>
      (Lifecycle.cu_reason u = "frequently accessed" /\
       (Lifecycle.current_confidence u < Lifecycle.proposed_confidence u)%Q /\
       Lifecycle.proposed_confidence u = Lifecycle.HIGH_CONFIDENCE_FLOOR) \/
      (Lifecycle.cu_reason u = "never accessed" /\
       (0 <= Lifecycle.proposed_confidence u < Lifecycle.current_confidence u)%Q) \/
      (Lifecycle.cu_reason u = "user-stated fact" /\
       (Lifecycle.current_confidence u < Lifecycle.proposed_confidence u)%Q /\
       Lifecycle.proposed_confidence u = Lifecycle.USER_STATED_MINIMUM_CONFIDENCE)
  | [] => False
  end.
Proof.
  destruct (Lifecycle.confidence_updates (Lifecycle.analyze MoreSamples.conf_doc 0 MoreSamples.eight_days))
    as [|u us] eqn:E; [vm_compute in E; discriminate|].
  apply (LifecycleFacts.analyze_confidence_updates_direction MoreSamples.conf_doc 0 MoreSamples.eight_days u).
  rewrite E. left. reflexivity.
Defined.

(** confidence_adjustments_conflict at a concrete input. *)
Lemma confidence_adjustments_conflict_witness :
  exists p, (p < 1 # 2)%Q /\
    Lifecycle._check_confidence_adjustments "user" "tea" MoreSamples.conf_entry MoreSamples.eight_days =
      [Lifecycle.mkConfUpdate "user" "tea" (1 # 2) p "never accessed";
       Lifecycle.mkConfUpdate "user" "tea" (1 # 2) Lifecycle.USER_STATED_MINIMUM_CONFIDENCE "user-stated fact"].
Proof.
  apply (LifecycleFacts.confidence_adjustments_conflict "user" "tea" MoreSamples.conf_entry
           MoreSamples.eight_days (1 # 2) 0).
  - reflexivity.
  - split; vm_compute; reflexivity.
  - reflexivity.
  - reflexivity.
  - reflexivity.
  - apply Qle_bool_iff. vm_compute. reflexivity.
Defined.

(** add_link_shows_as_incoming at a concrete input. *)
Lemma add_link_shows_as_incoming_witness :
  add_link "user" "c" "user" "a" "related-to" Samples.links_world
    = (inr LinkCreated, snd (add_link "user" "c" "user" "a" "related-to" Samples.links_world)) /\
  lookup_entry (disk Samples.links_world) "user" "c" = Some (Samples.mkE "Carol" [] []) /\
  match connections "user" "a" (disk (snd (add_link "user" "c" "user" "a" "related-to" Samples.links_world))) with
  | inr (out, inc) => In (mkIncoming "user.c" "related-to" "Carol") inc
  | inl _ => False
  end.
Proof.
  assert (H1 : add_link "user" "c" "user" "a" "related-to" Samples.links_world
    = (inr LinkCreated, snd (add_link "user" "c" "user" "a" "related-to" Samples.links_world)))
    by (vm_compute; reflexivity).
  assert (H2 : lookup_entry (disk Samples.links_world) "user" "c" = Some (Samples.mkE "Carol" [] []))
    by (vm_compute; reflexivity).
  split; [exact H1|]. split; [exact H2|].
  destruct (connections "user" "a" (disk (snd (add_link "user" "c" "user" "a" "related-to" Samples.links_world))))
    as [err|[out inc]] eqn:E; [vm_compute in E; discriminate|].
  exact (ConnectionsFacts.add_link_shows_as_incoming _ _ _ _ _ _ _ _ _ _ H1 H2 E).
Defined.

(** markdown_export_lists_every_entry at a concrete input. *)
Lemma markdown_export_lists_every_entry_witness :
  PyStr.contains "## user" (_format_as_markdown (disk Samples.links_world)) = true /\
  PyStr.contains (markdown_line "a" Samples.entry_a) (_format_as_markdown (disk Samples.links_world)) = true.
Proof.
  apply (ViewFacts.markdown_export_lists_every_entry (disk Samples.links_world) "user"
           (Dict.get_default "user" (memories (disk Samples.links_world)) []) "a" Samples.entry_a).
  - vm_compute. left. reflexivity.
  - vm_compute. left. reflexivity.
Defined.

(** auto_migrate_by_version at a concrete input. *)
Lemma auto_migrate_by_version_witness :
  Migration._auto_migrate_if_needed MoreSamples.v1_1_doc =
    Some ([(Migration.PRE_MIGRATION_V1_1_SUFFIX, MoreSamples.v1_1_doc)], Some (v1_2_value MoreSamples.v1_1_doc)).
Proof.
  apply (proj1 (proj2 (auto_migrate_by_version MoreSamples.v1_1_doc
           [("user", [("name", [("value", Migration.JStr "Alice")])])] (Migration.JStr "1.1")
           eq_refl eq_refl))).
  reflexivity.
Defined.

(** session_start_total_matches_reflect at a concrete input. *)
Lemma session_start_total_matches_reflect_witness :
  match session_start Samples.links_world with
  | (inr (counts, total), w') =>
      memories (disk w') = memories (disk Samples.links_world) /\
      session_count (disk w') = session_count (disk Samples.links_world) + 1 /\
      total = Lifecycle.total_entries (Lifecycle.summary (Lifecycle.analyze (disk w') 1 0))
  | _ => False
  end.
Proof.
  destruct (session_start Samples.links_world) as [[err|[counts total]] w'] eqn:E;
    [vm_compute in E; discriminate|].
  exact (session_start_total_matches_reflect _ _ _ _ _ _ E).
Defined.
